(** * Prompt Manager: repository, tree projection and search filter

    A shallow embedding of the storage service (StorageService.ts), the
    sidebar tree provider (PromptTreeDataProvider) and the keyword search of
    the prompt manager (PromptManager.searchPrompts), with the properties the
    specification states about them.

    Conventions of the embedding:
    - a JavaScript string is a [string] holding its UTF-8 bytes; [includes],
      [endsWith] and [===] on well-formed text agree with their byte-level
      versions;
    - [toLowerCase] and [localeCompare] depend on the Unicode tables of the
      engine and are left abstract (class [HostStrings]);
    - an optional field is an [option]; truthiness tests are written out;
    - a thrown exception is the [Throw] completion of a small state and
      error monad over the extension's key-value store;
    - console output is not part of the state. *)

From Stdlib Require Import ZArith List String Ascii Bool Lia Permutation Sorted OrderedTypeEx.
From stdpp Require Import base list strings pretty.
Import ListNotations.
Open Scope string_scope.
Open Scope Z_scope.

(** ** JavaScript primitives *)

Module Js.

(** Strings built from explicit UTF-8 bytes. *)
Definition utf8 (bytes : list nat) : string :=
  fold_right (fun b s => String (ascii_of_nat b) s) EmptyString bytes.

(** [!s] for a string: only the empty string is falsy. *)
Definition truthy (s : string) : bool := negb (s =? "")%string.

(** Truthiness of an optional string field ([undefined] is falsy). *)
Definition truthyOpt (o : option string) : bool :=
  match o with
  | Some s => truthy s
  | None => false
  end.

(** [a === b] where [a] may be [undefined] and [b] is a string. *)
Definition optIs (o : option string) (s : string) : bool :=
  match o with
  | Some t => (t =? s)%string
  | None => false
  end.

(** [s.includes(needle)] *)
Fixpoint includes (s needle : string) : bool :=
  String.prefix needle s ||
  match s with
  | EmptyString => false
  | String _ rest => includes rest needle
  end.

(** [s.endsWith(suffix)] *)
Definition endsWith (s suffix : string) : bool :=
  let n := String.length s in
  let k := String.length suffix in
  (k <=? n)%nat && (substring (n - k) k s =? suffix)%string.

(** White space as [String.prototype.trim] sees it (WhiteSpace and
    LineTerminator of ECMA-262), by UTF-8 encoding length. *)
Definition white1 (a : ascii) : bool :=
  let n := nat_of_ascii a in
  ((9 <=? n) && (n <=? 13) || (n =? 32))%nat.

Definition white2 (a b : ascii) : bool :=
  ((nat_of_ascii a =? 194) && (nat_of_ascii b =? 160))%nat.

Definition white3 (a b c : ascii) : bool :=
  let x := nat_of_ascii a in
  let y := nat_of_ascii b in
  let z := nat_of_ascii c in
  ((x =? 225) && (y =? 154) && (z =? 128)
   || (x =? 226) && (y =? 128)
      && ((128 <=? z) && (z <=? 138) || (z =? 168) || (z =? 169) || (z =? 175))
   || (x =? 226) && (y =? 129) && (z =? 159)
   || (x =? 227) && (y =? 128) && (z =? 128)
   || (x =? 239) && (y =? 187) && (z =? 191))%nat.

(** The encodings accepted by [white1], [white2] and [white3], one per
    code point: U+0009..U+000D, U+0020, U+00A0, U+1680, U+2000..U+200A,
    U+2028, U+2029, U+202F, U+205F, U+3000, U+FEFF. *)
Definition whiteSpace : list string :=
  map utf8
    [ [9]; [10]; [11]; [12]; [13]; [32]; [194; 160]; [225; 154; 128];
      [226; 128; 128]; [226; 128; 129]; [226; 128; 130]; [226; 128; 131];
      [226; 128; 132]; [226; 128; 133]; [226; 128; 134]; [226; 128; 135];
      [226; 128; 136]; [226; 128; 137]; [226; 128; 138]; [226; 128; 168];
      [226; 128; 169]; [226; 128; 175]; [226; 129; 159]; [227; 128; 128];
      [239; 187; 191] ]%nat.

Fixpoint trimStart (s : string) : string :=
  match s with
  | EmptyString => EmptyString
  | String a s1 =>
      if white1 a then trimStart s1
      else
        match s1 with
        | EmptyString => s
        | String b s2 =>
            if white2 a b then trimStart s2
            else
              match s2 with
              | EmptyString => s
              | String c s3 => if white3 a b c then trimStart s3 else s
              end
        end
  end.

(** The same scan over the reversed string: the bytes of a trailing code
    point arrive last byte first. *)
Fixpoint trimStartRev (r : string) : string :=
  match r with
  | EmptyString => EmptyString
  | String c r1 =>
      if white1 c then trimStartRev r1
      else
        match r1 with
        | EmptyString => r
        | String b r2 =>
            if white2 b c then trimStartRev r2
            else
              match r2 with
              | EmptyString => r
              | String a r3 => if white3 a b c then trimStartRev r3 else r
              end
        end
  end.

Definition trimEnd (s : string) : string :=
  String.rev (trimStartRev (String.rev s)).

(** [s.trim()] *)
Definition trim (s : string) : string := trimEnd (trimStart s).

(** [arr.findIndex(f)]: the first index whose element satisfies [f],
    or [-1]. *)
Fixpoint findIndex {A} (f : A -> bool) (l : list A) : Z :=
  match l with
  | [] => -1
  | x :: rest =>
      if f x then 0
      else let i := findIndex f rest in if i <? 0 then -1 else i + 1
  end.

(** [arr[i] = x] for an index produced by [findIndex]; an index outside
    the array (JavaScript would extend the array) never reaches it. *)
Definition setAt {A} (l : list A) (i : Z) (x : A) : list A :=
  <[Z.to_nat i := x]> l.

(** [arr[i] = f(arr[i])], as in [arr[i] = { ...arr[i], field: v }]. *)
Definition alterAt {A} (l : list A) (i : Z) (f : A -> A) : list A :=
  alter f (Z.to_nat i) l.

(** [arr.push(x)] *)
Definition push {A} (l : list A) (x : A) : list A := l ++ [x].

(** [arr.some(f)], [arr.find(f)], [arr.filter(f)] *)
Definition some {A} (f : A -> bool) (l : list A) : bool := existsb f l.
Definition find {A} (f : A -> bool) (l : list A) : option A := List.find f l.
Definition filter {A} (f : A -> bool) (l : list A) : list A := List.filter f l.

(** [arr.sort(cmp)]: a stable sort (ECMAScript 2019), here by insertion;
    [cmp a b > 0] means that [a] goes after [b]. *)
Fixpoint insertSorted {A} (cmp : A -> A -> Z) (x : A) (l : list A) : list A :=
  match l with
  | [] => [x]
  | y :: rest =>
      if 0 <? cmp x y then y :: insertSorted cmp x rest else x :: l
  end.

Definition sort {A} (cmp : A -> A -> Z) (l : list A) : list A :=
  fold_right (insertSorted cmp) [] l.

(** A number inside a template literal. *)
Definition showNat (n : nat) : string := pretty n.

End Js.

(** The two string operations that depend on the engine's Unicode data. *)
Class HostStrings := {
  toLowerCase : string -> string;
  localeCompare : string -> string -> Z
}.

(** What the language standard promises of [localeCompare]: a consistent
    comparison, so that [sort] is well defined. *)
Class HostStringsLaws (H : HostStrings) : Prop := {
  localeCompare_flip : forall a b, 0 < localeCompare a b <-> localeCompare b a < 0;
  localeCompare_trans :
    forall a b c, localeCompare a b <= 0 -> localeCompare b c <= 0 ->
                  localeCompare a c <= 0
}.


(** ** Data model (types/index.ts) *)

Module PromptItem.
Record t := mk {
  id : string;
  title : string;
  content : string;
  categoryId : option string;
  tags : option (list string)
}.
End PromptItem.
Abbreviation PromptItem := PromptItem.t.

Module PromptCategory.
(** [createdAt] is the instant of a [Date], in milliseconds. *)
Record t := mk {
  id : string;
  name : string;
  description : option string;
  icon : option string;
  sortOrder : option Z;
  createdAt : option Z
}.
End PromptCategory.
Abbreviation PromptCategory := PromptCategory.t.

(** [OperationResult] of the batch operations. *)
Record OperationResult := {
  success : bool;
  data : option nat;
  error : option string;
  errorCode : option string
}.

(** [SearchOptions]: the switches [searchPrompts] reads. *)
Record SearchOptions := {
  includeContent : option bool;
  includeTags : option bool
}.

(** ** The underlying key-value store and its failures *)

Inductive JsError :=
| ErrorObj (message : string)     (* [new Error(message)] raised by this code *)
| HostFailure (message : string)  (* an exception raised inside the store *)
| TypeError (message : string).   (* raised by the engine, with its message *)

Inductive Completion (A : Type) :=
| Return (a : A)
| Throw (e : JsError).
Arguments Return {A} a.
Arguments Throw {A} e.

Inductive StorageKey := PROMPTS | CATEGORIES | SETTINGS.

(** What a key of [globalState] holds: nothing, a value, or something whose
    read raises. *)
Inductive Slot (A : Type) :=
| Unset
| Stored (v : A)
| Unreadable (message : string).
Arguments Unset {A}.
Arguments Stored {A} v.
Arguments Unreadable {A} message.

Record Memento := {
  promptsSlot : Slot (list PromptItem);
  categoriesSlot : Slot (list PromptCategory);
  settingsSlot : Slot (list (string * string));
  updateFault : StorageKey -> option string
}.

(** Computations over the store that may throw. *)
Definition Repo (A : Type) : Type := Memento -> Completion A * Memento.

Definition ret {A} (a : A) : Repo A := fun m => (Return a, m).
Definition throw {A} (e : JsError) : Repo A := fun m => (Throw e, m).
Definition bind {A B} (c : Repo A) (k : A -> Repo B) : Repo B :=
  fun m =>
    match c m with
    | (Return a, m') => k a m'
    | (Throw e, m') => (Throw e, m')
    end.
(** [try { body } catch (error) { handler(error) }] *)
Definition tryCatch {A} (body : Repo A) (handler : JsError -> Repo A) : Repo A :=
  fun m =>
    match body m with
    | (Return a, m') => (Return a, m')
    | (Throw e, m') => handler e m'
    end.
(** [await Promise.all([a, b])] for two store writes: both are started, and
    the first rejection, if any, is the outcome. *)
Definition both (a b : Repo unit) : Repo unit :=
  fun m =>
    match a m with
    | (ra, m1) =>
        match b m1 with
        | (rb, m2) =>
            (match ra with
             | Throw e => Throw e
             | Return _ => rb
             end, m2)
        end
    end.

Notation "'let*' x ':=' c 'in' k" := (bind c (fun x => k))
  (at level 10, x name, c at level 100, k at level 200, only parsing).

(** [globalState.get(key, defaultValue)] *)
Definition getSlot {A} (slot : Memento -> Slot A) (defaultValue : A) : Repo A :=
  fun m =>
    match slot m with
    | Unset => (Return defaultValue, m)
    | Stored v => (Return v, m)
    | Unreadable msg => (Throw (HostFailure msg), m)
    end.

(** [globalState.update(key, value)] *)
Definition updatePrompts (value : list PromptItem) : Repo unit :=
  fun m =>
    match updateFault m PROMPTS with
    | Some msg => (Throw (HostFailure msg), m)
    | None =>
        (Return tt,
         {| promptsSlot := Stored value;
            categoriesSlot := categoriesSlot m;
            settingsSlot := settingsSlot m;
            updateFault := updateFault m |})
    end.

Definition updateCategories (value : list PromptCategory) : Repo unit :=
  fun m =>
    match updateFault m CATEGORIES with
    | Some msg => (Throw (HostFailure msg), m)
    | None =>
        (Return tt,
         {| promptsSlot := promptsSlot m;
            categoriesSlot := Stored value;
            settingsSlot := settingsSlot m;
            updateFault := updateFault m |})
    end.

Definition updateSettings (value : list (string * string)) : Repo unit :=
  fun m =>
    match updateFault m SETTINGS with
    | Some msg => (Throw (HostFailure msg), m)
    | None =>
        (Return tt,
         {| promptsSlot := promptsSlot m;
            categoriesSlot := categoriesSlot m;
            settingsSlot := Stored value;
            updateFault := updateFault m |})
    end.

(** [PromptStats], the result of [getStats]. *)
Record PromptStats := {
  totalPrompts : nat;
  totalCategories : nat;
  topCategories : list string
}.

(** [ExportData]; [exportedAt] is the instant of a [Date]. *)
Record ExportMetadata := {
  totalCount : nat;
  categoryCount : nat
}.

Record ExportData := {
  version : string;
  exportedAt : Z;
  exportedPrompts : list PromptItem;
  exportedCategories : list PromptCategory;
  metadata : option ExportMetadata
}.

(** What [importData] receives at run time.  The annotation [ExportData]
    of its parameter is not checked: [gitPull] hands over the output of
    [JSON.parse].  A field holds a list, or something a [for ... of] loop
    cannot iterate (the field is missing, say), for which the engine raises
    a TypeError with the given message. *)
Inductive Field (A : Type) :=
| Iterable (items : list A)
| NotIterable (message : string).
Arguments Iterable {A} items.
Arguments NotIterable {A} message.

Record ReceivedData := {
  receivedCategories : Field PromptCategory;
  receivedPrompts : Field PromptItem
}.

(** A well-typed [ExportData] as [importData] receives it. *)
Definition received (data : ExportData) : ReceivedData :=
  {| receivedCategories := Iterable (exportedCategories data);
     receivedPrompts := Iterable (exportedPrompts data) |}.
Coercion received : ExportData >-> ReceivedData.

(** [for (const x of xs) { await body(x) }]; the body also gets the
    position of [x], counted from [i]. *)
Fixpoint forEachAt {A} (i : nat) (xs : list A) (body : nat -> A -> Repo unit)
  : Repo unit :=
  match xs with
  | [] => ret tt
  | x :: rest => let* _ := body i x in forEachAt (S i) rest body
  end.

(** [error instanceof Error ? error.message : ...]: the exceptions of the
    store are [Error] objects too. *)
Definition errorMessage (e : JsError) : string :=
  match e with
  | ErrorObj message => message
  | HostFailure message => message
  | TypeError message => message
  end.

(** [Object.values(DEFAULT_CATEGORIES)] (constants/constants.ts), in the
    order of the keys of the object literal. *)
Module DEFAULT_CATEGORIES.

Definition category (id name description icon : string) (sortOrder : Z)
  : PromptCategory :=
  {| PromptCategory.id := id;
     PromptCategory.name := name;
     PromptCategory.description := Some description;
     PromptCategory.icon := Some icon;
     PromptCategory.sortOrder := Some sortOrder;
     PromptCategory.createdAt := None |}.

Definition METAPROMPT := category "metaprompt" "元提示词" "元提示词相关Prompt" "lightbulb" 0.
Definition PROGRAMMING := category "programming" "编程" "编程相关Prompt" "code" 1.
Definition PHILOSOPHY_TOOLS :=
  category "philosophy-tools" "哲学工具箱" "哲学工具箱相关Prompt" "search" 2.
Definition CONTENT_CREATION :=
  category "content-creation" "内容创作" "内容创作相关Prompt" "book" 3.
Definition PRODUCTIVITY := category "productivity" "生产力" "生产力相关Prompt" "tools" 4.
Definition EDUCATION := category "education" "学习教育" "学习教育相关Prompt" "mortar-board" 5.
Definition BUSINESS_ANALYSIS :=
  category "business-analysis" "商业分析" "商业分析相关Prompt" "briefcase" 6.

Definition values : list PromptCategory :=
  [ METAPROMPT; PROGRAMMING; PHILOSOPHY_TOOLS; CONTENT_CREATION; PRODUCTIVITY;
    EDUCATION; BUSINESS_ANALYSIS ].

End DEFAULT_CATEGORIES.

(** ** StorageService *)

Module StorageService.
Import PromptItem.

(** [new Date(x)] of a stored instant gives that instant back. *)
Definition newDate (instant : Z) : Z := instant.

Definition getPrompts : Repo (list PromptItem) :=
  tryCatch
    (let* stored := getSlot promptsSlot [] in
     ret (map (fun prompt => prompt) stored))
    (fun _ => ret []).

Definition getPrompt (id : string) : Repo (option PromptItem) :=
  tryCatch
    (let* prompts := getPrompts in
     ret (Js.find (fun prompt => (PromptItem.id prompt =? id)%string) prompts))
    (fun _ => ret None).

Definition savePrompt (prompt : PromptItem) : Repo unit :=
  tryCatch
    (let* prompts := getPrompts in
     let existingIndex :=
       Js.findIndex (fun p => (PromptItem.id p =? PromptItem.id prompt)%string) prompts in
     let prompts :=
       if 0 <=? existingIndex
       then Js.setAt prompts existingIndex prompt
       else Js.push prompts prompt in
     updatePrompts prompts)
    (fun error => throw error).

Definition promptNotFound (id : string) : JsError :=
  ErrorObj ("未找到ID为 " ++ id ++ " 的Prompt").

Definition clearCategory (prompt : PromptItem) : PromptItem :=
  {| id := PromptItem.id prompt;
     title := title prompt;
     content := content prompt;
     categoryId := None;
     tags := tags prompt |}.

Definition deletePrompt (id : string) : Repo unit :=
  tryCatch
    (let* prompts := getPrompts in
     let promptIndex :=
       Js.findIndex (fun prompt => (PromptItem.id prompt =? id)%string) prompts in
     if promptIndex =? -1
     then throw (promptNotFound id)
     else updatePrompts (Js.alterAt prompts promptIndex clearCategory))
    (fun error => throw error).

Definition getCategories : Repo (list PromptCategory) :=
  tryCatch
    (let* stored := getSlot categoriesSlot [] in
     ret (map (fun category =>
                 {| PromptCategory.id := PromptCategory.id category;
                    PromptCategory.name := PromptCategory.name category;
                    PromptCategory.description := PromptCategory.description category;
                    PromptCategory.icon := PromptCategory.icon category;
                    PromptCategory.sortOrder := PromptCategory.sortOrder category;
                    PromptCategory.createdAt :=
                      match PromptCategory.createdAt category with
                      | Some instant => Some (newDate instant)
                      | None => None
                      end |})
              stored))
    (fun _ => ret []).

(** The record [saveCategory] appends: [createdAt || new Date()] and
    [sortOrder ?? categories.length]. *)
Definition withDefaults (category : PromptCategory) (now : Z) (len : nat)
  : PromptCategory :=
  {| PromptCategory.id := PromptCategory.id category;
     PromptCategory.name := PromptCategory.name category;
     PromptCategory.description := PromptCategory.description category;
     PromptCategory.icon := PromptCategory.icon category;
     PromptCategory.sortOrder :=
       match PromptCategory.sortOrder category with
       | Some w => Some w
       | None => Some (Z.of_nat len)
       end;
     PromptCategory.createdAt :=
       match PromptCategory.createdAt category with
       | Some instant => Some instant
       | None => Some now
       end |}.

(** [now] is what [new Date()] gives during the call. *)
Definition saveCategory (now : Z) (category : PromptCategory) : Repo unit :=
  tryCatch
    (let* categories := getCategories in
     let existingIndex :=
       Js.findIndex
         (fun c => (PromptCategory.id c =? PromptCategory.id category)%string)
         categories in
     let categories :=
       if 0 <=? existingIndex
       then Js.setAt categories existingIndex category
       else Js.push categories (withDefaults category now (length categories)) in
     updateCategories categories)
    (fun error => throw error).

Definition categoryNotFound (id : string) : JsError :=
  ErrorObj ("未找到ID为 " ++ id ++ " 的分类").

Definition deleteCategory (id : string) : Repo unit :=
  tryCatch
    (let* categories := getCategories in
     let filteredCategories :=
       Js.filter (fun category => negb (PromptCategory.id category =? id)%string)
         categories in
     if (length filteredCategories =? length categories)%nat
     then throw (categoryNotFound id)
     else
       let* prompts := getPrompts in
       let updatedPrompts :=
         map (fun prompt =>
                if Js.optIs (categoryId prompt) id
                then clearCategory prompt
                else prompt)
             prompts in
       both (updateCategories filteredCategories) (updatePrompts updatedPrompts))
    (fun error => throw error).

Definition updateCategory (category : PromptCategory) : Repo unit :=
  tryCatch
    (let* categories := getCategories in
     let existingIndex :=
       Js.findIndex
         (fun c => (PromptCategory.id c =? PromptCategory.id category)%string)
         categories in
     if existingIndex <? 0
     then throw (categoryNotFound (PromptCategory.id category))
     else updateCategories (Js.setAt categories existingIndex category))
    (fun error => throw error).

Definition clearAll : Repo unit :=
  tryCatch
    (both (updatePrompts []) (both (updateCategories []) (updateSettings [])))
    (fun error => throw error).

Definition batchSaveFailed : OperationResult :=
  {| success := false;
     data := None;
     error := Some "批量保存失败";
     errorCode := Some "BATCH_SAVE_FAILED" |}.

Definition batchSaved (count : nat) : OperationResult :=
  {| success := true; data := Some count; error := None; errorCode := None |}.

(** One turn of the merge loop of [savePrompts]. *)
Definition mergePrompt (mergedPrompts : list PromptItem) (prompt : PromptItem)
  : list PromptItem :=
  let existingIndex :=
    Js.findIndex (fun p => (PromptItem.id p =? PromptItem.id prompt)%string)
      mergedPrompts in
  if 0 <=? existingIndex
  then Js.setAt mergedPrompts existingIndex prompt
  else Js.push mergedPrompts prompt.

Definition savePrompts (prompts : list PromptItem) : Repo OperationResult :=
  tryCatch
    (let* existingPrompts := getPrompts in
     let mergedPrompts := fold_left mergePrompt prompts existingPrompts in
     let* _ := updatePrompts mergedPrompts in
     ret (batchSaved (length prompts)))
    (fun _ => ret batchSaveFailed).

Definition mergeCategory (now : Z) (mergedCategories : list PromptCategory)
  (category : PromptCategory) : list PromptCategory :=
  let existingIndex :=
    Js.findIndex
      (fun c => (PromptCategory.id c =? PromptCategory.id category)%string)
      mergedCategories in
  if 0 <=? existingIndex
  then Js.setAt mergedCategories existingIndex category
  else Js.push mergedCategories
         (withDefaults category now (length mergedCategories)).

(** The merge loop of [saveCategories]: [clock i] is what [new Date()]
    gives in the turn of the i-th category. *)
Fixpoint mergeCategories (clock : nat -> Z) (i : nat) (categories : list PromptCategory)
  (mergedCategories : list PromptCategory) : list PromptCategory :=
  match categories with
  | [] => mergedCategories
  | category :: rest =>
      mergeCategories clock (S i) rest (mergeCategory (clock i) mergedCategories category)
  end.

Definition saveCategories (clock : nat -> Z) (categories : list PromptCategory)
  : Repo OperationResult :=
  tryCatch
    (let* existingCategories := getCategories in
     let mergedCategories := mergeCategories clock 0 categories existingCategories in
     let* _ := updateCategories mergedCategories in
     ret (batchSaved (length categories)))
    (fun _ => ret batchSaveFailed).

(** [updatePrompt]: the same as [savePrompt]. *)
Definition updatePrompt (prompt : PromptItem) : Repo unit := savePrompt prompt.

(** A [Map<string, number>]: the entries in the order their keys were first
    set. *)
Fixpoint mapGet (key : string) (entries : list (string * nat)) : option nat :=
  match entries with
  | [] => None
  | (k, v) :: rest => if (k =? key)%string then Some v else mapGet key rest
  end.

Fixpoint mapSet (key : string) (value : nat) (entries : list (string * nat))
  : list (string * nat) :=
  match entries with
  | [] => [(key, value)]
  | (k, v) :: rest =>
      if (k =? key)%string then (k, value) :: rest
      else (k, v) :: mapSet key value rest
  end.

(** One turn of the [forEach] of [getStats]. *)
Definition countCategory (categoryCount : list (string * nat)) (prompt : PromptItem)
  : list (string * nat) :=
  match PromptItem.categoryId prompt with
  | Some categoryId =>
      if Js.truthy categoryId
      then
        let current :=
          match mapGet categoryId categoryCount with
          | Some n => n
          | None => 0%nat
          end in
        mapSet categoryId (current + 1)%nat categoryCount
      else categoryCount
  | None => categoryCount
  end.

(** [(a, b) => b[1] - a[1]] *)
Definition byCountDescending (a b : string * nat) : Z :=
  Z.of_nat (snd b) - Z.of_nat (snd a).

Definition getStats : Repo PromptStats :=
  tryCatch
    (let* prompts := getPrompts in
     let* categories := getCategories in
     let categoryCount := fold_left countCategory prompts [] in
     let topCategories :=
       map fst (take 5 (Js.sort byCountDescending categoryCount)) in
     ret {| totalPrompts := length prompts;
            totalCategories := length categories;
            topCategories := topCategories |})
    (fun _ => ret {| totalPrompts := 0; totalCategories := 0; topCategories := [] |}).

(** [initialize]: [initialized] is the flag of the service object, the
    result its new value; [DEFAULT_PROMPTS] is the compiled-in prompt list
    and [clock i] the instant the i-th [saveCategory] of the call reads. *)
Definition initialize (DEFAULT_PROMPTS : list PromptItem) (clock : nat -> Z)
  (initialized : bool) : Repo bool :=
  if initialized then ret initialized
  else
    tryCatch
      (let* existingPrompts := getPrompts in
       let* existingCategories := getCategories in
       let* _ :=
         if (length existingPrompts =? 0)%nat
         then
           forEachAt 0 DEFAULT_PROMPTS
             (fun _ prompt =>
                let promptItem :=
                  {| id := PromptItem.id prompt;
                     title := title prompt;
                     content := content prompt;
                     categoryId := categoryId prompt;
                     tags := match tags prompt with
                             | Some tags => Some tags
                             | None => None
                             end |} in
                savePrompt promptItem)
         else ret tt in
       let* _ :=
         if (length existingCategories =? 0)%nat
         then
           forEachAt 0 DEFAULT_CATEGORIES.values
             (fun i category => saveCategory (clock i) category)
         else ret tt in
       ret true)
      (fun error => throw error).


End StorageService.

(** ** Constants (constants/constants.ts) *)

Module COMMANDS.
Definition SEND_TO_CHAT_FROM_TREE : string := "prompt-manager.sendToChatFromTree".
Definition VIEW_GUIDE_FROM_TREE : string := "prompt-manager.viewGuideFromTree".
End COMMANDS.

Module TREE_ICONS.
Definition CATEGORY : string := "folder".
Definition PROMPT : string := "file".
End TREE_ICONS.

Module TREE_SPECIAL_CATEGORIES.
Definition UNCATEGORIZED : string := "__uncategorized__".
End TREE_SPECIAL_CATEGORIES.

(** [TREE_CONTEXT_VALUES]: the tag of a tree node. *)
Inductive ContextValue := PROMPT_ITEM | CATEGORY_ITEM | GUIDE_ITEM.

Definition ContextValue_eqb (a b : ContextValue) : bool :=
  match a, b with
  | PROMPT_ITEM, PROMPT_ITEM | CATEGORY_ITEM, CATEGORY_ITEM
  | GUIDE_ITEM, GUIDE_ITEM => true
  | _, _ => false
  end.

Inductive TreeItemCollapsibleState := NoChildren | Collapsed | Expanded.

(** The argument object of a node's click command. *)
Inductive CommandArgument :=
| PromptArgument (promptData : PromptItem)
| GuideArgument (guideData : PromptItem) (categoryId : string).

Record Command := {
  command : string;
  commandTitle : string;
  arguments : list CommandArgument
}.

(** ** Tree nodes *)

Module TreePromptItem.
Record t := mk {
  id : string;
  label : string;
  description : option string;
  contextValue : ContextValue;
  iconPath : string;
  collapsibleState : TreeItemCollapsibleState;
  command : option Command;
  promptData : option PromptItem;
  categoryData : option PromptCategory;
  guideData : option PromptItem;
  categoryId : option string;
  parentId : option string;
  sortOrder : option Z
}.
End TreePromptItem.
Abbreviation TreePromptItem := TreePromptItem.t.

(** ** Timers of the event loop

    Time is counted in milliseconds.  A timer callback is one of the two
    closures the provider passes to [setTimeout]. *)

Inductive TimerAction :=
| FireChange                          (* [this._onDidChangeTreeData.fire()] *)
| ApplyFilter (filter : option string). (* [this.searchFilter = filter; this.refresh()] *)

Record Timer := {
  handle : nat;
  due : nat;
  action : TimerAction
}.

(** ** PromptTreeDataProvider *)

Record Provider := {
  treeData : list TreePromptItem;
  searchFilter : option string;
  searchTimeout : option nat;
  refreshTimeout : option nat
}.

Module PromptTreeDataProvider.
Import StorageService.

(** The provider a constructor call leaves. *)
Definition new : Provider :=
  {| treeData := []; searchFilter := None;
     searchTimeout := None; refreshTimeout := None |}.

Definition setTreeData (self : Provider) (items : list TreePromptItem) : Provider :=
  {| treeData := items;
     searchFilter := searchFilter self;
     searchTimeout := searchTimeout self;
     refreshTimeout := refreshTimeout self |}.

Definition createUncategorizedCategory (promptCount : nat) : TreePromptItem :=
  {| TreePromptItem.id := TREE_SPECIAL_CATEGORIES.UNCATEGORIZED;
     TreePromptItem.label := "未分类 (" ++ Js.showNat promptCount ++ ")";
     TreePromptItem.description := Some "";
     TreePromptItem.contextValue := CATEGORY_ITEM;
     TreePromptItem.iconPath := TREE_ICONS.CATEGORY;
     TreePromptItem.collapsibleState := Collapsed;
     TreePromptItem.command := None;
     TreePromptItem.promptData := None;
     TreePromptItem.categoryData :=
       Some {| PromptCategory.id := TREE_SPECIAL_CATEGORIES.UNCATEGORIZED;
               PromptCategory.name := "未分类";
               PromptCategory.description := Some "未分类的Prompt";
               PromptCategory.icon := Some TREE_ICONS.CATEGORY;
               PromptCategory.sortOrder := Some 999;
               PromptCategory.createdAt := None |};
     TreePromptItem.guideData := None;
     TreePromptItem.categoryId := None;
     TreePromptItem.parentId := None;
     TreePromptItem.sortOrder := None |}.

Definition createCategoryItem (category : PromptCategory) (promptCount : nat)
  : TreePromptItem :=
  let icon :=
    match PromptCategory.icon category with
    | Some i => if Js.truthy i then i else TREE_ICONS.CATEGORY
    | None => TREE_ICONS.CATEGORY
    end in
  {| TreePromptItem.id := PromptCategory.id category;
     TreePromptItem.label :=
       PromptCategory.name category ++ " (" ++ Js.showNat promptCount ++ ")";
     TreePromptItem.description := PromptCategory.description category;
     TreePromptItem.contextValue := CATEGORY_ITEM;
     TreePromptItem.iconPath := icon;
     TreePromptItem.collapsibleState := Collapsed;
     TreePromptItem.command := None;
     TreePromptItem.promptData := None;
     TreePromptItem.categoryData := Some category;
     TreePromptItem.guideData := None;
     TreePromptItem.categoryId := None;
     TreePromptItem.parentId := None;
     TreePromptItem.sortOrder := PromptCategory.sortOrder category |}.

Definition createPromptItem (prompt : PromptItem) (parentId : option string)
  : TreePromptItem :=
  {| TreePromptItem.id := PromptItem.id prompt;
     TreePromptItem.label := PromptItem.title prompt;
     TreePromptItem.description := None;
     TreePromptItem.contextValue := PROMPT_ITEM;
     TreePromptItem.iconPath := TREE_ICONS.PROMPT;
     TreePromptItem.collapsibleState := NoChildren;
     TreePromptItem.command :=
       Some {| command := COMMANDS.SEND_TO_CHAT_FROM_TREE;
               commandTitle := "发送到Chat";
               arguments := [PromptArgument prompt] |};
     TreePromptItem.promptData := Some prompt;
     TreePromptItem.categoryData := None;
     TreePromptItem.guideData := None;
     TreePromptItem.categoryId := None;
     TreePromptItem.parentId := parentId;
     TreePromptItem.sortOrder := None |}.

(** The test of [createGuideItem]'s [find]. *)
Definition isGuideOf (categoryId : string) (p : PromptItem) : bool :=
  Js.optIs (PromptItem.categoryId p) categoryId
  && (Js.endsWith (PromptItem.id p) "-guide"
      || Js.includes (PromptItem.title p) "说明书").

Definition guideItemFor (categoryId : string) (guidePrompt : PromptItem)
  : TreePromptItem :=
  {| TreePromptItem.id := "guide-" ++ categoryId;
     TreePromptItem.label := "📖 说明书";
     TreePromptItem.description := None;
     TreePromptItem.contextValue := GUIDE_ITEM;
     TreePromptItem.iconPath := "book";
     TreePromptItem.collapsibleState := NoChildren;
     TreePromptItem.command :=
       Some {| command := COMMANDS.VIEW_GUIDE_FROM_TREE;
               commandTitle := "查看说明书";
               arguments := [GuideArgument guidePrompt categoryId] |};
     TreePromptItem.promptData := None;
     TreePromptItem.categoryData := None;
     TreePromptItem.guideData := Some guidePrompt;
     TreePromptItem.categoryId := Some categoryId;
     TreePromptItem.parentId := Some categoryId;
     TreePromptItem.sortOrder := None |}.

Definition createGuideItem (categoryId : string) (categoryData : option PromptCategory)
  : Repo (option TreePromptItem) :=
  tryCatch
    (let* prompts := getPrompts in
     let guidePrompt := Js.find (isGuideOf categoryId) prompts in
     match guidePrompt with
     | None => ret None
     | Some guidePrompt => ret (Some (guideItemFor categoryId guidePrompt))
     end)
    (fun _ => ret None).

Definition getCategoryPromptCount (categoryId : string)
  (prompts : option (list PromptItem)) : Repo nat :=
  tryCatch
    (let* prompts :=
       match prompts with
       | Some prompts => ret prompts
       | None => getPrompts
       end in
     ret (length (Js.filter (fun p => Js.optIs (PromptItem.categoryId p) categoryId)
                    prompts)))
    (fun _ => ret 0%nat).

(** [!p.categoryId || !categories.some((c) => c.id === p.categoryId)] *)
Definition isUncategorized (categories : list PromptCategory) (p : PromptItem) : bool :=
  negb (Js.truthyOpt (PromptItem.categoryId p))
  || negb (Js.some (fun c => Js.optIs (PromptItem.categoryId p) (PromptCategory.id c))
             categories).

(** A [for (const x of xs) { ... }] loop whose body awaits. *)
Fixpoint forOf {A S} (xs : list A) (body : S -> A -> Repo S) (acc : S) : Repo S :=
  match xs with
  | [] => ret acc
  | x :: rest => let* acc := body acc x in forOf rest body acc
  end.

Section WithHost.
Context {host : HostStrings}.

(** The comparison passed to [matchedPrompts.sort]. *)
Definition byRelevance (searchTerm : string) (a b : PromptItem) : Z :=
  let aInTitle := Js.includes (toLowerCase (PromptItem.title a)) searchTerm in
  let bInTitle := Js.includes (toLowerCase (PromptItem.title b)) searchTerm in
  if negb (Bool.eqb aInTitle bInTitle)
  then (if aInTitle then -1 else 1)
  else localeCompare (PromptItem.title a) (PromptItem.title b).

(** The three-way test of the first loop of [getSearchResults]. *)
Definition isMatch (searchTerm : string) (prompt : PromptItem) : bool :=
  if Js.includes (toLowerCase (PromptItem.title prompt)) searchTerm then true
  else if
    match PromptItem.tags prompt with
    | Some tags => Js.some (fun tag => Js.includes (toLowerCase tag) searchTerm) tags
    | None => false
    end
  then true
  else if Js.includes (toLowerCase (PromptItem.content prompt)) searchTerm then true
  else false.

(** The loop that adds every prompt of a matched category unless a
    prompt with that id is already among the matches. *)
Definition addCategoryPrompts (prompts : list PromptItem)
  (matchedPrompts : list PromptItem) (categoryId : string) : list PromptItem :=
  let categoryPrompts :=
    Js.filter (fun p => Js.optIs (PromptItem.categoryId p) categoryId) prompts in
  fold_left
    (fun matchedPrompts prompt =>
       if negb (Js.some (fun mp => (PromptItem.id mp =? PromptItem.id prompt)%string)
                  matchedPrompts)
       then Js.push matchedPrompts prompt
       else matchedPrompts)
    categoryPrompts matchedPrompts.

Definition getSearchResults (self : Provider) : Repo (list TreePromptItem) :=
  tryCatch
    (match searchFilter self with
     | None => ret []
     | Some filter =>
         if negb (Js.truthy filter) then ret []
         else
           let* prompts := getPrompts in
           let* categories := getCategories in
           let searchTerm := Js.trim (toLowerCase filter) in
           let matchedPrompts :=
             fold_left
               (fun matchedPrompts prompt =>
                  if isMatch searchTerm prompt
                  then Js.push matchedPrompts prompt
                  else matchedPrompts)
               prompts [] in
           let matchedCategoryIds :=
             fold_left
               (fun ids category =>
                  if Js.includes (toLowerCase (PromptCategory.name category)) searchTerm
                  then Js.push ids (PromptCategory.id category)
                  else ids)
               categories [] in
           let matchedPrompts :=
             fold_left (addCategoryPrompts prompts) matchedCategoryIds matchedPrompts in
           let matchedPrompts := Js.sort (byRelevance searchTerm) matchedPrompts in
           let searchResults :=
             fold_left
               (fun searchResults prompt =>
                  Js.push searchResults (createPromptItem prompt None))
               matchedPrompts [] in
           ret searchResults
     end)
    (fun _ => ret []).

(** [this.searchFilter && this.searchFilter.trim()] *)
Definition filterActive (self : Provider) : bool :=
  match searchFilter self with
  | Some filter => Js.truthy filter && Js.truthy (Js.trim filter)
  | None => false
  end.

Definition getRootItems (self : Provider) : Repo (list TreePromptItem * Provider) :=
  tryCatch
    (if filterActive self
     then let* results := getSearchResults self in ret (results, self)
     else
       let* prompts := getPrompts in
       let* categories := getCategories in
       let* rootItems :=
         forOf categories
           (fun rootItems category =>
              let* categoryPromptCount :=
                getCategoryPromptCount (PromptCategory.id category) (Some prompts) in
              ret (Js.push rootItems (createCategoryItem category categoryPromptCount)))
           [] in
       let uncategorizedPrompts := Js.filter (isUncategorized categories) prompts in
       let rootItems :=
         if (0 <? length uncategorizedPrompts)%nat
         then Js.push rootItems
                (createUncategorizedCategory (length uncategorizedPrompts))
         else rootItems in
       ret (rootItems, setTreeData self rootItems))
    (fun _ => ret ([], self)).

End WithHost.

Definition getChildItems (element : TreePromptItem) : Repo (list TreePromptItem) :=
  tryCatch
    (let* prompts := getPrompts in
     if ContextValue_eqb (TreePromptItem.contextValue element) CATEGORY_ITEM
     then
       let* categoryPrompts :=
         if (TreePromptItem.id element =? TREE_SPECIAL_CATEGORIES.UNCATEGORIZED)%string
         then
           let* categories := getCategories in
           ret (Js.filter (isUncategorized categories) prompts)
         else
           ret (Js.filter
                  (fun p => Js.optIs (PromptItem.categoryId p) (TreePromptItem.id element))
                  prompts) in
       let* childItems :=
         if negb (TreePromptItem.id element =? TREE_SPECIAL_CATEGORIES.UNCATEGORIZED)%string
         then
           let* guideItem :=
             createGuideItem (TreePromptItem.id element)
               (TreePromptItem.categoryData element) in
           match guideItem with
           | Some guideItem => ret (Js.push [] guideItem)
           | None => ret []
           end
         else ret [] in
       let nonGuidePrompts :=
         Js.filter
           (fun p => negb (PromptItem.id p =? TreePromptItem.id element ++ "-guide")%string)
           categoryPrompts in
       let promptItems :=
         map (fun p => createPromptItem p (Some (TreePromptItem.id element)))
           nonGuidePrompts in
       ret (childItems ++ promptItems)%list
     else ret [])
    (fun _ => ret []).

(** [findItemById]: the first cached root node with the id. *)
Definition findItemById (self : Provider) (id : string) : option TreePromptItem :=
  Js.find (fun item => (TreePromptItem.id item =? id)%string) (treeData self).

(** [getParent] *)
Definition getParent (self : Provider) (element : TreePromptItem)
  : option TreePromptItem :=
  match TreePromptItem.parentId element with
  | Some parentId =>
      if Js.truthy parentId then findItemById self parentId else None
  | None => None
  end.

(** [getSearchFilter] *)
Definition getSearchFilter (self : Provider) : option string := searchFilter self.

(** The test of the [find] of [findPromptTreeItem]. *)
Definition isLeafOf (promptId : string) (child : TreePromptItem) : bool :=
  ContextValue_eqb (TreePromptItem.contextValue child) PROMPT_ITEM
  && match TreePromptItem.promptData child with
     | Some p => (PromptItem.id p =? promptId)%string
     | None => false
     end.

(** The loop of [findPromptTreeItem] over the cached root nodes; it returns
    from inside the loop at the first hit. *)
Fixpoint findInCategories (promptId : string) (items : list TreePromptItem)
  : Repo (option TreePromptItem) :=
  match items with
  | [] => ret None
  | categoryItem :: rest =>
      if ContextValue_eqb (TreePromptItem.contextValue categoryItem) CATEGORY_ITEM
      then
        let* children := getChildItems categoryItem in
        let found := Js.find (isLeafOf promptId) children in
        match found with
        | Some found => ret (Some found)
        | None => findInCategories promptId rest
        end
      else findInCategories promptId rest
  end.

Definition findPromptTreeItem {host : HostStrings} (self : Provider) (promptId : string)
  : Repo (option TreePromptItem * Provider) :=
  let* refreshed := getRootItems self in
  let self := snd refreshed in
  let* found := findInCategories promptId (treeData self) in
  ret (found, self).

(** [getChildren] *)
Definition getChildren {host : HostStrings} (self : Provider)
  (element : option TreePromptItem) : Repo (list TreePromptItem * Provider) :=
  match element with
  | None => getRootItems self
  | Some element => let* items := getChildItems element in ret (items, self)
  end.

End PromptTreeDataProvider.

(** ** The event loop: [setTimeout], [clearTimeout] and the passing of time *)

Record World := {
  now : nat;                 (* current instant *)
  nextHandle : nat;          (* the handle the next [setTimeout] returns *)
  pending : list Timer;      (* timers set and neither fired nor cleared *)
  self : Provider;
  notifications : list nat   (* instants at which the change event fired *)
}.

Module EventLoop.

Definition setPending (w : World) (timers : list Timer) : World :=
  {| now := now w; nextHandle := nextHandle w; pending := timers;
     self := self w; notifications := notifications w |}.

Definition setSelf (w : World) (p : Provider) : World :=
  {| now := now w; nextHandle := nextHandle w; pending := pending w;
     self := p; notifications := notifications w |}.

Definition setNow (w : World) (instant : nat) : World :=
  {| now := instant; nextHandle := nextHandle w; pending := pending w;
     self := self w; notifications := notifications w |}.

(** [setTimeout(callback, delay)] *)
Definition setTimeout (callback : TimerAction) (delay : nat) (w : World)
  : nat * World :=
  (nextHandle w,
   {| now := now w;
      nextHandle := S (nextHandle w);
      pending := pending w ++ [{| handle := nextHandle w;
                                  due := (now w + delay)%nat;
                                  action := callback |}];
      self := self w;
      notifications := notifications w |}).

(** [clearTimeout(h)]: no effect on a timer that has fired already. *)
Definition clearTimeout (h : nat) (w : World) : World :=
  setPending w (List.filter (fun t => negb (handle t =? h)%nat) (pending w)).

(** [refresh()] *)
Definition refresh (w : World) : World :=
  let w :=
    match refreshTimeout (self w) with
    | Some h => clearTimeout h w
    | None => w
    end in
  let '(h, w) := setTimeout FireChange 100 w in
  setSelf w {| treeData := treeData (self w);
               searchFilter := searchFilter (self w);
               searchTimeout := searchTimeout (self w);
               refreshTimeout := Some h |}.

(** [setSearchFilter(filter)] *)
Definition setSearchFilter (filter : option string) (w : World) : World :=
  let w :=
    match searchTimeout (self w) with
    | Some h => clearTimeout h w
    | None => w
    end in
  let '(h, w) := setTimeout (ApplyFilter filter) 300 w in
  setSelf w {| treeData := treeData (self w);
               searchFilter := searchFilter (self w);
               searchTimeout := Some h;
               refreshTimeout := refreshTimeout (self w) |}.

(** Running a timer callback. *)
Definition runCallback (callback : TimerAction) (w : World) : World :=
  match callback with
  | FireChange =>
      {| now := now w; nextHandle := nextHandle w; pending := pending w;
         self := self w;
         notifications := notifications w ++ [now w] |}
  | ApplyFilter filter =>
      refresh
        (setSelf w {| treeData := treeData (self w);
                      searchFilter := filter;
                      searchTimeout := searchTimeout (self w);
                      refreshTimeout := refreshTimeout (self w) |})
  end.

(** The timer that is due first; among equals, the one set first. *)
Fixpoint earliest (timers : list Timer) : option Timer :=
  match timers with
  | [] => None
  | t :: rest =>
      match earliest rest with
      | Some u => if (due u <? due t)%nat then Some u else Some t
      | None => Some t
      end
  end.

Definition nextDue (target : nat) (timers : list Timer) : option Timer :=
  match earliest timers with
  | Some t => if (due t <=? target)%nat then Some t else None
  | None => None
  end.

(** The loop takes a due timer off the list and runs its callback at the
    timer's instant. *)
Definition fire (t : Timer) (w : World) : World :=
  runCallback (action t)
    (setNow (clearTimeout (handle t) w) (Nat.max (now w) (due t))).

Fixpoint run (fuel : nat) (target : nat) (w : World) : World :=
  match fuel with
  | O => w
  | S fuel =>
      match nextDue target (pending w) with
      | Some t => run fuel target (fire t w)
      | None => w
      end
  end.

(** A bound on the callbacks that can still run: a filter callback sets
    one refresh timer, a refresh callback sets none. *)
Definition weight (timers : list Timer) : nat :=
  fold_right
    (fun t n =>
       match action t with
       | FireChange => S n
       | ApplyFilter _ => S (S n)
       end)
    O timers.

(** Let time pass until [target]: every timer due by then fires, in order. *)
Definition advanceTo (target : nat) (w : World) : World :=
  let w := run (weight (pending w)) target w in
  setNow w (Nat.max (now w) target).

Definition wait (delay : nat) (w : World) : World :=
  advanceTo (now w + delay)%nat w.

(** The calls a client makes on the provider. *)
Inductive Call :=
| Refresh
| SetSearchFilter (filter : option string).

Definition perform (c : Call) (w : World) : World :=
  match c with
  | Refresh => refresh w
  | SetSearchFilter filter => setSearchFilter filter w
  end.

(** A client session: before each call, the given delay passes. *)
Fixpoint play (session : list (nat * Call)) (w : World) : World :=
  match session with
  | [] => w
  | (delay, c) :: rest => play rest (perform c (wait delay w))
  end.

(** A provider just constructed, at instant [t0]. *)
Definition boot (t0 : nat) : World :=
  {| now := t0; nextHandle := O; pending := [];
     self := PromptTreeDataProvider.new; notifications := [] |}.

(** [n] further [refresh()] calls, each after the given gap. *)
Definition refreshCalls (gaps : list nat) : list (nat * Call) :=
  map (fun gap => (gap, Refresh)) gaps.

(** The instants of the calls of [refreshCalls gaps] when the first
    [refresh()] happens at [t]. *)
Fixpoint callInstants (t : nat) (gaps : list nat) : list nat :=
  match gaps with
  | [] => [t]
  | gap :: rest => t :: callInstants (t + gap)%nat rest
  end.

End EventLoop.

(** ** PromptManager.searchPrompts *)

Module PromptManager.
Import StorageService.

Section WithHost.
Context {host : HostStrings}.

(** [options?.field !== false] *)
Definition notFalse (options : option SearchOptions)
  (field : SearchOptions -> option bool) : bool :=
  match options with
  | Some o => match field o with Some false => false | _ => true end
  | None => true
  end.

Definition isMatch (options : option SearchOptions) (searchTerm : string)
  (prompt : PromptItem) : bool :=
  if Js.includes (toLowerCase (PromptItem.title prompt)) searchTerm then true
  else if notFalse options includeContent
          && Js.includes (toLowerCase (PromptItem.content prompt)) searchTerm
  then true
  else if notFalse options includeTags
          && match PromptItem.tags prompt with
             | Some tags =>
                 Js.some (fun tag => Js.includes (toLowerCase tag) searchTerm) tags
             | None => false
             end
  then true
  else false.

Definition categoryMatches (searchTerm : string) (category : PromptCategory) : bool :=
  Js.includes (toLowerCase (PromptCategory.name category)) searchTerm
  || match PromptCategory.description category with
     | Some d => Js.includes (toLowerCase d) searchTerm
     | None => false
     end.

Definition searchPrompts (keyword : string) (options : option SearchOptions)
  : Repo (list PromptItem) :=
  tryCatch
    (let* allPrompts := getPrompts in
     let* categories := getCategories in
     if negb (Js.truthy keyword) || (Js.trim keyword =? "")%string
     then ret allPrompts
     else
       let searchTerm := Js.trim (toLowerCase keyword) in
       let matchedPrompts :=
         fold_left
           (fun matchedPrompts prompt =>
              if isMatch options searchTerm prompt
              then Js.push matchedPrompts prompt
              else matchedPrompts)
           allPrompts [] in
       let matchedCategoryIds :=
         fold_left
           (fun ids category =>
              if categoryMatches searchTerm category
              then Js.push ids (PromptCategory.id category)
              else ids)
           categories [] in
       let matchedPrompts :=
         fold_left (PromptTreeDataProvider.addCategoryPrompts allPrompts)
           matchedCategoryIds matchedPrompts in
       ret matchedPrompts)
    (fun _ => ret []).

(** [searchWithCategories]: each hit with the name of its category. *)
Definition categoryNameOf (categories : list PromptCategory) (prompt : PromptItem)
  : string :=
  match Js.find (fun c => Js.optIs (PromptItem.categoryId prompt) (PromptCategory.id c))
          categories with
  | Some category => PromptCategory.name category
  | None => "未分类"
  end.

Definition searchWithCategories (keyword : string) (options : option SearchOptions)
  : Repo (list (PromptItem * string)) :=
  tryCatch
    (let* searchResults := searchPrompts keyword options in
     let* categories := getCategories in
     ret (map (fun prompt => (prompt, categoryNameOf categories prompt)) searchResults))
    (fun _ => ret []).

End WithHost.

(** [getPromptsByCategory] *)
Definition getPromptsByCategory (categoryId : string) : Repo (list PromptItem) :=
  tryCatch
    (let* allPrompts := getPrompts in
     let filtered :=
       Js.filter (fun prompt => Js.optIs (PromptItem.categoryId prompt) categoryId)
         allPrompts in
     ret filtered)
    (fun _ => ret []).

(** [exportData]; [now] is what [new Date()] gives during the call. *)
Definition exportData (now : Z) : Repo ExportData :=
  tryCatch
    (let* prompts := getPrompts in
     let* categories := getCategories in
     let exportData :=
       {| version := "1.0.0";
          exportedAt := now;
          exportedPrompts := prompts;
          exportedCategories := categories;
          metadata := Some {| totalCount := length prompts;
                              categoryCount := length categories |} |} in
     ret exportData)
    (fun error => throw (ErrorObj ("导出数据失败: " ++ errorMessage error))).

(** [for (const x of field) { await body(x) }] over a field of the object
    received: a value that cannot be iterated makes the loop raise. *)
Definition forEachOf {A} (field : Field A) (body : nat -> A -> Repo unit) : Repo unit :=
  match field with
  | Iterable items => forEachAt 0 items body
  | NotIterable message => throw (TypeError message)
  end.

(** [performImport]: a save that throws is logged and skipped.  [clock i]
    is the instant the [saveCategory] of the i-th category reads. *)
Definition performImport (clock : nat -> Z) (importData : ReceivedData) : Repo unit :=
  tryCatch
    (let* _ :=
       forEachOf (receivedCategories importData)
         (fun i category =>
            tryCatch (saveCategory (clock i) category) (fun _ => ret tt)) in
     forEachOf (receivedPrompts importData)
       (fun _ prompt => tryCatch (savePrompt prompt) (fun _ => ret tt)))
    (fun error => throw error).

(** [importData] *)
Definition importData (clock : nat -> Z) (data : ReceivedData) : Repo unit :=
  tryCatch
    (performImport clock data)
    (fun error => throw (ErrorObj ("导入数据失败: " ++ errorMessage error))).

End PromptManager.

(** ** A concrete host for running the code on examples

    Lower-casing of the ASCII letters and comparison of the bytes. *)

Module AsciiHost.

Definition lowerAscii (a : ascii) : ascii :=
  let n := nat_of_ascii a in
  if ((65 <=? n) && (n <=? 90))%nat then ascii_of_nat (n + 32) else a.

Fixpoint lower (s : string) : string :=
  match s with
  | EmptyString => EmptyString
  | String a rest => String (lowerAscii a) (lower rest)
  end.

Definition compareBytes (a b : string) : Z :=
  match String_as_OT.cmp a b with
  | Lt => -1
  | Eq => 0
  | Gt => 1
  end.

#[export] Instance host : HostStrings :=
  {| toLowerCase := lower; localeCompare := compareBytes |}.

End AsciiHost.

(** ** What the repository holds, as its readers see it *)

(** The prompts [getPrompts] returns: the stored array, or none when the
    key is unset or cannot be read. *)
Definition promptsOf (m : Memento) : list PromptItem :=
  match promptsSlot m with
  | Stored v => v
  | Unset | Unreadable _ => []
  end.

Definition categoriesOf (m : Memento) : list PromptCategory :=
  match categoriesSlot m with
  | Stored v => v
  | Unset | Unreadable _ => []
  end.

Definition promptIds (m : Memento) : list string := map PromptItem.id (promptsOf m).
Definition categoryIds (m : Memento) : list string :=
  map PromptCategory.id (categoriesOf m).

(** All stored ids are pairwise distinct. *)
Definition DistinctIds (m : Memento) : Prop :=
  List.NoDup (promptIds m) /\ List.NoDup (categoryIds m).

(** The store after a successful write of the prompts, of the categories. *)
Definition withPrompts (m : Memento) (value : list PromptItem) : Memento :=
  {| promptsSlot := Stored value;
     categoriesSlot := categoriesSlot m;
     settingsSlot := settingsSlot m;
     updateFault := updateFault m |}.

Definition withCategories (m : Memento) (value : list PromptCategory) : Memento :=
  {| promptsSlot := promptsSlot m;
     categoriesSlot := Stored value;
     settingsSlot := settingsSlot m;
     updateFault := updateFault m |}.


(** The prompts [deleteCategory] writes back. *)
Definition detach (id : string) (prompts : list PromptItem) : list PromptItem :=
  map (fun prompt =>
         if Js.optIs (PromptItem.categoryId prompt) id
         then StorageService.clearCategory prompt
         else prompt)
      prompts.

Definition withoutCategory (id : string) (categories : list PromptCategory)
  : list PromptCategory :=
  Js.filter (fun category => negb (PromptCategory.id category =? id)%string) categories.

(** How [deleteCategory] relates a prompt before and after. *)
Definition Detached (id : string) (before after : PromptItem) : Prop :=
  (PromptItem.categoryId before = Some id /\
   after = StorageService.clearCategory before)
  \/ (PromptItem.categoryId before <> Some id /\ after = before).


(** What a soft delete does to a record: only [categoryId] changes, to
    absent. *)
Definition SoftDeleted (before after : PromptItem) : Prop :=
  PromptItem.id after = PromptItem.id before /\
  PromptItem.title after = PromptItem.title before /\
  PromptItem.content after = PromptItem.content before /\
  PromptItem.tags after = PromptItem.tags before /\
  PromptItem.categoryId after = None.

(** A computation that returns whatever the store does. *)
Definition NeverThrows {A} (c : Repo A) : Prop :=
  forall m, exists a m', c m = (Return a, m').

(** ** The scenario of the specification: one category, two prompts *)

Module Example.

Definition programming : PromptCategory :=
  {| PromptCategory.id := "programming";
     PromptCategory.name := "编程";
     PromptCategory.description := Some "编程相关Prompt";
     PromptCategory.icon := Some "code";
     PromptCategory.sortOrder := Some 1;
     PromptCategory.createdAt := None |}.

Definition p1 : PromptItem :=
  {| PromptItem.id := "p1"; PromptItem.title := "Sort";
     PromptItem.content := "Sort the list"; 
     PromptItem.categoryId := Some "programming"; PromptItem.tags := None |}.

Definition p2 : PromptItem :=
  {| PromptItem.id := "p2"; PromptItem.title := "Loose";
     PromptItem.content := "No category";
     PromptItem.categoryId := None; PromptItem.tags := None |}.

Definition healthy : StorageKey -> option string := fun _ => None.

Definition store : Memento :=
  {| promptsSlot := Stored [p1; p2];
     categoriesSlot := Stored [programming];
     settingsSlot := Unset;
     updateFault := healthy |}.

(** The same data in a store that refuses every write. *)
Definition readOnly : Memento :=
  {| promptsSlot := Stored [p1; p2];
     categoriesSlot := Stored [programming];
     settingsSlot := Unset;
     updateFault := fun _ => Some "EROFS" |}.

End Example.

(** The step shared by [savePrompt], [saveCategory] and the batch merges:
    replace the first record with the key of [x], or append [x']. *)
Definition upsert {A} (key : A -> string) (l : list A) (x x' : A) : list A :=
  let existingIndex := Js.findIndex (fun y => (key y =? key x)%string) l in
  if 0 <=? existingIndex then Js.setAt l existingIndex x else Js.push l x'.

(** ** The root projection in the words of the specification *)

(** A prompt counts for a category when its [categoryId] is that id. *)
Definition RefersTo (categoryId : string) (p : PromptItem) : Prop :=
  PromptItem.categoryId p = Some categoryId.

(** The uncategorized prompts as the specification describes them: the
    [categoryId] is absent or matches no existing category id. *)
Definition Dangling (categories : list PromptCategory) (p : PromptItem) : Prop :=
  PromptItem.categoryId p = None
  \/ Forall (fun c => PromptItem.categoryId p <> Some (PromptCategory.id c)) categories.

(** The uncategorized prompts as the code selects them: an empty
    [categoryId] counts as absent. *)
Definition Unresolved (categories : list PromptCategory) (p : PromptItem) : Prop :=
  PromptItem.categoryId p = None
  \/ PromptItem.categoryId p = Some ""
  \/ Forall (fun c => PromptItem.categoryId p <> Some (PromptCategory.id c)) categories.

#[export] Instance RefersTo_dec categoryId p : Decision (RefersTo categoryId p).
Proof. unfold RefersTo. apply _. Defined.

#[export] Instance Dangling_dec categories p : Decision (Dangling categories p).
Proof. unfold Dangling. apply _. Defined.

#[export] Instance Unresolved_dec categories p : Decision (Unresolved categories p).
Proof. unfold Unresolved. apply _. Defined.

(** One node per category, in order, labelled with its prompt count, then
    one uncategorized node exactly when [orphans] is not empty. *)
Definition rootLayout (orphans prompts : list PromptItem)
  (categories : list PromptCategory) (items : list TreePromptItem) : Prop :=
  items =
    (map (fun c =>
            PromptTreeDataProvider.createCategoryItem c
              (length (filter (RefersTo (PromptCategory.id c)) prompts)))
         categories
     ++ match orphans with
        | [] => []
        | _ :: _ =>
            [PromptTreeDataProvider.createUncategorizedCategory (length orphans)]
        end)%list.

(** The nodes of the hierarchical projection of a store. *)
Definition rootNodes (m : Memento) : list TreePromptItem :=
  (map (fun c =>
          PromptTreeDataProvider.createCategoryItem c
            (length (filter (RefersTo (PromptCategory.id c)) (promptsOf m))))
       (categoriesOf m)
   ++ match filter (Unresolved (categoriesOf m)) (promptsOf m) with
      | [] => []
      | p :: rest =>
          [PromptTreeDataProvider.createUncategorizedCategory (length (p :: rest))]
      end)%list.

(** A category whose id is the empty string, and a prompt filed under it. *)
Module BlankId.

Definition nameless : PromptCategory :=
  {| PromptCategory.id := "";
     PromptCategory.name := "Inbox";
     PromptCategory.description := None;
     PromptCategory.icon := None;
     PromptCategory.sortOrder := Some 0;
     PromptCategory.createdAt := None |}.

Definition filed : PromptItem :=
  {| PromptItem.id := "p1"; PromptItem.title := "Sort";
     PromptItem.content := "Sort the list";
     PromptItem.categoryId := Some ""; PromptItem.tags := None |}.

Definition store : Memento :=
  {| promptsSlot := Stored [filed];
     categoriesSlot := Stored [nameless];
     settingsSlot := Unset;
     updateFault := Example.healthy |}.

End BlankId.

(** A category whose guide is recognised by its title only. *)
Module GuideByTitle.

Definition guide : PromptItem :=
  {| PromptItem.id := "p7"; PromptItem.title := "编程说明书";
     PromptItem.content := "How to use the prompts of this category";
     PromptItem.categoryId := Some "programming"; PromptItem.tags := None |}.

Definition store : Memento :=
  {| promptsSlot := Stored [guide; Example.p1];
     categoriesSlot := Stored [Example.programming];
     settingsSlot := Unset;
     updateFault := Example.healthy |}.

Definition node : TreePromptItem :=
  PromptTreeDataProvider.createCategoryItem Example.programming 2.

End GuideByTitle.

(** ** Blank keywords *)

(** A string made of white space only. *)
Inductive Blank : string -> Prop :=
| Blank_empty : Blank ""
| Blank_white w s : In w Js.whiteSpace -> Blank s -> Blank (w ++ s).

(** ** The search filter in the words of the specification *)

Section SearchSpec.
Context {host : HostStrings}.

(** The lower-cased title contains the term. *)
Definition TitleHit (term : string) (p : PromptItem) : Prop :=
  Js.includes (toLowerCase (PromptItem.title p)) term = true.

Definition ContentHit (term : string) (p : PromptItem) : Prop :=
  Js.includes (toLowerCase (PromptItem.content p)) term = true.

Definition TagHit (term : string) (p : PromptItem) : Prop :=
  exists tags tag,
    PromptItem.tags p = Some tags /\ In tag tags /\
    Js.includes (toLowerCase tag) term = true.

(** The prompt belongs to a category whose lower-cased name contains the
    term. *)
Definition CategoryHit (term : string) (categories : list PromptCategory)
  (p : PromptItem) : Prop :=
  exists c,
    In c categories /\
    Js.includes (toLowerCase (PromptCategory.name c)) term = true /\
    PromptItem.categoryId p = Some (PromptCategory.id c).

Definition Matches (term : string) (categories : list PromptCategory)
  (p : PromptItem) : Prop :=
  TitleHit term p \/ ContentHit term p \/ TagHit term p
  \/ CategoryHit term categories p.

(** [a] may stand before [b] in the result: a title match before a prompt
    that is none; within a tier, by [localeCompare] of the titles. *)
Definition Ranked (term : string) (a b : PromptItem) : Prop :=
  (TitleHit term a /\ ~ TitleHit term b)
  \/ ((TitleHit term a <-> TitleHit term b)
      /\ localeCompare (PromptItem.title a) (PromptItem.title b) <= 0).

End SearchSpec.

(** What the loops of the search maintain: the matches are stored prompts,
    each once. *)
Definition Selection (prompts acc : list PromptItem) : Prop :=
  (forall p, In p acc -> In p prompts) /\ List.NoDup (map PromptItem.id acc).

(** The ranking example of the specification, stored tag match first. *)
Module Ranking.

Definition refactorHelper : PromptItem :=
  {| PromptItem.id := "r1"; PromptItem.title := "Refactor helper";
     PromptItem.content := "Split the function";
     PromptItem.categoryId := None; PromptItem.tags := None |}.

Definition helperNote : PromptItem :=
  {| PromptItem.id := "r2"; PromptItem.title := "Helper note";
     PromptItem.content := "Remember the helper";
     PromptItem.categoryId := None; PromptItem.tags := Some ["refactor"] |}.

Definition store : Memento :=
  {| promptsSlot := Stored [helperNote; refactorHelper];
     categoriesSlot := Stored [];
     settingsSlot := Unset;
     updateFault := Example.healthy |}.

Definition searching : Provider :=
  {| treeData := []; searchFilter := Some "Refactor";
     searchTimeout := None; refreshTimeout := None |}.

End Ranking.

(** ** Invariants of the timer list *)

Definition isFilterTimer (t : Timer) : Prop := exists f, action t = ApplyFilter f.

(** Handles are unique and below the next one to be issued, and the only
    filter timer that can be pending is the one [searchTimeout] holds. *)
Definition WellFormed (w : World) : Prop :=
  List.NoDup (map handle (pending w))
  /\ (forall t, In t (pending w) -> (handle t < nextHandle w)%nat)
  /\ (forall t, In t (pending w) -> isFilterTimer t ->
                searchTimeout (self w) = Some (handle t)).

(** The filter is cleared, or a pending timer due by [deadline] will clear
    it; no pending timer sets another filter. *)
Definition Clearing (deadline : nat) (w : World) : Prop :=
  (forall t f, In t (pending w) -> action t = ApplyFilter f ->
               f = None /\ (due t <= deadline)%nat)
  /\ (searchFilter (self w) = None
      \/ exists t, In t (pending w) /\ action t = ApplyFilter None).

(** Exactly one timer is pending: the refresh timer, due at [deadline]. *)
Definition OneRefresh (deadline : nat) (w : World) : Prop :=
  exists h,
    pending w = [{| handle := h; due := deadline; action := FireChange |}]
    /\ refreshTimeout (self w) = Some h.

(** A session: a filter is set and applied, the tree is refreshed, and
    another filter is typed but not yet applied. *)
Module Session.

Definition calls : list (nat * EventLoop.Call) :=
  [ (0, EventLoop.SetSearchFilter (Some "sort"));
    (400, EventLoop.Refresh);
    (50, EventLoop.SetSearchFilter (Some "so")) ]%nat.

Definition beforeClearing : World :=
  EventLoop.wait 10 (EventLoop.play calls (EventLoop.boot 0)).

End Session.

(** ** Statistics in plain words *)

(** The number of stored prompts filed under a category id. *)
Definition referenceCount (m : Memento) (categoryId : string) : nat :=
  length (filter (RefersTo categoryId) (promptsOf m)).

(** Some stored prompt names the id, and the id is not the empty string. *)
Definition Referenced (m : Memento) (categoryId : string) : Prop :=
  categoryId <> "" /\ exists p, In p (promptsOf m) /\ RefersTo categoryId p.

(** A store whose prompts name categories with different frequencies, one
    of them a category that does not exist. *)
Module Tally.

Definition filed (id categoryId : string) : PromptItem :=
  {| PromptItem.id := id; PromptItem.title := id; PromptItem.content := "";
     PromptItem.categoryId := Some categoryId; PromptItem.tags := None |}.

Definition store : Memento :=
  {| promptsSlot :=
       Stored [ filed "a" "education"; filed "b" "programming"; filed "c" "gone";
                filed "d" "programming"; filed "e" ""; Example.p2 ];
     categoriesSlot := Stored [Example.programming];
     settingsSlot := Unset;
     updateFault := Example.healthy |}.

End Tally.

(** The store after a loop whose turns all return: [step i x] is the effect
    of the turn for [x], the i-th element. *)
Fixpoint foldAt {A} (i : nat) (xs : list A) (step : nat -> A -> Memento -> Memento)
  (m : Memento) : Memento :=
  match xs with
  | [] => m
  | x :: rest => foldAt (S i) rest step (step i x m)
  end.

(** The categories a run of [saveCategory] calls leaves, the i-th call
    reading the instant [clock i]. *)
Fixpoint mergeCategoriesAt (clock : nat -> Z) (i : nat) (cs acc : list PromptCategory)
  : list PromptCategory :=
  match cs with
  | [] => acc
  | c :: rest =>
      mergeCategoriesAt clock (S i) rest
        (upsert PromptCategory.id acc c
           (StorageService.withDefaults c (clock i) (length acc)))
  end.

(** No write is refused. *)
Definition Writable (m : Memento) : Prop := forall key, updateFault m key = None.

(** The default categories as [initialize] stores them in an empty
    repository: each with the instant of its own save. *)
Definition seededCategories (clock : nat -> Z) : list PromptCategory :=
  imap (fun i c => StorageService.withDefaults c (clock i) i) DEFAULT_CATEGORIES.values.

(** A store that holds nothing yet, and one whose prompts cannot be read. *)
Module Fresh.

Definition store : Memento :=
  {| promptsSlot := Unset; categoriesSlot := Unset; settingsSlot := Unset;
     updateFault := Example.healthy |}.

Definition corrupt : Memento :=
  {| promptsSlot := Unreadable "SyntaxError"; categoriesSlot := Unset;
     settingsSlot := Unset; updateFault := Example.healthy |}.

Definition clock (i : nat) : Z := 1700000000000 + Z.of_nat i.

End Fresh.

(** ** Children of a root node in plain words *)

(** The prompt leaves [getChildItems] makes of a list of prompts under the
    node [parent]: every prompt but the one whose id is the parent's id
    followed by "-guide". *)
Definition leavesUnder (parent : string) (prompts : list PromptItem)
  : list TreePromptItem :=
  map (fun p => PromptTreeDataProvider.createPromptItem p (Some parent))
    (List.filter (fun p => negb (PromptItem.id p =? parent ++ "-guide")%string) prompts).

(** The children of a node. *)
Definition childrenOf (m : Memento) (element : TreePromptItem) : list TreePromptItem :=
  if ContextValue_eqb (TreePromptItem.contextValue element) CATEGORY_ITEM
  then
    if (TreePromptItem.id element =? TREE_SPECIAL_CATEGORIES.UNCATEGORIZED)%string
    then
      leavesUnder (TreePromptItem.id element)
        (List.filter (PromptTreeDataProvider.isUncategorized (categoriesOf m))
           (promptsOf m))
    else
      (match List.find (PromptTreeDataProvider.isGuideOf (TreePromptItem.id element))
               (promptsOf m) with
       | Some guide =>
           [PromptTreeDataProvider.guideItemFor (TreePromptItem.id element) guide]
       | None => []
       end
       ++ leavesUnder (TreePromptItem.id element)
            (List.filter
               (fun p => Js.optIs (PromptItem.categoryId p) (TreePromptItem.id element))
               (promptsOf m)))%list
  else [].

(** What holds of every child of a node: its parent is the node, and it
    shows a stored prompt. *)
Definition ChildOf (m : Memento) (element child : TreePromptItem) : Prop :=
  TreePromptItem.parentId child = Some (TreePromptItem.id element)
  /\ exists p,
       In p (promptsOf m)
       /\ ((TreePromptItem.contextValue child = PROMPT_ITEM
            /\ TreePromptItem.promptData child = Some p
            /\ TreePromptItem.id child = PromptItem.id p)
           \/ (TreePromptItem.contextValue child = GUIDE_ITEM
               /\ TreePromptItem.guideData child = Some p
               /\ PromptItem.categoryId p = Some (TreePromptItem.id element))).

(** A provider on which a search is set and which has not shown the
    hierarchy yet. *)
Module Searching.

Definition provider : Provider :=
  {| treeData := []; searchFilter := Some "sort";
     searchTimeout := None; refreshTimeout := None |}.

End Searching.

(** ** Typing into the search box *)

(** Exactly one timer is pending: the filter timer, due at [deadline], that
    is to apply [filter]. *)
Definition OneSearch (deadline : nat) (filter : option string) (w : World) : Prop :=
  exists h,
    pending w = [{| handle := h; due := deadline; action := ApplyFilter filter |}]
    /\ searchTimeout (self w) = Some h.

(** Further [setSearchFilter] calls, each after the given gap. *)
Definition filterCalls (typed : list (nat * option string))
  : list (nat * EventLoop.Call) :=
  map (fun call => (fst call, EventLoop.SetSearchFilter (snd call))) typed.

(** Every pending filter timer is to apply [filter] at [deadline]; and the
    filter is [filter] already, or such a timer is pending. *)
Definition Settling (filter : option string) (deadline : nat) (w : World) : Prop :=
  (forall t f, In t (pending w) -> action t = ApplyFilter f ->
               f = filter /\ due t = deadline)
  /\ (searchFilter (self w) = filter
      \/ exists t, In t (pending w) /\ action t = ApplyFilter filter).

(** A provider that fails every write to the categories. *)
Module HalfBroken.

Definition store : Memento :=
  {| promptsSlot := Stored [Example.p1; Example.p2];
     categoriesSlot := Stored [Example.programming];
     settingsSlot := Unset;
     updateFault := fun key => match key with CATEGORIES => Some "EIO" | _ => None end |}.

(** The same data when the prompts cannot be written. *)
Definition promptsLocked : Memento :=
  {| promptsSlot := Stored [Example.p1; Example.p2];
     categoriesSlot := Stored [Example.programming];
     settingsSlot := Unset;
     updateFault := fun key => match key with PROMPTS => Some "EIO" | _ => None end |}.

End HalfBroken.

(** ** The manager's search in plain words *)

Section ManagerSearchSpec.
Context {host : HostStrings}.

(** A prompt is a hit of [searchPrompts] for the term by itself: the title
    contains the term, or the content does and the content is searched, or
    a tag does and the tags are searched. *)
Definition DirectHit (options : option SearchOptions) (term : string) (p : PromptItem)
  : Prop :=
  Js.includes (toLowerCase (PromptItem.title p)) term = true
  \/ (PromptManager.notFalse options includeContent = true
      /\ Js.includes (toLowerCase (PromptItem.content p)) term = true)
  \/ (PromptManager.notFalse options includeTags = true
      /\ exists tags tag,
           PromptItem.tags p = Some tags /\ In tag tags
           /\ Js.includes (toLowerCase tag) term = true).

(** The prompt is filed under a category whose name or description
    contains the term. *)
Definition FiledUnderHit (term : string) (categories : list PromptCategory)
  (p : PromptItem) : Prop :=
  exists c,
    In c categories
    /\ PromptItem.categoryId p = Some (PromptCategory.id c)
    /\ (Js.includes (toLowerCase (PromptCategory.name c)) term = true
        \/ exists d, PromptCategory.description c = Some d
                     /\ Js.includes (toLowerCase d) term = true).

End ManagerSearchSpec.

(** Every category carries a sort order and a creation date. *)
Definition Complete (c : PromptCategory) : Prop :=
  PromptCategory.sortOrder c <> None /\ PromptCategory.createdAt c <> None.

(** The categories of an import into an empty repository: what is missing
    is filled in from the position and the instant of the save. *)
Definition importedCategories (clock : nat -> Z) (categories : list PromptCategory)
  : list PromptCategory :=
  imap (fun i c => StorageService.withDefaults c (clock i) i) categories.

(** A category exported without sort order and creation date. *)
Module Bare.

Definition notes : PromptCategory :=
  {| PromptCategory.id := "notes";
     PromptCategory.name := "Notes";
     PromptCategory.description := Some "Sorting tricks";
     PromptCategory.icon := None;
     PromptCategory.sortOrder := None;
     PromptCategory.createdAt := None |}.

Definition filed : PromptItem :=
  {| PromptItem.id := "n1"; PromptItem.title := "Quick"; PromptItem.content := "qs";
     PromptItem.categoryId := Some "notes"; PromptItem.tags := Some ["algo"] |}.

Definition store : Memento :=
  {| promptsSlot := Stored [Example.p1; filed; Example.p2];
     categoriesSlot := Stored [Example.programming; notes];
     settingsSlot := Unset;
     updateFault := Example.healthy |}.

Definition titlesOnly : SearchOptions :=
  {| includeContent := Some false; includeTags := Some false |}.

End Bare.

(** ** The tree after a change of the store *)

(** The uncategorized node for a number of uncategorized prompts: none when
    there is no such prompt. *)
Definition uncategorizedNodes (count : nat) : list TreePromptItem :=
  match count with
  | O => []
  | S _ => [PromptTreeDataProvider.createUncategorizedCategory count]
  end.

(** ** The localised default prompts (constants/constants.ts) *)

(** A [Map] with string keys: its entries, in the order their keys were
    first set. *)
Module JsMap.

Fixpoint has {V} (key : string) (entries : list (string * V)) : bool :=
  match entries with
  | [] => false
  | (k, _) :: rest => (k =? key)%string || has key rest
  end.

Fixpoint set {V} (key : string) (value : V) (entries : list (string * V))
  : list (string * V) :=
  match entries with
  | [] => [(key, value)]
  | (k, v) :: rest =>
      if (k =? key)%string then (k, value) :: rest
      else (k, v) :: set key value rest
  end.

Definition values {V} (entries : list (string * V)) : list V := map snd entries.

End JsMap.

(** [x || y] on strings. *)
Definition orElse (x y : string) : string := if Js.truthy x then x else y.

(** The localised copy of a default prompt: [t] is the translation
    function, which returns the empty string where it has no text. *)
Definition localized (t : string -> string) (prompt : PromptItem) : PromptItem :=
  {| PromptItem.id := PromptItem.id prompt;
     PromptItem.title :=
       orElse (t ("prompt." ++ PromptItem.id prompt ++ ".title")) (PromptItem.title prompt);
     PromptItem.content :=
       orElse (t ("prompt." ++ PromptItem.id prompt ++ ".content"))
         (PromptItem.content prompt);
     PromptItem.categoryId := PromptItem.categoryId prompt;
     PromptItem.tags :=
       Some match PromptItem.tags prompt with
            | Some tags => map (fun tag => orElse (t ("tag." ++ tag)) tag) tags
            | None => []
            end |}.

(** [getLocalizedDefaultPrompts(t)]; [defaultPrompts] is the compiled-in
    list, in which the explicitly imported prompts follow the scanned
    ones. *)
Definition getLocalizedDefaultPrompts (defaultPrompts : list PromptItem)
  (t : string -> string) : list PromptItem :=
  let uniquePrompts :=
    fold_left
      (fun uniquePrompts prompt =>
         if negb (JsMap.has (PromptItem.id prompt) uniquePrompts)
         then JsMap.set (PromptItem.id prompt) prompt uniquePrompts
         else uniquePrompts)
      defaultPrompts [] in
  let localizedPrompts := map (localized t) (JsMap.values uniquePrompts) in
  localizedPrompts.

(** What the loop over the default prompts maintains: the map holds, under
    their ids and in their order, the first prompts of each id seen so
    far. *)
Definition FirstOfEachId (seen : list PromptItem) (entries : list (string * PromptItem))
  : Prop :=
  map fst entries = map PromptItem.id (map snd entries)
  /\ List.NoDup (map fst entries)
  /\ sublist (map snd entries) seen
  /\ (forall p, In p (map snd entries) ->
                List.find (fun q => (PromptItem.id q =? PromptItem.id p)%string) seen
                = Some p)
  /\ (forall q, In q seen -> In (PromptItem.id q) (map fst entries)).

(** A translation that knows one title only, and default prompts in which
    an id comes twice. *)
Module Localised.

Definition t (key : string) : string :=
  if (key =? "prompt.p1.title")%string then "Sortieren" else "".

Definition p1' : PromptItem :=
  {| PromptItem.id := "p1"; PromptItem.title := "Sort again";
     PromptItem.content := "Later copy";
     PromptItem.categoryId := None; PromptItem.tags := Some ["dup"] |}.

Definition defaults : list PromptItem := [Example.p1; Example.p2; p1'].

End Localised.

(** An object parsed from a file that lacks its prompts. *)
Module Truncated.

Definition data : ReceivedData :=
  {| receivedCategories := Iterable [Bare.notes];
     receivedPrompts := NotIterable "importData.prompts is not iterable" |}.

End Truncated.
(** ** Lemmas on the JavaScript primitives *)

Lemma findIndex_lower {A} (f : A -> bool) l : -1 <= Js.findIndex f l.
Proof.
  induction l as [|x l IH]; simpl; [lia|].
  destruct (f x); [lia|].
  destruct (Js.findIndex f l <? 0) eqn:E; lia.
Qed.

Lemma findIndex_absent {A} (f : A -> bool) l :
  Js.findIndex f l < 0 <-> (forall x, In x l -> f x = false).
Proof.
  induction l as [|x l IH]; simpl.
  - split; [intros _ y []|lia].
  - destruct (f x) eqn:Fx.
    + split; [lia|]. intros H. specialize (H x (or_introl eq_refl)). congruence.
    + destruct (Js.findIndex f l <? 0) eqn:E.
      * apply Z.ltb_lt in E. split; [|lia].
        intros _ y [<-|Hy]; [exact Fx|]. now apply IH.
      * apply Z.ltb_ge in E. split; [lia|].
        intros H. assert (Js.findIndex f l < 0); [|lia].
        apply IH. intros y Hy. apply H. now right.
Qed.

Lemma findIndex_found {A} (f : A -> bool) l :
  0 <= Js.findIndex f l ->
  exists l1 x l2,
    l = (l1 ++ x :: l2)%list /\ f x = true /\
    (forall y, In y l1 -> f y = false) /\
    Js.findIndex f l = Z.of_nat (length l1).
Proof.
  induction l as [|x l IH]; simpl; [lia|].
  destruct (f x) eqn:Fx.
  - intros _. exists [], x, l. repeat split; auto. intros y [].
  - destruct (Js.findIndex f l <? 0) eqn:E; [lia|].
    apply Z.ltb_ge in E. intros _.
    destruct (IH E) as (l1 & y & l2 & -> & Fy & Hl1 & Hi).
    exists (x :: l1), y, l2. repeat split; auto.
    + intros z [<-|Hz]; auto.
    + rewrite Hi. simpl length. lia.
Qed.

Lemma setAt_middle {A} (l1 l2 : list A) x y :
  Js.setAt (l1 ++ x :: l2)%list (Z.of_nat (length l1)) y = (l1 ++ y :: l2)%list.
Proof.
  unfold Js.setAt. rewrite Nat2Z.id.
  induction l1 as [|a l1 IH]; simpl; [reflexivity|].
  f_equal. exact IH.
Qed.

Lemma alterAt_middle {A} (l1 l2 : list A) x (f : A -> A) :
  Js.alterAt (l1 ++ x :: l2)%list (Z.of_nat (length l1)) f = (l1 ++ f x :: l2)%list.
Proof.
  unfold Js.alterAt. rewrite Nat2Z.id.
  induction l1 as [|a l1 IH]; simpl; [reflexivity|].
  f_equal. exact IH.
Qed.

Lemma optIs_true o s : Js.optIs o s = true <-> o = Some s.
Proof.
  destruct o as [t|]; simpl.
  - rewrite String.eqb_eq. split; congruence.
  - split; congruence.
Qed.

Lemma optIs_false o s : Js.optIs o s = false <-> o <> Some s.
Proof.
  rewrite <- optIs_true. destruct (Js.optIs o s); split; congruence.
Qed.

Lemma truthy_false s : Js.truthy s = false <-> s = "".
Proof.
  unfold Js.truthy. rewrite negb_false_iff. apply String.eqb_eq.
Qed.

(** ** The readers of the repository never throw *)

Lemma map_id_prompts (l : list PromptItem) : map (fun prompt => prompt) l = l.
Proof. apply map_id. Qed.

Lemma getPrompts_run m :
  StorageService.getPrompts m = (Return (promptsOf m), m).
Proof.
  unfold StorageService.getPrompts, tryCatch, bind, getSlot, ret, promptsOf.
  destruct (promptsSlot m); simpl; try reflexivity.
  now rewrite map_id_prompts.
Qed.

Lemma normalise_categories (l : list PromptCategory) :
  map (fun category =>
         {| PromptCategory.id := PromptCategory.id category;
            PromptCategory.name := PromptCategory.name category;
            PromptCategory.description := PromptCategory.description category;
            PromptCategory.icon := PromptCategory.icon category;
            PromptCategory.sortOrder := PromptCategory.sortOrder category;
            PromptCategory.createdAt :=
              match PromptCategory.createdAt category with
              | Some instant => Some (StorageService.newDate instant)
              | None => None
              end |}) l = l.
Proof.
  induction l as [|c l IH]; simpl; [reflexivity|].
  rewrite IH. f_equal. destruct c as [i n d ic so [t|]]; reflexivity.
Qed.

Lemma getCategories_run m :
  StorageService.getCategories m = (Return (categoriesOf m), m).
Proof.
  unfold StorageService.getCategories, tryCatch, bind, getSlot, ret, categoriesOf.
  destruct (categoriesSlot m); simpl; try reflexivity.
  now rewrite normalise_categories.
Qed.

(** ** Running the mutators *)

Lemma tryCatch_rethrow {A} (body : Repo A) m :
  tryCatch body (fun error => throw error) m = body m.
Proof.
  unfold tryCatch, throw. destruct (body m) as [[a|e] m']; reflexivity.
Qed.

Lemma bind_getPrompts {B} (k : list PromptItem -> Repo B) m :
  bind StorageService.getPrompts k m = k (promptsOf m) m.
Proof. unfold bind. now rewrite getPrompts_run. Qed.

Lemma bind_getCategories {B} (k : list PromptCategory -> Repo B) m :
  bind StorageService.getCategories k m = k (categoriesOf m) m.
Proof. unfold bind. now rewrite getCategories_run. Qed.

Ltac run_repo :=
  repeat (rewrite ?tryCatch_rethrow, ?bind_getPrompts, ?bind_getCategories; cbv zeta).

Lemma updatePrompts_ok m value :
  updateFault m PROMPTS = None ->
  updatePrompts value m = (Return tt, withPrompts m value).
Proof. intros H. unfold updatePrompts. now rewrite H. Qed.

Lemma updatePrompts_fault m value msg :
  updateFault m PROMPTS = Some msg ->
  updatePrompts value m = (Throw (HostFailure msg), m).
Proof. intros H. unfold updatePrompts. now rewrite H. Qed.

Lemma updateCategories_ok m value :
  updateFault m CATEGORIES = None ->
  updateCategories value m = (Return tt, withCategories m value).
Proof. intros H. unfold updateCategories. now rewrite H. Qed.

Lemma updateCategories_fault m value msg :
  updateFault m CATEGORIES = Some msg ->
  updateCategories value m = (Throw (HostFailure msg), m).
Proof. intros H. unfold updateCategories. now rewrite H. Qed.

Lemma filter_length_same {A} (f : A -> bool) l :
  length (List.filter f l) = length l <-> (forall x, In x l -> f x = true).
Proof.
  induction l as [|x l IH]; simpl.
  - split; [intros _ y []|reflexivity].
  - pose proof (filter_length_le f l) as Hle.
    destruct (f x) eqn:Fx; simpl.
    + split.
      * intros H y [<-|Hy]; [exact Fx|]. apply IH; [lia|exact Hy].
      * intros H. f_equal. apply IH. intros y Hy. apply H. now right.
    + split; [lia|]. intros H. specialize (H x (or_introl eq_refl)). congruence.
Qed.

Lemma deleteCategory_run id m :
  StorageService.deleteCategory id m =
  if (length (withoutCategory id (categoriesOf m)) =? length (categoriesOf m))%nat
  then (Throw (StorageService.categoryNotFound id), m)
  else both (updateCategories (withoutCategory id (categoriesOf m)))
            (updatePrompts (detach id (promptsOf m))) m.
Proof.
  unfold StorageService.deleteCategory. run_repo.
  fold (withoutCategory id (categoriesOf m)).
  destruct (_ =? _)%nat; [reflexivity|].
  now run_repo.
Qed.

Lemma withoutCategory_all id categories :
  length (withoutCategory id categories) = length categories <->
  (forall c, In c categories -> PromptCategory.id c <> id).
Proof.
  unfold withoutCategory, Js.filter. rewrite filter_length_same.
  split; intros H c Hc; specialize (H c Hc).
  - apply negb_true_iff in H. now apply String.eqb_neq.
  - apply negb_true_iff. now apply String.eqb_neq.
Qed.

Lemma withoutCategory_In id categories c :
  In c (withoutCategory id categories) <->
  In c categories /\ PromptCategory.id c <> id.
Proof.
  unfold withoutCategory, Js.filter. rewrite filter_In.
  rewrite negb_true_iff, String.eqb_neq. reflexivity.
Qed.

Lemma detach_clears id prompts p :
  In p (detach id prompts) -> PromptItem.categoryId p <> Some id.
Proof.
  unfold detach. rewrite in_map_iff. intros (q & <- & _).
  destruct (Js.optIs (PromptItem.categoryId q) id) eqn:E.
  - simpl. discriminate.
  - now apply optIs_false.
Qed.

Lemma detach_pointwise id prompts :
  Forall2 (Detached id) prompts (detach id prompts).
Proof.
  induction prompts as [|p l IH]; simpl; constructor; [|exact IH].
  unfold Detached. destruct (Js.optIs (PromptItem.categoryId p) id) eqn:E.
  - left. split; [now apply optIs_true|reflexivity].
  - right. split; [now apply optIs_false|reflexivity].
Qed.



(** ** Soft delete of a prompt *)

Lemma deletePrompt_run id m :
  StorageService.deletePrompt id m =
  let promptIndex :=
    Js.findIndex (fun prompt => (PromptItem.id prompt =? id)%string) (promptsOf m) in
  if promptIndex =? -1
  then (Throw (StorageService.promptNotFound id), m)
  else updatePrompts
         (Js.alterAt (promptsOf m) promptIndex StorageService.clearCategory) m.
Proof.
  unfold StorageService.deletePrompt. run_repo.
  destruct (_ =? -1); reflexivity.
Qed.

Lemma clearCategory_soft p : SoftDeleted p (StorageService.clearCategory p).
Proof. unfold SoftDeleted. simpl. auto. Qed.

Lemma findIndex_id_absent id prompts :
  Js.findIndex (fun prompt => (PromptItem.id prompt =? id)%string) prompts = -1 <->
  (forall p, In p prompts -> PromptItem.id p <> id).
Proof.
  pose proof (findIndex_lower (fun prompt => (PromptItem.id prompt =? id)%string) prompts).
  pose proof (findIndex_absent (fun prompt => (PromptItem.id prompt =? id)%string) prompts)
    as [H1 H2].
  split.
  - intros E p Hp. apply String.eqb_neq. apply H1; [lia|exact Hp].
  - intros E. assert (Js.findIndex (fun prompt => (PromptItem.id prompt =? id)%string) prompts < 0); [|lia].
    apply H2. intros p Hp. apply String.eqb_neq. now apply E.
Qed.

(** C5. [deletePrompt(id)] throws the not-found error exactly when no stored
    prompt has the id.  When one has, the first record with the id is
    replaced by a copy whose [categoryId] is absent and whose id, title,
    content and tags are as before; the records around it are untouched and
    none is removed.  (A store that refuses the write makes the call throw
    the store's own exception and leaves the data as it was.) *)
Theorem deletePrompt_soft_delete (id : string) (m : Memento) :
  (fst (StorageService.deletePrompt id m) = Throw (StorageService.promptNotFound id)
   <-> forall p, In p (promptsOf m) -> PromptItem.id p <> id)
  /\
  ((exists p, In p (promptsOf m) /\ PromptItem.id p = id) ->
   exists before target target' after,
     promptsOf m = (before ++ target :: after)%list /\
     PromptItem.id target = id /\
     (forall q, In q before -> PromptItem.id q <> id) /\
     SoftDeleted target target' /\
     match updateFault m PROMPTS with
     | None =>
         StorageService.deletePrompt id m
         = (Return tt, withPrompts m (before ++ target' :: after)%list)
     | Some msg =>
         StorageService.deletePrompt id m = (Throw (HostFailure msg), m)
     end).
Proof.
  rewrite deletePrompt_run. cbv zeta.
  set (f := fun prompt => (PromptItem.id prompt =? id)%string).
  split.
  - rewrite <- findIndex_id_absent. fold f.
    destruct (Js.findIndex f (promptsOf m) =? -1) eqn:E.
    + apply Z.eqb_eq in E. simpl. tauto.
    + apply Z.eqb_neq in E. split; [|tauto].
      unfold updatePrompts. destruct (updateFault m PROMPTS); simpl; discriminate.
  - intros (p & Hp & Hid).
    destruct (Js.findIndex f (promptsOf m) =? -1) eqn:E.
    { apply Z.eqb_eq in E. unfold f in E. rewrite findIndex_id_absent in E.
      now specialize (E p Hp). }
    apply Z.eqb_neq in E. pose proof (findIndex_lower f (promptsOf m)) as Hlow.
    destruct (findIndex_found f (promptsOf m)) as (l1 & x & l2 & Hl & Fx & Hl1 & Hi);
      [lia|].
    exists l1, x, (StorageService.clearCategory x), l2.
    split; [exact Hl|]. split; [now apply String.eqb_eq|].
    split; [intros q Hq; apply String.eqb_neq; now apply Hl1|].
    split; [apply clearCategory_soft|].
    rewrite Hi, Hl, alterAt_middle.
    unfold updatePrompts. destruct (updateFault m PROMPTS); reflexivity.
Qed.

Lemma deletePrompt_soft_delete_witness :
  fst (StorageService.deletePrompt "p9" Example.store)
  = Throw (StorageService.promptNotFound "p9")
  /\ exists before target target' after,
       promptsOf Example.store = (before ++ target :: after)%list /\
       PromptItem.id target = "p1" /\
       (forall q, In q before -> PromptItem.id q <> "p1") /\
       SoftDeleted target target' /\
       StorageService.deletePrompt "p1" Example.store
       = (Return tt, withPrompts Example.store (before ++ target' :: after)%list).
Proof.
  split.
  - apply (proj1 (deletePrompt_soft_delete "p9" Example.store)).
    intros p [<-|[<-|[]]]; discriminate.
  - apply (proj2 (deletePrompt_soft_delete "p1" Example.store)).
    exists Example.p1. split; [now left|reflexivity].
Defined.

Lemma In_ids_findIndex {A} (key : A -> string) (l : list A) k :
  In k (map key l) -> 0 <= Js.findIndex (fun y => (key y =? k)%string) l.
Proof.
  intros Hin. apply in_map_iff in Hin as (y & Hy & Hin).
  destruct (Z.lt_ge_cases (Js.findIndex (fun y => (key y =? k)%string) l) 0) as [E|E];
    [|lia].
  pose proof (proj1 (findIndex_absent _ l) E y Hin) as Fy.
  apply String.eqb_neq in Fy. contradiction.
Qed.

(** ** Upserts keep ids distinct *)

Section Upsert.
Context {A : Type} (key : A -> string).

Lemma upsert_keys l x x' :
  key x' = key x ->
  (In (key x) (map key l) /\ map key (upsert key l x x') = map key l)
  \/ (~ In (key x) (map key l) /\ map key (upsert key l x x') = (map key l ++ [key x])%list).
Proof.
  intros Hk. unfold upsert.
  set (f := fun y => (key y =? key x)%string).
  destruct (0 <=? Js.findIndex f l) eqn:E.
  - apply Z.leb_le in E.
    destruct (findIndex_found f l E) as (l1 & y & l2 & -> & Fy & _ & ->).
    apply String.eqb_eq in Fy. left. split.
    + apply in_map_iff. exists y. split; [exact Fy|]. apply in_or_app. right. now left.
    + rewrite setAt_middle, !map_app. simpl. now rewrite Fy.
  - apply Z.leb_gt in E. right. split.
    + intros Hin. apply in_map_iff in Hin as (y & Hy & Hin).
      pose proof (proj1 (findIndex_absent f l) E y Hin) as Fy.
      apply String.eqb_neq in Fy. contradiction.
    + unfold Js.push. rewrite map_app. simpl. now rewrite Hk.
Qed.

Lemma NoDup_snoc {B} (l : list B) k : List.NoDup l -> ~ In k l -> List.NoDup (l ++ [k]).
Proof.
  intros Hl Hk. apply (Permutation_NoDup (l := k :: l)).
  - apply Permutation_cons_append.
  - now constructor.
Qed.

Lemma upsert_In l x x' :
  0 <= Js.findIndex (fun y => (key y =? key x)%string) l \/ x' = x ->
  In x (upsert key l x x').
Proof.
  unfold upsert. intros H.
  destruct (0 <=? Js.findIndex (fun y => (key y =? key x)%string) l) eqn:E.
  - apply Z.leb_le in E.
    destruct (findIndex_found _ l E) as (l1 & y & l2 & -> & _ & _ & ->).
    rewrite setAt_middle. apply in_or_app. right. now left.
  - apply Z.leb_gt in E. destruct H as [H| ->]; [lia|].
    unfold Js.push. apply in_or_app. right. now left.
Qed.

Lemma upsert_NoDup l x x' :
  key x' = key x -> List.NoDup (map key l) -> List.NoDup (map key (upsert key l x x')).
Proof.
  intros Hk Hl. destruct (upsert_keys l x x' Hk) as [[_ ->]|[Hn ->]];
    [exact Hl|now apply NoDup_snoc].
Qed.

Lemma fold_upsert_NoDup (g : list A -> A -> A) xs l :
  (forall l x, key (g l x) = key x) ->
  List.NoDup (map key l) ->
  List.NoDup (map key (fold_left (fun acc x => upsert key acc x (g acc x)) xs l)).
Proof.
  intros Hg. revert l. induction xs as [|x xs IH]; simpl; intros l Hl; [exact Hl|].
  apply IH. apply upsert_NoDup; [apply Hg|exact Hl].
Qed.
End Upsert.

Lemma savePrompt_run p m :
  StorageService.savePrompt p m = updatePrompts (upsert PromptItem.id (promptsOf m) p p) m.
Proof. unfold StorageService.savePrompt. now run_repo. Qed.

Lemma saveCategory_run now c m :
  StorageService.saveCategory now c m =
  updateCategories
    (upsert PromptCategory.id (categoriesOf m) c
       (StorageService.withDefaults c now (length (categoriesOf m)))) m.
Proof. unfold StorageService.saveCategory. now run_repo. Qed.

Lemma updateCategory_run c m :
  StorageService.updateCategory c m =
  let existingIndex :=
    Js.findIndex (fun c' => (PromptCategory.id c' =? PromptCategory.id c)%string)
      (categoriesOf m) in
  if existingIndex <? 0
  then (Throw (StorageService.categoryNotFound (PromptCategory.id c)), m)
  else updateCategories (Js.setAt (categoriesOf m) existingIndex c) m.
Proof.
  unfold StorageService.updateCategory. run_repo.
  destruct (_ <? 0); reflexivity.
Qed.

Lemma savePrompts_run ps m :
  StorageService.savePrompts ps m =
  match updateFault m PROMPTS with
  | None =>
      (Return (StorageService.batchSaved (length ps)),
       withPrompts m
         (fold_left (fun acc x => upsert PromptItem.id acc x x) ps (promptsOf m)))
  | Some _ => (Return StorageService.batchSaveFailed, m)
  end.
Proof.
  unfold StorageService.savePrompts, tryCatch. rewrite bind_getPrompts. cbv zeta.
  unfold bind, updatePrompts, ret. destruct (updateFault m PROMPTS); reflexivity.
Qed.

Lemma mergeCategories_spec clock cs : forall i acc,
  StorageService.mergeCategories clock i cs acc = mergeCategoriesAt clock i cs acc.
Proof.
  induction cs as [|c cs IH]; intros i acc; simpl; [reflexivity|]. apply IH.
Qed.

Lemma saveCategories_run clock cs m :
  StorageService.saveCategories clock cs m =
  match updateFault m CATEGORIES with
  | None =>
      (Return (StorageService.batchSaved (length cs)),
       withCategories m (mergeCategoriesAt clock 0 cs (categoriesOf m)))
  | Some _ => (Return StorageService.batchSaveFailed, m)
  end.
Proof.
  unfold StorageService.saveCategories, tryCatch. rewrite bind_getCategories. cbv zeta.
  rewrite mergeCategories_spec.
  unfold bind, updateCategories, ret. destruct (updateFault m CATEGORIES); reflexivity.
Qed.

Lemma distinct_withPrompts m v :
  DistinctIds m -> List.NoDup (map PromptItem.id v) -> DistinctIds (withPrompts m v).
Proof. intros [_ Hc] Hv. split; [exact Hv|exact Hc]. Qed.

Lemma distinct_withCategories m v :
  DistinctIds m -> List.NoDup (map PromptCategory.id v) -> DistinctIds (withCategories m v).
Proof. intros [Hp _] Hv. split; [exact Hp|exact Hv]. Qed.

Lemma distinct_updatePrompts m v :
  DistinctIds m -> List.NoDup (map PromptItem.id v) -> DistinctIds (snd (updatePrompts v m)).
Proof.
  intros Hm Hv. unfold updatePrompts. destruct (updateFault m PROMPTS); simpl;
    [exact Hm|now apply distinct_withPrompts].
Qed.

Lemma distinct_updateCategories m v :
  DistinctIds m -> List.NoDup (map PromptCategory.id v) ->
  DistinctIds (snd (updateCategories v m)).
Proof.
  intros Hm Hv. unfold updateCategories. destruct (updateFault m CATEGORIES); simpl;
    [exact Hm|now apply distinct_withCategories].
Qed.

Lemma detach_ids id prompts :
  map PromptItem.id (detach id prompts) = map PromptItem.id prompts.
Proof.
  unfold detach. rewrite map_map. apply map_ext. intros p.
  destruct (Js.optIs _ _); reflexivity.
Qed.

Lemma NoDup_map_filter {A B} (key : A -> B) (f : A -> bool) l :
  List.NoDup (map key l) -> List.NoDup (map key (List.filter f l)).
Proof.
  induction l as [|x l IH]; simpl; intros H; [constructor|].
  inversion H as [|? ? Hx Hl]; subst.
  destruct (f x); simpl; [|now apply IH].
  constructor; [|now apply IH].
  intros Hin. apply Hx. apply in_map_iff in Hin as (y & Hy & Hin).
  apply in_map_iff. exists y. split; [exact Hy|].
  apply filter_In in Hin. tauto.
Qed.

Lemma alterAt_ids (l : list PromptItem) i :
  map PromptItem.id (Js.alterAt l i StorageService.clearCategory) = map PromptItem.id l.
Proof.
  unfold Js.alterAt. generalize (Z.to_nat i) as n. induction l as [|x l IH]; intros n.
  - reflexivity.
  - destruct n as [|n]; simpl; [reflexivity|]. f_equal. apply IH.
Qed.

Lemma setAt_same_key {A} (key : A -> string) (l : list A) x :
  0 <= Js.findIndex (fun y => (key y =? key x)%string) l ->
  map key (Js.setAt l (Js.findIndex (fun y => (key y =? key x)%string) l) x) = map key l.
Proof.
  intros E. destruct (findIndex_found _ l E) as (l1 & y & l2 & -> & Fy & _ & ->).
  apply String.eqb_eq in Fy. rewrite setAt_middle, !map_app. simpl. now rewrite Fy.
Qed.

(** ** Which methods swallow a failure of the store, and which pass it on *)

Lemma getPrompt_run id m :
  StorageService.getPrompt id m
  = (Return (Js.find (fun prompt => (PromptItem.id prompt =? id)%string) (promptsOf m)), m).
Proof.
  unfold StorageService.getPrompt, tryCatch. now rewrite bind_getPrompts.
Qed.


(** C6, as the code has it.  The readers [getPrompts], [getCategories] and
    [getPrompt] and the batch operations [savePrompts] and [saveCategories]
    catch a failure of the store and return a safe default: the empty
    sequence, no prompt, the failed result; [getPrompts] never throws and
    returns the empty sequence when the read fails.  The single-record
    mutators [savePrompt], [saveCategory], [updateCategory], [deletePrompt],
    [deleteCategory] and [clearAll] pass the store's exception on to their
    caller, whichever of their writes the store refuses. *)
Theorem repository_failure_policy :
  (forall m, exists prompts,
      StorageService.getPrompts m = (Return prompts, m) /\
      forall msg, promptsSlot m = Unreadable msg -> prompts = [])
  /\ (forall m, exists categories,
        StorageService.getCategories m = (Return categories, m) /\
        forall msg, categoriesSlot m = Unreadable msg -> categories = [])
  /\ (forall id, NeverThrows (StorageService.getPrompt id))
  /\ (forall id m, exists found,
        StorageService.getPrompt id m = (Return found, m) /\
        forall msg, promptsSlot m = Unreadable msg -> found = None)
  /\ (forall ps, NeverThrows (StorageService.savePrompts ps))
  /\ (forall ps m msg, updateFault m PROMPTS = Some msg ->
        StorageService.savePrompts ps m = (Return StorageService.batchSaveFailed, m))
  /\ (forall clock cs, NeverThrows (StorageService.saveCategories clock cs))
  /\ (forall clock cs m msg, updateFault m CATEGORIES = Some msg ->
        StorageService.saveCategories clock cs m
        = (Return StorageService.batchSaveFailed, m))
  /\ (forall p m msg, updateFault m PROMPTS = Some msg ->
        StorageService.savePrompt p m = (Throw (HostFailure msg), m))
  /\ (forall now c m msg, updateFault m CATEGORIES = Some msg ->
        StorageService.saveCategory now c m = (Throw (HostFailure msg), m))
  /\ (forall c m msg,
        In (PromptCategory.id c) (categoryIds m) ->
        updateFault m CATEGORIES = Some msg ->
        StorageService.updateCategory c m = (Throw (HostFailure msg), m))
  /\ (forall id m msg,
        In id (promptIds m) -> updateFault m PROMPTS = Some msg ->
        StorageService.deletePrompt id m = (Throw (HostFailure msg), m))
  /\ (forall id m msg,
        In id (categoryIds m) -> updateFault m CATEGORIES = Some msg ->
        fst (StorageService.deleteCategory id m) = Throw (HostFailure msg))
  /\ (forall id m msg,
        In id (categoryIds m) ->
        updateFault m CATEGORIES = None -> updateFault m PROMPTS = Some msg ->
        fst (StorageService.deleteCategory id m) = Throw (HostFailure msg))
  /\ (forall m msg, updateFault m PROMPTS = Some msg ->
        fst (StorageService.clearAll m) = Throw (HostFailure msg))
  /\ (forall m msg,
        updateFault m PROMPTS = None -> updateFault m CATEGORIES = Some msg ->
        fst (StorageService.clearAll m) = Throw (HostFailure msg))
  /\ (forall m msg,
        updateFault m PROMPTS = None -> updateFault m CATEGORIES = None ->
        updateFault m SETTINGS = Some msg ->
        fst (StorageService.clearAll m) = Throw (HostFailure msg))
  /\ (forall m,
        (exists a m', StorageService.clearAll m = (Return a, m'))
        <-> forall key, updateFault m key = None).
Proof.
  repeat match goal with |- _ /\ _ => split end.
  - intros m. exists (promptsOf m). split; [apply getPrompts_run|].
    intros msg H. unfold promptsOf. now rewrite H.
  - intros m. exists (categoriesOf m). split; [apply getCategories_run|].
    intros msg H. unfold categoriesOf. now rewrite H.
  - intros id m. rewrite getPrompt_run. eauto.
  - intros id m. rewrite getPrompt_run. eexists. split; [reflexivity|].
    intros msg H. unfold promptsOf. now rewrite H.
  - intros ps m. rewrite savePrompts_run. destruct (updateFault m PROMPTS); eauto.
  - intros ps m msg H. rewrite savePrompts_run. now rewrite H.
  - intros clock cs m. rewrite saveCategories_run.
    destruct (updateFault m CATEGORIES); eauto.
  - intros clock cs m msg H. rewrite saveCategories_run. now rewrite H.
  - intros p m msg H. rewrite savePrompt_run. now apply updatePrompts_fault.
  - intros now c m msg H. rewrite saveCategory_run. now apply updateCategories_fault.
  - intros c m msg Hin H. rewrite updateCategory_run. cbv zeta.
    pose proof (In_ids_findIndex PromptCategory.id (categoriesOf m) _ Hin) as E.
    apply Z.ltb_ge in E. rewrite E. now apply updateCategories_fault.
  - intros id m msg Hin H. rewrite deletePrompt_run. cbv zeta.
    pose proof (In_ids_findIndex PromptItem.id (promptsOf m) _ Hin) as E.
    destruct (_ =? -1) eqn:E'; [apply Z.eqb_eq in E'; lia|].
    now apply updatePrompts_fault.
  - intros id m msg Hin H. rewrite deleteCategory_run.
    destruct (_ =? _)%nat eqn:E.
    + apply Nat.eqb_eq in E. rewrite withoutCategory_all in E.
      apply in_map_iff in Hin as (c & Hc & Hin). now specialize (E c Hin).
    + unfold both. rewrite (updateCategories_fault _ _ _ H).
      destruct (updatePrompts _ m). reflexivity.
  - intros id m msg Hin HC HP. rewrite deleteCategory_run.
    destruct (_ =? _)%nat eqn:E.
    + apply Nat.eqb_eq in E. rewrite withoutCategory_all in E.
      apply in_map_iff in Hin as (c & Hc & Hin). now specialize (E c Hin).
    + unfold both. rewrite (updateCategories_ok _ _ HC).
      now rewrite updatePrompts_fault with (msg := msg).
  - intros m msg H. unfold StorageService.clearAll. rewrite tryCatch_rethrow.
    unfold both at 1. rewrite (updatePrompts_fault _ _ _ H).
    destruct (both _ _ m). reflexivity.
  - intros m msg HP HC. unfold StorageService.clearAll. rewrite tryCatch_rethrow.
    unfold both, updatePrompts, updateCategories, updateSettings.
    rewrite HP. simpl. rewrite HC. simpl.
    destruct (updateFault m SETTINGS); reflexivity.
  - intros m msg HP HC HS. unfold StorageService.clearAll. rewrite tryCatch_rethrow.
    unfold both, updatePrompts, updateCategories, updateSettings.
    rewrite HP. simpl. rewrite HC. simpl. now rewrite HS.
  - intros m. unfold StorageService.clearAll. rewrite tryCatch_rethrow.
    unfold both, updatePrompts, updateCategories, updateSettings. split.
    + intros (a & m' & E) key.
      destruct (updateFault m PROMPTS) eqn:HP; simpl in E;
        destruct (updateFault m CATEGORIES) eqn:HC; simpl in E;
        destruct (updateFault m SETTINGS) eqn:HS; simpl in E; try discriminate E.
      destruct key; assumption.
    + intros HW. rewrite (HW PROMPTS). simpl. rewrite (HW CATEGORIES). simpl.
      rewrite (HW SETTINGS). eauto.
Qed.

Lemma repository_failure_policy_witness :
  StorageService.savePrompts [Example.p1] Example.readOnly
  = (Return StorageService.batchSaveFailed, Example.readOnly)
  /\ StorageService.savePrompt Example.p1 Example.readOnly
     = (Throw (HostFailure "EROFS"), Example.readOnly)
  /\ fst (StorageService.deleteCategory "programming" Example.readOnly)
     = Throw (HostFailure "EROFS")
  /\ fst (StorageService.deleteCategory "programming" HalfBroken.promptsLocked)
     = Throw (HostFailure "EIO")
  /\ fst (StorageService.clearAll HalfBroken.store) = Throw (HostFailure "EIO").
Proof.
  pose proof repository_failure_policy
    as (_ & _ & _ & _ & _ & H5 & _ & _ & H8 & _ & _ & _ & H12 & H13 & _ & H15 & _).
  split; [|split; [|split; [|split]]].
  - now apply H5 with (msg := "EROFS").
  - now apply H8.
  - apply H12; [|reflexivity]. now left.
  - apply H13; [|reflexivity|reflexivity]. now left.
  - now apply H15.
Defined.

(** C6, as stated, fails: [savePrompt] does not return when the store
    refuses the write. *)
Lemma savePrompt_rethrows_counterexample :
  ~ NeverThrows (StorageService.savePrompt Example.p1).
Proof.
  intros H. destruct (H Example.readOnly) as (a & m' & E).
  vm_compute in E. discriminate E.
Qed.

(** ** The root projection *)

Lemma filter_decide {A} (f : A -> bool) (P : A -> Prop) `{forall x, Decision (P x)}
  (l : list A) :
  (forall x, f x = true <-> P x) -> List.filter f l = filter P l.
Proof.
  intros Hf. induction l as [|x l IH]; [reflexivity|].
  rewrite filter_cons. simpl. rewrite IH.
  destruct (decide (P x)) as [Hx|Hx].
  - apply Hf in Hx. now rewrite Hx.
  - destruct (f x) eqn:E; [|reflexivity]. apply Hf in E. contradiction.
Qed.

Lemma isUncategorized_spec categories p :
  PromptTreeDataProvider.isUncategorized categories p = true <-> Unresolved categories p.
Proof.
  unfold PromptTreeDataProvider.isUncategorized, Unresolved, Js.some.
  destruct (PromptItem.categoryId p) as [k|]; simpl; [|tauto].
  destruct (Js.truthy k) eqn:T; simpl.
  - rewrite negb_true_iff. split.
    + intros E. right. right. apply List.Forall_forall. intros c Hc [= ->].
      assert (existsb (fun c0 => (PromptCategory.id c =? PromptCategory.id c0)%string)
                categories = true); [|congruence].
      apply existsb_exists. exists c. split; [exact Hc|apply String.eqb_refl].
    + intros [E|[[= ->]|E]]; [discriminate|discriminate|].
      destruct (existsb _ categories) eqn:X; [|reflexivity].
      apply existsb_exists in X as (c & Hc & Hk). apply String.eqb_eq in Hk.
      rewrite List.Forall_forall in E. specialize (E c Hc). congruence.
  - apply truthy_false in T. subst k. tauto.
Qed.

Lemma getCategoryPromptCount_run categoryId prompts m :
  PromptTreeDataProvider.getCategoryPromptCount categoryId (Some prompts) m
  = (Return (length (filter (RefersTo categoryId) prompts)), m).
Proof.
  unfold PromptTreeDataProvider.getCategoryPromptCount, tryCatch, bind, ret, Js.filter.
  rewrite (filter_decide _ (RefersTo categoryId)); [reflexivity|].
  intros p. apply optIs_true.
Qed.

Lemma forOf_categories prompts categories acc m :
  PromptTreeDataProvider.forOf categories
    (fun rootItems category =>
       bind (PromptTreeDataProvider.getCategoryPromptCount
               (PromptCategory.id category) (Some prompts))
         (fun categoryPromptCount =>
            ret (Js.push rootItems
                   (PromptTreeDataProvider.createCategoryItem category
                      categoryPromptCount))))
    acc m
  = (Return
       (acc ++ map (fun c =>
                      PromptTreeDataProvider.createCategoryItem c
                        (length (filter (RefersTo (PromptCategory.id c)) prompts)))
                 categories)%list, m).
Proof.
  revert acc. induction categories as [|c cs IH]; intros acc; simpl.
  - unfold ret. now rewrite app_nil_r.
  - unfold bind at 1. unfold bind at 1. rewrite getCategoryPromptCount_run.
    unfold ret at 1. rewrite IH. unfold Js.push. now rewrite <- app_assoc.
Qed.

(** What [getRootItems] does when no filter is active. *)
Lemma getRootItems_unfiltered {host : HostStrings} (self : Provider) (m : Memento) :
  PromptTreeDataProvider.filterActive self = false ->
  PromptTreeDataProvider.getRootItems self m
  = (Return (rootNodes m, PromptTreeDataProvider.setTreeData self (rootNodes m)), m).
Proof.
  intros Hf. unfold PromptTreeDataProvider.getRootItems, tryCatch. rewrite Hf.
  rewrite bind_getPrompts, bind_getCategories.
  unfold bind at 1. rewrite forOf_categories. cbv zeta. unfold ret.
  unfold rootNodes, Js.filter, Js.push. simpl.
  rewrite (filter_decide _ (Unresolved (categoriesOf m)))
    by apply isUncategorized_spec.
  destruct (filter (Unresolved (categoriesOf m)) (promptsOf m)); simpl.
  - now rewrite app_nil_r.
  - reflexivity.
Qed.

(** C1, as the code has it.  With no search filter active, [getRootItems]
    returns one category node per stored category, in the order of the
    repository, labelled "name (count)" with the number of prompts whose
    [categoryId] is the category's id; one uncategorized node labelled
    "未分类 (count)" follows as the last element exactly when at least one
    prompt has a [categoryId] that is absent, is the empty string, or matches
    no category id, and counts those prompts.  The nodes are cached in
    [treeData] and the store is not touched. *)
Theorem getRootItems_hierarchy {host : HostStrings} (self : Provider) (m : Memento) :
  PromptTreeDataProvider.filterActive self = false ->
  exists items,
    PromptTreeDataProvider.getRootItems self m
    = (Return (items, PromptTreeDataProvider.setTreeData self items), m)
    /\ rootLayout (filter (Unresolved (categoriesOf m)) (promptsOf m))
         (promptsOf m) (categoriesOf m) items
    /\ (forall c n,
          TreePromptItem.label (PromptTreeDataProvider.createCategoryItem c n)
          = PromptCategory.name c ++ " (" ++ Js.showNat n ++ ")"
          /\ TreePromptItem.contextValue (PromptTreeDataProvider.createCategoryItem c n)
             = CATEGORY_ITEM
          /\ TreePromptItem.categoryData (PromptTreeDataProvider.createCategoryItem c n)
             = Some c)
    /\ (forall n,
          TreePromptItem.label (PromptTreeDataProvider.createUncategorizedCategory n)
          = "未分类 (" ++ Js.showNat n ++ ")"
          /\ TreePromptItem.id (PromptTreeDataProvider.createUncategorizedCategory n)
             = TREE_SPECIAL_CATEGORIES.UNCATEGORIZED).
Proof.
  intros Hf. exists (rootNodes m). split; [|split; [|split]].
  - now apply getRootItems_unfiltered.
  - unfold rootLayout, rootNodes.
    now destruct (filter (Unresolved (categoriesOf m)) (promptsOf m)).
  - intros c n. repeat split.
  - intros n. split; reflexivity.
Qed.

Lemma getRootItems_hierarchy_witness :
  exists items,
    PromptTreeDataProvider.getRootItems (host := AsciiHost.host)
      PromptTreeDataProvider.new Example.store
    = (Return (items, PromptTreeDataProvider.setTreeData PromptTreeDataProvider.new items),
       Example.store)
    /\ map TreePromptItem.label items = ["编程 (1)"; "未分类 (1)"].
Proof.
  destruct (getRootItems_hierarchy (host := AsciiHost.host)
              PromptTreeDataProvider.new Example.store eq_refl)
    as (items & E & L & _).
  exists items. split; [exact E|].
  rewrite L. vm_compute. reflexivity.
Defined.

(** C1, as stated, fails: a prompt filed under a category whose id is the
    empty string matches an existing category, and the uncategorized node
    is emitted all the same. *)
Lemma getRootItems_blank_categoryId_counterexample :
  ~ (forall (host : HostStrings) (self : Provider) (m : Memento),
       PromptTreeDataProvider.filterActive self = false ->
       exists items,
         PromptTreeDataProvider.getRootItems self m
         = (Return (items, PromptTreeDataProvider.setTreeData self items), m)
         /\ rootLayout (filter (Dangling (categoriesOf m)) (promptsOf m))
              (promptsOf m) (categoriesOf m) items).
Proof.
  intros H.
  destruct (H AsciiHost.host PromptTreeDataProvider.new BlankId.store eq_refl)
    as (items & E & L).
  vm_compute in E. injection E as <-.
  vm_compute in L. discriminate L.
Qed.

(** ** Children of a category: the guide leaf *)

(** C2, on a category whose guide is recognised by its title.  The guide
    leaf comes first, as the claim says; but the filter that is meant to
    leave the guide out of the remaining children only drops the id
    "programming-guide", so the guide prompt "p7" is listed again as an
    ordinary prompt leaf. *)
Theorem getChildItems_guide_listed_twice :
  PromptTreeDataProvider.getChildItems GuideByTitle.node GuideByTitle.store
  = (Return
       [ PromptTreeDataProvider.guideItemFor "programming" GuideByTitle.guide;
         PromptTreeDataProvider.createPromptItem GuideByTitle.guide (Some "programming");
         PromptTreeDataProvider.createPromptItem Example.p1 (Some "programming") ],
     GuideByTitle.store).
Proof. vm_compute. reflexivity. Qed.

(** ** Search with a blank keyword *)

Lemma trimStart_blank s : Blank s -> Js.trimStart s = "".
Proof.
  induction 1 as [|w s Hw _ IH]; [reflexivity|].
  unfold Js.whiteSpace in Hw. simpl in Hw.
  repeat (destruct Hw as [<-|Hw]; [exact IH|]).
  contradiction.
Qed.

Lemma trim_blank s : Blank s -> Js.trim s = "".
Proof. intros H. unfold Js.trim. now rewrite (trimStart_blank s H). Qed.

(** C10. For a keyword that is empty or made of white space only,
    [searchPrompts] returns all the stored prompts, in their stored order,
    whatever the options are. *)
Theorem searchPrompts_blank_keyword {host : HostStrings} (keyword : string)
  (options : option SearchOptions) (m : Memento) :
  Blank keyword ->
  PromptManager.searchPrompts keyword options m = (Return (promptsOf m), m)
  /\ StorageService.getPrompts m = (Return (promptsOf m), m).
Proof.
  intros H. split; [|apply getPrompts_run].
  unfold PromptManager.searchPrompts, tryCatch.
  rewrite bind_getPrompts, bind_getCategories.
  rewrite (trim_blank keyword H). simpl. now rewrite orb_true_r.
Qed.

Lemma searchPrompts_blank_keyword_witness :
  Blank (Js.utf8 [32; 9; 227; 128; 128]%nat)
  /\ PromptManager.searchPrompts (host := AsciiHost.host)
       (Js.utf8 [32; 9; 227; 128; 128]%nat)
       (Some {| includeContent := Some false; includeTags := Some false |})
       Example.store
     = (Return [Example.p1; Example.p2], Example.store).
Proof.
  assert (H : Blank (Js.utf8 [32; 9; 227; 128; 128]%nat)).
  { apply (Blank_white (Js.utf8 [32]%nat)); [cbv; tauto|].
    apply (Blank_white (Js.utf8 [9]%nat)); [cbv; tauto|].
    apply (Blank_white (Js.utf8 [227; 128; 128]%nat) ""); [cbv; tauto|].
    constructor. }
  split; [exact H|].
  exact (proj1 (searchPrompts_blank_keyword (host := AsciiHost.host) _ _ Example.store H)).
Defined.

(** ** Sorting with a consistent comparison *)

Section Sorting.
Context {A : Type} (cmp : A -> A -> Z).
Hypothesis cmp_total : forall a b, 0 < cmp a b -> cmp b a <= 0.
Hypothesis cmp_trans : forall a b c, cmp a b <= 0 -> cmp b c <= 0 -> cmp a c <= 0.

Lemma insertSorted_perm x l : Permutation (x :: l) (Js.insertSorted cmp x l).
Proof.
  induction l as [|y l IH]; simpl; [reflexivity|].
  destruct (0 <? cmp x y); [|reflexivity].
  rewrite perm_swap. now constructor.
Qed.

Lemma sort_perm l : Permutation l (Js.sort cmp l).
Proof.
  unfold Js.sort. induction l as [|x l IH]; simpl; [constructor|].
  rewrite <- insertSorted_perm. now constructor.
Qed.

Lemma insertSorted_sorted x l :
  StronglySorted (fun a b => cmp a b <= 0) l ->
  StronglySorted (fun a b => cmp a b <= 0) (Js.insertSorted cmp x l).
Proof.
  induction 1 as [|y l Hl IH Hy]; simpl.
  - repeat constructor.
  - destruct (0 <? cmp x y) eqn:E.
    + apply Z.ltb_lt in E. constructor; [exact IH|].
      apply List.Forall_forall. intros z Hz.
      apply (Permutation_in _ (Permutation_sym (insertSorted_perm x l))) in Hz.
      destruct Hz as [<-|Hz]; [now apply cmp_total|].
      rewrite List.Forall_forall in Hy. now apply Hy.
    + apply Z.ltb_ge in E. constructor; [now constructor|].
      constructor; [exact E|].
      apply List.Forall_forall. intros z Hz.
      rewrite List.Forall_forall in Hy. apply (cmp_trans x y z E). now apply Hy.
Qed.

Lemma sort_sorted l : StronglySorted (fun a b => cmp a b <= 0) (Js.sort cmp l).
Proof.
  unfold Js.sort. induction l as [|x l IH]; simpl; [constructor|].
  now apply insertSorted_sorted.
Qed.
End Sorting.

Lemma StronglySorted_impl {A} (R S : A -> A -> Prop) l :
  (forall a b, R a b -> S a b) -> StronglySorted R l -> StronglySorted S l.
Proof.
  intros HRS. induction 1 as [|x l Hl IH Hx]; constructor; [exact IH|].
  rewrite List.Forall_forall in *. auto.
Qed.

(** ** The loops of the search *)

Lemma fold_push_filter {A} (f : A -> bool) l acc :
  fold_left (fun acc x => if f x then Js.push acc x else acc) l acc
  = (acc ++ List.filter f l)%list.
Proof.
  revert acc. induction l as [|x l IH]; intros acc; simpl.
  - now rewrite app_nil_r.
  - rewrite IH. destruct (f x); [|reflexivity].
    unfold Js.push. now rewrite <- app_assoc.
Qed.

Lemma fold_push_map_filter {A B} (f : A -> bool) (g : A -> B) l acc :
  fold_left (fun acc x => if f x then Js.push acc (g x) else acc) l acc
  = (acc ++ map g (List.filter f l))%list.
Proof.
  revert acc. induction l as [|x l IH]; intros acc; simpl.
  - now rewrite app_nil_r.
  - rewrite IH. destruct (f x); [|reflexivity].
    unfold Js.push. now rewrite <- app_assoc.
Qed.

Lemma fold_push_map {A B} (g : A -> B) l acc :
  fold_left (fun acc x => Js.push acc (g x)) l acc = (acc ++ map g l)%list.
Proof.
  revert acc. induction l as [|x l IH]; intros acc; simpl.
  - now rewrite app_nil_r.
  - rewrite IH. unfold Js.push. now rewrite <- app_assoc.
Qed.

Lemma NoDup_map_injective {A B} (key : A -> B) l x y :
  List.NoDup (map key l) -> In x l -> In y l -> key x = key y -> x = y.
Proof.
  induction l as [|z l IH]; simpl; [tauto|].
  intros H. inversion H as [|? ? Hz Hl]; subst.
  intros [<-|Hx] [<-|Hy] E; auto.
  - exfalso. apply Hz. rewrite E. now apply in_map.
  - exfalso. apply Hz. rewrite <- E. now apply in_map.
Qed.

Section AddCategoryPrompts.
Variable prompts : list PromptItem.
Hypothesis distinct : List.NoDup (map PromptItem.id prompts).

Lemma addUnlessPresent_spec candidates acc :
  (forall p, In p candidates -> In p prompts) ->
  Selection prompts acc ->
  let acc' :=
    fold_left
      (fun matchedPrompts prompt =>
         if negb (Js.some (fun mp => (PromptItem.id mp =? PromptItem.id prompt)%string)
                    matchedPrompts)
         then Js.push matchedPrompts prompt
         else matchedPrompts)
      candidates acc in
  Selection prompts acc' /\ (forall p, In p acc' <-> In p acc \/ In p candidates).
Proof.
  revert acc. induction candidates as [|c cs IH]; intros acc Hcs Hacc; simpl.
  - split; [exact Hacc|]. intros p. tauto.
  - destruct Hacc as [Hsub Hnd].
    assert (Hc : In c prompts) by (apply Hcs; now left).
    assert (Hcs' : forall p, In p cs -> In p prompts) by (intros p Hp; apply Hcs; now right).
    destruct (Js.some _ acc) eqn:E; simpl.
    + apply existsb_exists in E as (mp & Hmp & Hid). apply String.eqb_eq in Hid.
      assert (mp = c) as ->
        by (apply (NoDup_map_injective PromptItem.id prompts); auto).
      destruct (IH acc Hcs' (conj Hsub Hnd)) as [HS Hin].
      split; [exact HS|]. intros p. rewrite Hin.
      split; [tauto|]. intros [H|[<-|H]]; auto.
    + assert (Hfresh : ~ In (PromptItem.id c) (map PromptItem.id acc)).
      { intros Hin. apply in_map_iff in Hin as (mp & Hid & Hmp).
        assert (existsb (fun mp => (PromptItem.id mp =? PromptItem.id c)%string) acc = true);
          [|unfold Js.some in E; congruence].
        apply existsb_exists. exists mp. split; [exact Hmp|now apply String.eqb_eq]. }
      destruct (IH (Js.push acc c) Hcs') as [HS Hin].
      * split.
        -- intros p Hp. apply in_app_or in Hp as [Hp|[<-|[]]]; auto.
        -- unfold Js.push. rewrite map_app. simpl. now apply NoDup_snoc.
      * split; [exact HS|]. intros p. rewrite Hin. unfold Js.push.
        rewrite in_app_iff. simpl. tauto.
Qed.

Lemma addCategoryPrompts_step id acc :
  Selection prompts acc ->
  let acc' := PromptTreeDataProvider.addCategoryPrompts prompts acc id in
  Selection prompts acc' /\
  (forall p, In p acc' <->
             In p acc \/ (In p prompts /\ PromptItem.categoryId p = Some id)).
Proof.
  intros Hacc. unfold PromptTreeDataProvider.addCategoryPrompts.
  set (cps := Js.filter (fun p => Js.optIs (PromptItem.categoryId p) id) prompts).
  destruct (addUnlessPresent_spec cps acc) as [HS Hin]; [|exact Hacc|].
  { intros p Hp. apply filter_In in Hp. tauto. }
  split; [exact HS|]. intros p. rewrite Hin. unfold cps, Js.filter.
  now rewrite filter_In, optIs_true.
Qed.

Lemma addCategoryPrompts_spec ids acc :
  Selection prompts acc ->
  let acc' := fold_left (PromptTreeDataProvider.addCategoryPrompts prompts) ids acc in
  Selection prompts acc' /\
  (forall p, In p acc' <->
             In p acc \/ (In p prompts /\ exists id, In id ids /\
                                                      PromptItem.categoryId p = Some id)).
Proof.
  revert acc. induction ids as [|id ids IH]; intros acc Hacc; simpl.
  - split; [exact Hacc|]. intros p. split; [tauto|].
    intros [H|(_ & id & [] & _)]. exact H.
  - destruct (addCategoryPrompts_step id acc Hacc) as [HS Hin].
    destruct (IH _ HS) as [HS' Hin']. split; [exact HS'|].
    intros p. rewrite Hin', Hin.
    split.
    + intros [[H|[H1 H2]]|(H1 & id' & H2 & H3)]; eauto 7.
    + intros [H|(H1 & id' & [<-|H2] & H3)]; eauto 7.
Qed.
End AddCategoryPrompts.

(** ** The ranked search result *)

Section Search.
Context {host : HostStrings} {laws : HostStringsLaws host}.

Lemma isMatch_spec term p :
  PromptTreeDataProvider.isMatch term p = true
  <-> TitleHit term p \/ ContentHit term p \/ TagHit term p.
Proof.
  unfold PromptTreeDataProvider.isMatch, TitleHit, ContentHit, TagHit.
  destruct (Js.includes (toLowerCase (PromptItem.title p)) term); [tauto|].
  destruct (PromptItem.tags p) as [tags|].
  - destruct (Js.some _ tags) eqn:E.
    + split; [|reflexivity]. intros _. right. right.
      apply existsb_exists in E as (tag & Hin & Htag). eauto.
    + destruct (Js.includes (toLowerCase (PromptItem.content p)) term); [tauto|].
      split; [discriminate|].
      intros [H|[H|(tags' & tag & [= <-] & Hin & Htag)]]; try discriminate.
      assert (existsb (fun tag => Js.includes (toLowerCase tag) term) tags = true);
        [|unfold Js.some in E; congruence].
      apply existsb_exists. eauto.
  - destruct (Js.includes (toLowerCase (PromptItem.content p)) term); [tauto|].
    split; [discriminate|].
    intros [H|[H|(tags' & tag & H & _)]]; discriminate.
Qed.

Lemma byRelevance_total term a b :
  0 < PromptTreeDataProvider.byRelevance term a b ->
  PromptTreeDataProvider.byRelevance term b a <= 0.
Proof.
  unfold PromptTreeDataProvider.byRelevance.
  pose proof (localeCompare_flip (PromptItem.title a) (PromptItem.title b)).
  destruct (Js.includes (toLowerCase (PromptItem.title a)) term),
    (Js.includes (toLowerCase (PromptItem.title b)) term); simpl; lia.
Qed.

Lemma byRelevance_trans term a b c :
  PromptTreeDataProvider.byRelevance term a b <= 0 ->
  PromptTreeDataProvider.byRelevance term b c <= 0 ->
  PromptTreeDataProvider.byRelevance term a c <= 0.
Proof.
  unfold PromptTreeDataProvider.byRelevance.
  pose proof (localeCompare_trans (PromptItem.title a) (PromptItem.title b)
                (PromptItem.title c)).
  destruct (Js.includes (toLowerCase (PromptItem.title a)) term),
    (Js.includes (toLowerCase (PromptItem.title b)) term),
    (Js.includes (toLowerCase (PromptItem.title c)) term); simpl; lia.
Qed.

Lemma byRelevance_ranked term a b :
  PromptTreeDataProvider.byRelevance term a b <= 0 -> Ranked term a b.
Proof.
  unfold PromptTreeDataProvider.byRelevance, Ranked, TitleHit.
  destruct (Js.includes (toLowerCase (PromptItem.title a)) term),
    (Js.includes (toLowerCase (PromptItem.title b)) term); simpl; intros H.
  - right. tauto.
  - left. split; [reflexivity|discriminate].
  - lia.
  - right. tauto.
Qed.

Lemma truthy_trim filter : Js.truthy (Js.trim filter) = true -> Js.truthy filter = true.
Proof.
  destruct filter; [discriminate|reflexivity].
Qed.

Lemma matchedCategory_spec term categories p :
  (exists id,
      In id (map PromptCategory.id
               (List.filter
                  (fun category =>
                     Js.includes (toLowerCase (PromptCategory.name category)) term)
                  categories))
      /\ PromptItem.categoryId p = Some id)
  <-> CategoryHit term categories p.
Proof.
  unfold CategoryHit. split.
  - intros (id & Hin & Hp). apply in_map_iff in Hin as (c & <- & Hc).
    apply filter_In in Hc as [Hc Hn]. eauto.
  - intros (c & Hc & Hn & Hp). exists (PromptCategory.id c). split; [|exact Hp].
    apply in_map. apply filter_In. tauto.
Qed.


End Search.

(** The byte-wise host satisfies the laws of [localeCompare]. *)
Lemma asciiHost_laws : HostStringsLaws AsciiHost.host.
Proof.
  split; simpl; unfold AsciiHost.compareBytes.
  - intros a b. rewrite (String_as_OT.cmp_antisym a b).
    destruct (String_as_OT.cmp b a); simpl; lia.
  - intros a b c Hab Hbc.
    destruct (String_as_OT.cmp a b) eqn:Eab; try lia.
    + apply String_as_OT.cmp_eq in Eab. now subst b.
    + destruct (String_as_OT.cmp b c) eqn:Ebc; try lia.
      * apply String_as_OT.cmp_eq in Ebc. subst c. now rewrite Eab.
      * apply String_as_OT.cmp_lt in Eab, Ebc.
        pose proof (String_as_OT.lt_trans _ _ _ Eab Ebc) as Hac.
        apply String_as_OT.cmp_lt in Hac. now rewrite Hac.
Qed.


(** ** The timer list *)

Lemma earliest_spec timers t :
  EventLoop.earliest timers = Some t ->
  In t timers /\ forall u, In u timers -> (due t <= due u)%nat.
Proof.
  revert t. induction timers as [|a l IH]; simpl; [discriminate|].
  intros t. destruct (EventLoop.earliest l) as [u|] eqn:E.
  - destruct (IH u eq_refl) as [Hu Hmin].
    destruct (due u <? due a)%nat eqn:C; intros [= <-].
    + apply Nat.ltb_lt in C. split; [now right|].
      intros v [<-|Hv]; [lia|now apply Hmin].
    + apply Nat.ltb_ge in C. split; [now left|].
      intros v [<-|Hv]; [lia|]. specialize (Hmin v Hv). lia.
  - intros [= <-]. destruct l as [|b l]; [|simpl in E; destruct (EventLoop.earliest l);
      [destruct (_ <? _)%nat|]; discriminate].
    split; [now left|]. intros v [<-|[]]. lia.
Qed.

Lemma earliest_none timers : EventLoop.earliest timers = None -> timers = [].
Proof.
  destruct timers as [|a l]; [reflexivity|]. simpl.
  destruct (EventLoop.earliest l); [destruct (_ <? _)%nat|]; discriminate.
Qed.

Lemma nextDue_some target timers t :
  EventLoop.nextDue target timers = Some t ->
  In t timers /\ (due t <= target)%nat.
Proof.
  unfold EventLoop.nextDue. destruct (EventLoop.earliest timers) as [u|] eqn:E;
    [|discriminate].
  destruct (due u <=? target)%nat eqn:C; intros [= <-].
  apply Nat.leb_le in C. split; [|exact C]. now apply earliest_spec.
Qed.

Lemma nextDue_none target timers :
  EventLoop.nextDue target timers = None ->
  forall t, In t timers -> (target < due t)%nat.
Proof.
  unfold EventLoop.nextDue. destruct (EventLoop.earliest timers) as [u|] eqn:E.
  - destruct (due u <=? target)%nat eqn:C; [discriminate|].
    apply Nat.leb_gt in C. intros _ t Ht.
    destruct (earliest_spec _ _ E) as [_ Hmin]. specialize (Hmin t Ht). lia.
  - apply earliest_none in E. subst. intros _ t [].
Qed.

Lemma weight_app l k :
  EventLoop.weight (l ++ k) = (EventLoop.weight l + EventLoop.weight k)%nat.
Proof.
  induction l as [|t l IH]; simpl; [reflexivity|].
  destruct (action t); simpl; rewrite IH; lia.
Qed.

Lemma weight_filter f l :
  (EventLoop.weight (List.filter f l) <= EventLoop.weight l)%nat.
Proof.
  induction l as [|t l IH]; simpl; [lia|].
  destruct (f t); simpl; destruct (action t); lia.
Qed.

Lemma weight_remove t l :
  In t l ->
  (EventLoop.weight (List.filter (fun u => negb (handle u =? handle t)%nat) l)
   + EventLoop.weight [t] <= EventLoop.weight l)%nat.
Proof.
  induction l as [|a l IH]; simpl; [tauto|].
  intros [->|Hin].
  - rewrite Nat.eqb_refl. simpl.
    pose proof (weight_filter (fun u => negb (handle u =? handle t)%nat) l).
    destruct (action t); lia.
  - specialize (IH Hin). simpl in IH.
    destruct (negb (handle a =? handle t)%nat); simpl; destruct (action a), (action t); lia.
Qed.

Lemma refresh_pending w :
  exists kept,
    pending (EventLoop.refresh w)
    = (kept ++ [{| handle := nextHandle w; due := (now w + 100)%nat;
                   action := FireChange |}])%list
    /\ (kept = pending w
        \/ exists h, refreshTimeout (self w) = Some h /\
                     kept = List.filter (fun t => negb (handle t =? h)%nat) (pending w)).
Proof.
  unfold EventLoop.refresh. destruct (refreshTimeout (self w)) as [h|]; simpl.
  - eexists. split; [reflexivity|]. right. eauto.
  - eexists. split; [reflexivity|]. now left.
Qed.

Lemma refresh_fields w :
  now (EventLoop.refresh w) = now w
  /\ notifications (EventLoop.refresh w) = notifications w
  /\ nextHandle (EventLoop.refresh w) = S (nextHandle w)
  /\ searchFilter (self (EventLoop.refresh w)) = searchFilter (self w)
  /\ searchTimeout (self (EventLoop.refresh w)) = searchTimeout (self w)
  /\ refreshTimeout (self (EventLoop.refresh w)) = Some (nextHandle w).
Proof.
  unfold EventLoop.refresh. destruct (refreshTimeout (self w)); simpl; auto 10.
Qed.

Lemma weight_refresh w :
  (EventLoop.weight (pending (EventLoop.refresh w)) <= S (EventLoop.weight (pending w)))%nat.
Proof.
  destruct (refresh_pending w) as (kept & -> & [->|(h & _ & ->)]);
    rewrite weight_app; simpl.
  - lia.
  - pose proof (weight_filter (fun t => negb (handle t =? h)%nat) (pending w)). lia.
Qed.

Lemma weight_fire t w :
  In t (pending w) ->
  (EventLoop.weight (pending (EventLoop.fire t w)) < EventLoop.weight (pending w))%nat.
Proof.
  intros Hin. pose proof (weight_remove t (pending w) Hin) as Hrem.
  simpl in Hrem. unfold EventLoop.fire, EventLoop.runCallback.
  destruct (action t) eqn:A.
  - simpl. lia.
  - match goal with |- (EventLoop.weight (pending (EventLoop.refresh ?x)) < _)%nat =>
      pose proof (weight_refresh x) as Hr;
      change (pending x)
        with (List.filter (fun u => negb (handle u =? handle t)%nat) (pending w)) in Hr
    end.
    lia.
Qed.

(** Given fuel for every callback that can still run, the loop stops only
    when no timer is due. *)
Lemma run_quiescent target fuel w :
  (EventLoop.weight (pending w) <= fuel)%nat ->
  EventLoop.nextDue target (pending (EventLoop.run fuel target w)) = None.
Proof.
  revert w. induction fuel as [|fuel IH]; intros w Hw; simpl.
  - destruct (pending w) as [|t l]; [reflexivity|].
    simpl in Hw. destruct (action t); lia.
  - destruct (EventLoop.nextDue target (pending w)) as [t|] eqn:E; [|exact E].
    apply IH. apply nextDue_some in E as [Hin _].
    pose proof (weight_fire t w Hin). lia.
Qed.

(** ** Debounced refresh *)

Lemma refresh_from_quiet w :
  pending w = [] -> OneRefresh (now w + 100) (EventLoop.refresh w).
Proof.
  intros Hq. exists (nextHandle w). unfold EventLoop.refresh, EventLoop.clearTimeout.
  destruct (refreshTimeout (self w)); simpl; rewrite Hq; simpl; auto.
Qed.

Lemma refresh_again d w :
  OneRefresh d w -> OneRefresh (now w + 100) (EventLoop.refresh w).
Proof.
  intros (h & Hp & Hr). exists (nextHandle w).
  unfold EventLoop.refresh, EventLoop.clearTimeout. rewrite Hr. simpl. rewrite Hp. simpl.
  rewrite Nat.eqb_refl. simpl. auto.
Qed.

Lemma wait_before d gap w :
  OneRefresh d w -> (now w + gap < d)%nat ->
  EventLoop.wait gap w = EventLoop.setNow w (now w + gap).
Proof.
  intros (h & Hp & Hr) Hlt. unfold EventLoop.wait, EventLoop.advanceTo.
  rewrite Hp. simpl. unfold EventLoop.nextDue. rewrite Hp. simpl.
  assert (E : (d <=? now w + gap)%nat = false) by (apply Nat.leb_gt; lia).
  rewrite E. f_equal. lia.
Qed.

Lemma wait_after d gap w :
  OneRefresh d w -> (now w <= d)%nat -> (d <= now w + gap)%nat ->
  pending (EventLoop.wait gap w) = []
  /\ notifications (EventLoop.wait gap w) = (notifications w ++ [d])%list
  /\ now (EventLoop.wait gap w) = (now w + gap)%nat
  /\ self (EventLoop.wait gap w) = self w.
Proof.
  intros (h & Hp & Hr) Hnow Hdue. unfold EventLoop.wait, EventLoop.advanceTo.
  rewrite Hp. simpl. unfold EventLoop.nextDue. rewrite Hp. simpl.
  assert (E : (d <=? now w + gap)%nat = true) by (apply Nat.leb_le; lia).
  rewrite E. unfold EventLoop.fire, EventLoop.clearTimeout. simpl. rewrite Hp. simpl.
  rewrite Nat.eqb_refl. simpl.
  repeat split; try reflexivity.
  - f_equal. f_equal. lia.
  - lia.
Qed.

Lemma burst_within gaps : forall w tail,
  OneRefresh (now w + 100) w ->
  Forall (fun gap => (gap < 100)%nat) gaps ->
  (100 <= tail)%nat ->
  notifications (EventLoop.wait tail (EventLoop.play (EventLoop.refreshCalls gaps) w))
  = (notifications w ++ [(now w + list_sum gaps + 100)%nat])%list.
Proof.
  induction gaps as [|gap gaps IH]; intros w tail Hone Hgaps Htail;
    unfold EventLoop.refreshCalls;
    cbn [map EventLoop.play EventLoop.perform EventLoop.callInstants];
    try fold (EventLoop.refreshCalls gaps).
  - destruct (wait_after _ tail w Hone) as (_ & -> & _); [lia|lia|].
    f_equal. f_equal. change (list_sum []) with 0%nat. lia.
  - apply List.Forall_cons_iff in Hgaps as [Hgap Hgaps].
    rewrite (wait_before _ gap w Hone) by lia.
    assert (H1 : OneRefresh (now w + 100) (EventLoop.setNow w (now w + gap))).
    { destruct Hone as (h & Hp & Hr). exists h. simpl. auto. }
    pose proof (refresh_again _ _ H1) as H2.
    assert (Hn : now (EventLoop.refresh (EventLoop.setNow w (now w + gap)))
                 = (now w + gap)%nat)
      by exact (proj1 (refresh_fields (EventLoop.setNow w (now w + gap)))).
    assert (Hnot : notifications (EventLoop.refresh (EventLoop.setNow w (now w + gap)))
                   = notifications w)
      by exact (proj1 (proj2 (refresh_fields (EventLoop.setNow w (now w + gap))))).
    rewrite IH; [|rewrite Hn; exact H2|exact Hgaps|exact Htail].
    rewrite Hn, Hnot. f_equal. f_equal.
    change (list_sum (gap :: gaps)) with (gap + list_sum gaps)%nat. lia.
Qed.

Lemma burst_beyond gaps : forall w tail,
  OneRefresh (now w + 100) w ->
  Forall (fun gap => (100 < gap)%nat) gaps ->
  (100 <= tail)%nat ->
  notifications (EventLoop.wait tail (EventLoop.play (EventLoop.refreshCalls gaps) w))
  = (notifications w
     ++ map (fun t => (t + 100)%nat) (EventLoop.callInstants (now w) gaps))%list.
Proof.
  induction gaps as [|gap gaps IH]; intros w tail Hone Hgaps Htail;
    unfold EventLoop.refreshCalls;
    cbn [map EventLoop.play EventLoop.perform EventLoop.callInstants];
    try fold (EventLoop.refreshCalls gaps).
  - destruct (wait_after _ tail w Hone) as (_ & -> & _); [lia|lia|reflexivity].
  - apply List.Forall_cons_iff in Hgaps as [Hgap Hgaps].
    destruct (wait_after _ gap w Hone) as (Hq & Hnot & Hnow & _); [lia|lia|].
    pose proof (refresh_from_quiet _ Hq) as H2.
    pose proof (refresh_fields (EventLoop.wait gap w)) as (Hn & Hnot' & _).
    rewrite IH; [|rewrite Hn; exact H2|exact Hgaps|exact Htail].
    rewrite Hn, Hnot', Hnot, Hnow. now rewrite <- app_assoc.
Qed.

Lemma callInstants_length t gaps :
  length (EventLoop.callInstants t gaps) = S (length gaps).
Proof.
  revert t. induction gaps as [|gap gaps IH]; intros t; simpl; [reflexivity|].
  now rewrite IH.
Qed.

(** C8. Take [N >= 1] calls of [refresh()], the first on a provider with no
    pending timer and each next one after the given gap, and then let at
    least the window (100 ms) pass.  When every gap is shorter than the
    window, exactly one notification fires, 100 ms after the last call;
    when every gap is longer than the window, exactly [N] notifications
    fire, one 100 ms after each call. *)
Theorem refresh_debounce (w : World) (gaps : list nat) (tail : nat) :
  pending w = [] ->
  (100 <= tail)%nat ->
  (Forall (fun gap => (gap < 100)%nat) gaps ->
   notifications
     (EventLoop.wait tail
        (EventLoop.play (EventLoop.refreshCalls gaps) (EventLoop.refresh w)))
   = (notifications w ++ [(now w + list_sum gaps + 100)%nat])%list)
  /\
  (Forall (fun gap => (100 < gap)%nat) gaps ->
   notifications
     (EventLoop.wait tail
        (EventLoop.play (EventLoop.refreshCalls gaps) (EventLoop.refresh w)))
   = (notifications w
      ++ map (fun t => (t + 100)%nat) (EventLoop.callInstants (now w) gaps))%list
   /\ length (map (fun t => (t + 100)%nat) (EventLoop.callInstants (now w) gaps))
      = S (length gaps)).
Proof.
  intros Hq Htail.
  pose proof (refresh_from_quiet w Hq) as Hone.
  pose proof (refresh_fields w) as (Hn & Hnot & _).
  rewrite <- Hn in Hone. split; intros Hgaps.
  - rewrite (burst_within gaps _ tail Hone Hgaps Htail). now rewrite Hn, Hnot.
  - rewrite (burst_beyond gaps _ tail Hone Hgaps Htail).
    rewrite Hn, Hnot, length_map, callInstants_length. auto.
Qed.

Lemma refresh_debounce_witness :
  notifications
    (EventLoop.wait 100
       (EventLoop.play (EventLoop.refreshCalls [10; 99; 50]%nat)
          (EventLoop.refresh (EventLoop.boot 0))))
  = [259%nat]
  /\ notifications
       (EventLoop.wait 100
          (EventLoop.play (EventLoop.refreshCalls [101; 250]%nat)
             (EventLoop.refresh (EventLoop.boot 0))))
     = [100; 201; 451]%nat.
Proof.
  split.
  - apply (proj1 (refresh_debounce (EventLoop.boot 0) [10; 99; 50]%nat 100
                    eq_refl (Nat.le_refl 100))).
    repeat constructor; lia.
  - apply (proj2 (refresh_debounce (EventLoop.boot 0) [101; 250]%nat 100
                    eq_refl (Nat.le_refl 100))).
    repeat constructor; lia.
Defined.

(** ** Well-formed timer lists *)

Lemma refresh_pending_in w t :
  In t (pending (EventLoop.refresh w)) ->
  In t (pending w)
  \/ t = {| handle := nextHandle w; due := (now w + 100)%nat; action := FireChange |}.
Proof.
  intros Hin.
  destruct (refresh_pending w) as (kept & E & [->|(h & _ & ->)]); rewrite E in Hin;
    apply in_app_or in Hin as [Hin|[<-|[]]]; auto.
  apply filter_In in Hin. tauto.
Qed.

Lemma wf_add (w w' : World) kept timer :
  WellFormed w ->
  pending w' = (kept ++ [timer])%list ->
  (forall t, In t kept -> In t (pending w)) ->
  List.NoDup (map handle kept) ->
  handle timer = nextHandle w ->
  nextHandle w' = S (nextHandle w) ->
  (forall t, In t kept -> isFilterTimer t -> searchTimeout (self w') = Some (handle t)) ->
  (isFilterTimer timer -> searchTimeout (self w') = Some (handle timer)) ->
  WellFormed w'.
Proof.
  intros (Hnd & Hb & Ho) Hp Hsub Hk Hh Hn Hok Hot. unfold WellFormed. rewrite Hp, Hn.
  split; [|split].
  - rewrite map_app. simpl. apply NoDup_snoc; [exact Hk|].
    intros Hin. apply in_map_iff in Hin as (t & Ht & Hin).
    specialize (Hb t (Hsub t Hin)). lia.
  - intros t Hin. apply in_app_or in Hin as [Hin|[<-|[]]].
    + specialize (Hb t (Hsub t Hin)). lia.
    + lia.
  - intros t Hin Hf. apply in_app_or in Hin as [Hin|[<-|[]]]; auto.
Qed.

Lemma wf_shrink (w w' : World) f :
  WellFormed w ->
  pending w' = List.filter f (pending w) ->
  nextHandle w' = nextHandle w ->
  searchTimeout (self w') = searchTimeout (self w) ->
  WellFormed w'.
Proof.
  intros (Hnd & Hb & Ho) Hp Hn Hs. unfold WellFormed. rewrite Hp, Hn, Hs.
  split; [|split].
  - now apply NoDup_map_filter.
  - intros t Hin. apply filter_In in Hin. now apply Hb.
  - intros t Hin. apply filter_In in Hin. now apply Ho.
Qed.

Lemma wf_refresh w : WellFormed w -> WellFormed (EventLoop.refresh w).
Proof.
  intros Hw. pose proof Hw as (Hnd & Hb & Ho).
  pose proof (refresh_fields w) as (_ & _ & Hn & _ & Hs & _).
  destruct (refresh_pending w) as (kept & E & Hk).
  assert (Hsub : forall t, In t kept -> In t (pending w)).
  { destruct Hk as [->|(h & _ & ->)]; [auto|]. intros t Hin.
    apply filter_In in Hin. tauto. }
  apply (wf_add w _ kept _ Hw E Hsub); auto.
  - destruct Hk as [->|(h & _ & ->)]; [exact Hnd|now apply NoDup_map_filter].
  - intros t Hin Hf. rewrite Hs. apply Ho; auto.
  - intros (f & Hf). discriminate.
Qed.

Lemma setSearchFilter_pending filter w :
  WellFormed w ->
  exists kept,
    pending (EventLoop.setSearchFilter filter w)
    = (kept ++ [{| handle := nextHandle w; due := (now w + 300)%nat;
                   action := ApplyFilter filter |}])%list
    /\ (forall t, In t kept -> In t (pending w) /\ ~ isFilterTimer t)
    /\ List.NoDup (map handle kept).
Proof.
  intros (Hnd & Hb & Ho). unfold EventLoop.setSearchFilter, EventLoop.clearTimeout.
  destruct (searchTimeout (self w)) as [h|] eqn:S; simpl.
  - eexists. split; [reflexivity|]. split; [|now apply NoDup_map_filter].
    intros t Hin. apply filter_In in Hin as [Hin Hh]. split; [exact Hin|].
    intros Hf. specialize (Ho t Hin Hf). injection Ho as ->.
    rewrite Nat.eqb_refl in Hh. discriminate.
  - eexists. split; [reflexivity|]. split; [|exact Hnd].
    intros t Hin. split; [exact Hin|]. intros Hf. specialize (Ho t Hin Hf). discriminate.
Qed.

Lemma setSearchFilter_fields filter w :
  now (EventLoop.setSearchFilter filter w) = now w
  /\ nextHandle (EventLoop.setSearchFilter filter w) = S (nextHandle w)
  /\ searchFilter (self (EventLoop.setSearchFilter filter w)) = searchFilter (self w)
  /\ searchTimeout (self (EventLoop.setSearchFilter filter w)) = Some (nextHandle w).
Proof.
  unfold EventLoop.setSearchFilter. destruct (searchTimeout (self w)); simpl; auto.
Qed.

Lemma wf_setSearchFilter filter w :
  WellFormed w -> WellFormed (EventLoop.setSearchFilter filter w).
Proof.
  intros Hw. destruct (setSearchFilter_pending filter w Hw) as (kept & E & Hk & Hnd).
  pose proof (setSearchFilter_fields filter w) as (_ & Hn & _ & Hs).
  apply (wf_add w _ kept _ Hw E); auto.
  - intros t Hin. now apply Hk.
  - intros t Hin Hf. destruct (Hk t Hin) as [_ Hno]. contradiction.
Qed.

Lemma wf_fire t w : WellFormed w -> WellFormed (EventLoop.fire t w).
Proof.
  intros Hw.
  assert (Hx : WellFormed
                 (EventLoop.setNow (EventLoop.clearTimeout (handle t) w)
                    (Nat.max (now w) (due t))))
    by (apply (wf_shrink w _ (fun u => negb (handle u =? handle t)%nat) Hw); reflexivity).
  unfold EventLoop.fire, EventLoop.runCallback. destruct (action t).
  - exact Hx.
  - apply wf_refresh. exact Hx.
Qed.

Lemma wf_run fuel target w : WellFormed w -> WellFormed (EventLoop.run fuel target w).
Proof.
  revert w. induction fuel as [|fuel IH]; intros w Hw; simpl; [exact Hw|].
  destruct (EventLoop.nextDue target (pending w)); [|exact Hw].
  apply IH. now apply wf_fire.
Qed.

Lemma wf_wait delay w : WellFormed w -> WellFormed (EventLoop.wait delay w).
Proof.
  intros Hw. unfold EventLoop.wait, EventLoop.advanceTo.
  exact (wf_run _ _ w Hw).
Qed.

Lemma wf_play session : forall w, WellFormed w -> WellFormed (EventLoop.play session w).
Proof.
  induction session as [|[delay c] session IH]; intros w Hw; simpl; [exact Hw|].
  apply IH. destruct c; simpl.
  - apply wf_refresh. now apply wf_wait.
  - apply wf_setSearchFilter. now apply wf_wait.
Qed.

Lemma wf_boot t0 : WellFormed (EventLoop.boot t0).
Proof.
  unfold WellFormed, EventLoop.boot. simpl. split; [constructor|]. split; intros t [].
Qed.

(** ** Clearing the filter *)

Lemma clearing_start w tail :
  WellFormed w -> (300 <= tail)%nat ->
  Clearing (now w + tail) (EventLoop.setSearchFilter None w).
Proof.
  intros Hw Htail. destruct (setSearchFilter_pending None w Hw) as (kept & E & Hk & _).
  unfold Clearing. rewrite E. split.
  - intros t f Hin Hf. apply in_app_or in Hin as [Hin|[<-|[]]].
    + destruct (Hk t Hin) as [_ Hno]. exfalso. apply Hno. now exists f.
    + simpl in Hf. injection Hf as <-. simpl. split; [reflexivity|lia].
  - right. eexists. split; [apply in_or_app; right; now left|reflexivity].
Qed.

Lemma clearing_fire deadline t w :
  WellFormed w -> Clearing deadline w -> In t (pending w) ->
  Clearing deadline (EventLoop.fire t w).
Proof.
  intros (Hnd & _ & _) [HA HB] Hin.
  unfold EventLoop.fire, EventLoop.runCallback. destruct (action t) as [|f] eqn:A.
  - unfold Clearing. simpl. split.
    + intros u g Hu. apply filter_In in Hu as [Hu _]. now apply HA.
    + destruct HB as [HB|(u & Hu & Au)]; [now left|]. right. exists u.
      split; [|exact Au]. apply filter_In. split; [exact Hu|].
      apply negb_true_iff, Nat.eqb_neq. intros Hh.
      assert (u = t) by (apply (NoDup_map_injective handle (pending w)); auto).
      subst u. congruence.
  - destruct (HA t f Hin A) as [-> _].
    match goal with |- Clearing _ (EventLoop.refresh ?x) => set (y := x) end.
    pose proof (refresh_fields y) as (_ & _ & _ & Hs & _).
    unfold Clearing. split.
    + intros u g Hu Au. apply refresh_pending_in in Hu as [Hu | ->]; [|discriminate].
      simpl in Hu. apply filter_In in Hu as [Hu _]. now apply (HA u g).
    + left. rewrite Hs. reflexivity.
Qed.

Lemma clearing_run deadline fuel target w :
  WellFormed w -> Clearing deadline w ->
  WellFormed (EventLoop.run fuel target w)
  /\ Clearing deadline (EventLoop.run fuel target w).
Proof.
  revert w. induction fuel as [|fuel IH]; intros w Hw Hc; simpl; [auto|].
  destruct (EventLoop.nextDue target (pending w)) as [t|] eqn:E; [|auto].
  apply nextDue_some in E as [Hin _].
  apply IH; [now apply wf_fire|now apply clearing_fire].
Qed.

(** Once the last call has asked to clear the filter and its window has
    passed, the filter is cleared. *)
Lemma filter_cleared w tail :
  WellFormed w -> (300 <= tail)%nat ->
  searchFilter (self (EventLoop.wait tail (EventLoop.setSearchFilter None w))) = None.
Proof.
  intros Hw Htail.
  set (w1 := EventLoop.setSearchFilter None w).
  assert (Hn : now w1 = now w) by apply setSearchFilter_fields.
  pose proof (clearing_start w tail Hw Htail) as Hc. fold w1 in Hc. rewrite <- Hn in Hc.
  unfold EventLoop.wait, EventLoop.advanceTo. simpl.
  set (target := (now w1 + tail)%nat) in *.
  destruct (clearing_run target (EventLoop.weight (pending w1)) target w1
              (wf_setSearchFilter None w Hw) Hc) as [_ [HA HB]].
  destruct HB as [HB|(t & Hin & At)]; [exact HB|].
  pose proof (run_quiescent target (EventLoop.weight (pending w1)) w1 (Nat.le_refl _))
    as Hq.
  pose proof (nextDue_none _ _ Hq t Hin) as Hlate.
  destruct (HA t None Hin At) as [_ Hdue]. lia.
Qed.

(** C7. Whatever calls of [refresh] and [setSearchFilter] a provider has
    seen since it was constructed, once [setSearchFilter(null)] is called
    and its window (300 ms) has passed, the filter is absent and
    [getRootItems] returns, for any store, the nodes of the hierarchical
    projection: the nodes a provider on which no filter was ever set
    returns for that store. *)
Theorem clearing_filter_restores_hierarchy {host : HostStrings}
  (t0 : nat) (session : list (nat * EventLoop.Call)) (gap tail : nat) (m : Memento) :
  (300 <= tail)%nat ->
  exists w,
    w = EventLoop.wait tail
          (EventLoop.setSearchFilter None
             (EventLoop.wait gap (EventLoop.play session (EventLoop.boot t0))))
    /\ searchFilter (self w) = None
    /\ PromptTreeDataProvider.getRootItems (self w) m
       = (Return (rootNodes m, PromptTreeDataProvider.setTreeData (self w) (rootNodes m)), m)
    /\ PromptTreeDataProvider.getRootItems PromptTreeDataProvider.new m
       = (Return (rootNodes m,
                  PromptTreeDataProvider.setTreeData PromptTreeDataProvider.new
                    (rootNodes m)), m).
Proof.
  intros Htail. eexists. split; [reflexivity|].
  assert (Hw : WellFormed
                 (EventLoop.wait gap (EventLoop.play session (EventLoop.boot t0))))
    by (apply wf_wait, wf_play, wf_boot).
  pose proof (filter_cleared _ tail Hw Htail) as Hnone.
  split; [exact Hnone|]. split.
  - apply getRootItems_unfiltered. unfold PromptTreeDataProvider.filterActive.
    now rewrite Hnone.
  - now apply getRootItems_unfiltered.
Qed.

Lemma clearing_filter_restores_hierarchy_witness :
  searchFilter (self Session.beforeClearing) = Some "sort"
  /\ exists w,
       w = EventLoop.wait 300 (EventLoop.setSearchFilter None Session.beforeClearing)
       /\ searchFilter (self w) = None
       /\ PromptTreeDataProvider.getRootItems (host := AsciiHost.host) (self w)
            Example.store
          = (Return (rootNodes Example.store,
                     PromptTreeDataProvider.setTreeData (self w)
                       (rootNodes Example.store)),
             Example.store).
Proof.
  split; [vm_compute; reflexivity|].
  destruct (clearing_filter_restores_hierarchy (host := AsciiHost.host)
              0 Session.calls 10 300 Example.store (Nat.le_refl 300))
    as (w & E & Hnone & Hroot & _).
  exists w. auto.
Defined.

(** * Further properties of the repository *)

(** ** Looking up what was saved *)

Section UpsertLookup.
Context {A : Type} (key : A -> string).

Lemma find_app_none (f : A -> bool) l k :
  (forall y, In y l -> f y = false) -> List.find f (l ++ k) = List.find f k.
Proof.
  induction l as [|a l IH]; simpl; intros H; [reflexivity|].
  rewrite (H a (or_introl eq_refl)). apply IH. intros y Hy. apply H. now right.
Qed.

Lemma find_skip (f : A -> bool) l1 x y l2 :
  f x = false -> f y = false ->
  List.find f (l1 ++ x :: l2) = List.find f (l1 ++ y :: l2).
Proof.
  intros Hx Hy. induction l1 as [|a l1 IH]; simpl.
  - now rewrite Hx, Hy.
  - now rewrite IH.
Qed.

Lemma find_none_iff (f : A -> bool) l :
  List.find f l = None <-> (forall y, In y l -> f y = false).
Proof.
  split; [apply find_none|].
  induction l as [|a l IH]; simpl; intros H; [reflexivity|].
  rewrite (H a (or_introl eq_refl)). apply IH. intros y Hy. apply H. now right.
Qed.

Lemma upsert_shape l x x' :
  (exists l1 y l2,
      l = (l1 ++ y :: l2)%list /\ key y = key x /\
      (forall z, In z l1 -> (key z =? key x)%string = false) /\
      upsert key l x x' = (l1 ++ x :: l2)%list)
  \/ ((forall z, In z l -> (key z =? key x)%string = false) /\
      upsert key l x x' = (l ++ [x'])%list).
Proof.
  unfold upsert. set (f := fun y => (key y =? key x)%string).
  destruct (0 <=? Js.findIndex f l) eqn:E.
  - apply Z.leb_le in E.
    destruct (findIndex_found f l E) as (l1 & y & l2 & Hl & Fy & Hl1 & Hi).
    left. exists l1, y, l2. rewrite Hi. rewrite Hl at 2. rewrite setAt_middle.
    apply String.eqb_eq in Fy. auto.
  - apply Z.leb_gt in E. right. split; [|reflexivity].
    exact (proj1 (findIndex_absent f l) E).
Qed.

Lemma find_upsert l x k :
  List.find (fun y => (key y =? k)%string) (upsert key l x x)
  = if (key x =? k)%string then Some x
    else List.find (fun y => (key y =? k)%string) l.
Proof.
  destruct (upsert_shape l x x) as [(l1 & y & l2 & -> & Ky & Hl1 & ->)|[Hl ->]].
  - destruct (key x =? k)%string eqn:K.
    + apply String.eqb_eq in K. subst k.
      rewrite find_app_none by exact Hl1. simpl. now rewrite String.eqb_refl.
    + apply find_skip; [exact K|now rewrite Ky].
  - destruct (key x =? k)%string eqn:K.
    + apply String.eqb_eq in K. subst k.
      rewrite find_app_none by exact Hl. simpl. now rewrite String.eqb_refl.
    + clear Hl. induction l as [|a l IH]; simpl.
      * now rewrite K.
      * destruct (key a =? k)%string; [reflexivity|exact IH].
Qed.

Lemma findIndex_first (f : A -> bool) l1 x l2 :
  (forall y, In y l1 -> f y = false) -> f x = true ->
  Js.findIndex f (l1 ++ x :: l2) = Z.of_nat (length l1).
Proof.
  intros Hl1 Hx. induction l1 as [|a l1 IH]; simpl.
  - now rewrite Hx.
  - rewrite (Hl1 a (or_introl eq_refl)).
    rewrite IH by (intros y Hy; apply Hl1; now right).
    destruct (Z.of_nat (length l1) <? 0) eqn:E; [apply Z.ltb_lt in E; lia|lia].
Qed.

Lemma upsert_idempotent l x : upsert key (upsert key l x x) x x = upsert key l x x.
Proof.
  destruct (upsert_shape l x x) as [(l1 & y & l2 & _ & _ & Hl1 & ->)|[Hl ->]].
  - unfold upsert.
    rewrite (findIndex_first _ l1 x l2 Hl1) by apply String.eqb_refl.
    assert (H : (0 <=? Z.of_nat (length l1)) = true) by (apply Z.leb_le; lia).
    rewrite H. apply setAt_middle.
  - unfold upsert.
    rewrite (findIndex_first _ l x [] Hl) by apply String.eqb_refl.
    assert (H : (0 <=? Z.of_nat (length l)) = true) by (apply Z.leb_le; lia).
    rewrite H. apply setAt_middle.
Qed.

(** Saving a record that is stored already, under distinct keys, changes
    nothing. *)
Lemma upsert_stored l x :
  List.NoDup (map key l) -> In x l -> upsert key l x x = l.
Proof.
  intros Hnd Hin. unfold upsert. set (f := fun y => (key y =? key x)%string).
  assert (E : 0 <= Js.findIndex f l).
  { apply (In_ids_findIndex key l (key x)). now apply in_map. }
  pose proof E as E'. apply Z.leb_le in E'. rewrite E'.
  destruct (findIndex_found f l E) as (l1 & y & l2 & Hl & Fy & Hl1 & ->).
  apply String.eqb_eq in Fy.
  assert (y = x).
  { apply (NoDup_map_injective key l); auto. rewrite Hl. apply in_or_app. right. now left. }
  subst y. rewrite Hl at 1. rewrite setAt_middle. now symmetry.
Qed.

Lemma fold_upsert_stored xs l :
  List.NoDup (map key l) -> (forall x, In x xs -> In x l) ->
  fold_left (fun acc x => upsert key acc x x) xs l = l.
Proof.
  intros Hnd. induction xs as [|x xs IH]; simpl; intros Hsub; [reflexivity|].
  rewrite upsert_stored; auto.
Qed.

Lemma fold_upsert_keys_prefix (g : list A -> A -> A) xs : forall l,
  (forall l x, key (g l x) = key x) ->
  exists extra,
    map key (fold_left (fun acc x => upsert key acc x (g acc x)) xs l)
    = (map key l ++ extra)%list.
Proof.
  induction xs as [|x xs IH]; simpl; intros l Hg.
  - exists []. now rewrite app_nil_r.
  - destruct (IH (upsert key l x (g l x)) Hg) as (extra & ->).
    destruct (upsert_keys key l x (g l x) (Hg l x)) as [[_ ->]|[_ ->]].
    + now exists extra.
    + exists (key x :: extra). now rewrite <- app_assoc.
Qed.
End UpsertLookup.

(** X1. After [savePrompt(p)] on a store that accepts the write,
    [getPrompt(id)] returns [p] for the id of [p] and, for every other id,
    what it returned before. *)
Theorem getPrompt_after_savePrompt (p : PromptItem) (id : string) (m : Memento) :
  updateFault m PROMPTS = None ->
  exists m',
    StorageService.savePrompt p m = (Return tt, m')
    /\ fst (StorageService.getPrompt id m')
       = (if (PromptItem.id p =? id)%string then Return (Some p)
          else fst (StorageService.getPrompt id m))
    /\ categoriesOf m' = categoriesOf m.
Proof.
  intros HF. rewrite savePrompt_run, (updatePrompts_ok _ _ HF).
  eexists. split; [reflexivity|]. split; [|reflexivity].
  rewrite !getPrompt_run. simpl. unfold Js.find.
  change (promptsOf (withPrompts m (upsert PromptItem.id (promptsOf m) p p)))
    with (upsert PromptItem.id (promptsOf m) p p).
  rewrite find_upsert. now destruct (PromptItem.id p =? id)%string.
Qed.

Lemma getPrompt_after_savePrompt_witness :
  exists m',
    StorageService.savePrompt Example.p2 Example.store = (Return tt, m')
    /\ fst (StorageService.getPrompt "p2" m') = Return (Some Example.p2)
    /\ categoriesOf m' = categoriesOf Example.store.
Proof.
  exact (getPrompt_after_savePrompt Example.p2 "p2" Example.store eq_refl).
Defined.

(** X2. Saving the same prompt a second time has the outcome of the first
    call and leaves the store as the first call left it. *)
Theorem savePrompt_twice (p : PromptItem) (m : Memento) :
  StorageService.savePrompt p (snd (StorageService.savePrompt p m))
  = (fst (StorageService.savePrompt p m), snd (StorageService.savePrompt p m)).
Proof.
  rewrite !savePrompt_run. unfold updatePrompts at 2 3.
  destruct (updateFault m PROMPTS) as [msg|] eqn:HF; simpl.
  - now rewrite (updatePrompts_fault _ _ _ HF).
  - unfold updatePrompts. simpl. rewrite HF. unfold promptsOf at 1. simpl.
    now rewrite upsert_idempotent.
Qed.

(** ** Updating a category *)

(** X3. [updateCategory(c)] throws the not-found error and leaves the store
    as it was when no stored category has the id of [c].  When one has, the
    call does what [saveCategory(c)] does: on a store that accepts the
    write, the first record with the id is replaced by [c] as given, and
    the records around it are untouched. *)
Theorem updateCategory_replaces (c : PromptCategory) (m : Memento) :
  ((forall c', In c' (categoriesOf m) -> PromptCategory.id c' <> PromptCategory.id c) ->
   StorageService.updateCategory c m
   = (Throw (StorageService.categoryNotFound (PromptCategory.id c)), m))
  /\
  (In (PromptCategory.id c) (categoryIds m) ->
   (forall now, StorageService.updateCategory c m = StorageService.saveCategory now c m)
   /\ (updateFault m CATEGORIES = None ->
       exists before old after,
         categoriesOf m = (before ++ old :: after)%list /\
         PromptCategory.id old = PromptCategory.id c /\
         (forall c', In c' before -> PromptCategory.id c' <> PromptCategory.id c) /\
         StorageService.updateCategory c m
         = (Return tt, withCategories m (before ++ c :: after)%list))).
Proof.
  rewrite updateCategory_run. cbv zeta.
  set (f := fun c' => (PromptCategory.id c' =? PromptCategory.id c)%string).
  split.
  - intros Hnone.
    assert (E : Js.findIndex f (categoriesOf m) < 0).
    { apply findIndex_absent. intros c' Hc'. apply String.eqb_neq. now apply Hnone. }
    apply Z.ltb_lt in E. now rewrite E.
  - intros Hin. pose proof (In_ids_findIndex PromptCategory.id _ _ Hin) as E.
    fold f in E. pose proof E as E'. apply Z.ltb_ge in E'. rewrite E'. split.
    + intros now. rewrite saveCategory_run. unfold upsert. fold f.
      apply Z.leb_le in E. now rewrite E.
    + intros HF. destruct (findIndex_found f _ E) as (l1 & y & l2 & Hl & Fy & Hl1 & Hi).
      exists l1, y, l2. split; [exact Hl|]. split; [now apply String.eqb_eq|].
      split; [intros c' Hc'; apply String.eqb_neq; now apply Hl1|].
      rewrite Hi, Hl, setAt_middle. now apply updateCategories_ok.
Qed.

Lemma updateCategory_replaces_witness :
  StorageService.updateCategory BlankId.nameless Example.store
  = (Throw (StorageService.categoryNotFound ""), Example.store)
  /\ StorageService.updateCategory Example.programming Example.store
     = StorageService.saveCategory 0 Example.programming Example.store.
Proof.
  split.
  - apply (proj1 (updateCategory_replaces BlankId.nameless Example.store)).
    intros c' [<-|[]]. discriminate.
  - apply (proj2 (updateCategory_replaces Example.programming Example.store)).
    now left.
Defined.

(** ** Batch save *)

Lemma promptsOf_savePrompt p m :
  updateFault m PROMPTS = None ->
  promptsOf (snd (StorageService.savePrompt p m)) = upsert PromptItem.id (promptsOf m) p p
  /\ updateFault (snd (StorageService.savePrompt p m)) = updateFault m
  /\ categoriesSlot (snd (StorageService.savePrompt p m)) = categoriesSlot m.
Proof.
  intros HF. rewrite savePrompt_run, (updatePrompts_ok _ _ HF). auto.
Qed.

Lemma fold_savePrompt ps : forall m,
  updateFault m PROMPTS = None ->
  promptsOf (fold_left (fun m p => snd (StorageService.savePrompt p m)) ps m)
  = fold_left (fun acc x => upsert PromptItem.id acc x x) ps (promptsOf m)
  /\ categoriesSlot (fold_left (fun m p => snd (StorageService.savePrompt p m)) ps m)
     = categoriesSlot m.
Proof.
  induction ps as [|p ps IH]; simpl; intros m HF; [auto|].
  destruct (promptsOf_savePrompt p m HF) as (Hp & Hu & Hc).
  destruct (IH (snd (StorageService.savePrompt p m))) as [H1 H2].
  - now rewrite Hu.
  - now rewrite H1, H2, Hp, Hc.
Qed.

(** X4. On a store that accepts the write, [savePrompts(ps)] reports
    success with the number of prompts given and leaves the prompts that
    saving the elements of [ps] one after the other with [savePrompt] leaves;
    the categories are not touched. *)
Theorem savePrompts_as_savePrompt_sequence (ps : list PromptItem) (m : Memento) :
  updateFault m PROMPTS = None ->
  fst (StorageService.savePrompts ps m)
  = Return (StorageService.batchSaved (length ps))
  /\ promptsOf (snd (StorageService.savePrompts ps m))
     = promptsOf (fold_left (fun m p => snd (StorageService.savePrompt p m)) ps m)
  /\ categoriesSlot (snd (StorageService.savePrompts ps m)) = categoriesSlot m.
Proof.
  intros HF. rewrite savePrompts_run, HF. simpl.
  destruct (fold_savePrompt ps m HF) as [-> _]. auto.
Qed.

Lemma savePrompts_as_savePrompt_sequence_witness :
  promptsOf (snd (StorageService.savePrompts [Example.p2; GuideByTitle.guide]
                    Example.store))
  = promptsOf
      (snd (StorageService.savePrompt GuideByTitle.guide
              (snd (StorageService.savePrompt Example.p2 Example.store)))).
Proof.
  exact (proj1 (proj2 (savePrompts_as_savePrompt_sequence
                         [Example.p2; GuideByTitle.guide] Example.store eq_refl))).
Defined.

(** X5. [savePrompts] never removes a prompt: the ids stored before are
    still stored, in the same places, whatever is saved.  In particular,
    with pairwise distinct ids, saving back any selection of the stored
    prompts - which is how the manager "deletes completely" - leaves the
    stored prompts exactly as they were. *)
Theorem savePrompts_never_removes (ps : list PromptItem) (m : Memento) :
  (exists added, promptIds (snd (StorageService.savePrompts ps m))
                 = (promptIds m ++ added)%list)
  /\ (List.NoDup (promptIds m) ->
      forall keep : PromptItem -> bool,
        promptsOf (snd (StorageService.savePrompts (Js.filter keep (promptsOf m)) m))
        = promptsOf m).
Proof.
  split.
  - rewrite savePrompts_run. destruct (updateFault m PROMPTS); simpl.
    + exists []. now rewrite app_nil_r.
    + apply (fold_upsert_keys_prefix PromptItem.id (fun _ x => x)). auto.
  - intros Hnd keep. rewrite savePrompts_run.
    destruct (updateFault m PROMPTS); simpl; [reflexivity|].
    change (promptsOf (withPrompts m ?v)) with v.
    apply fold_upsert_stored; [exact Hnd|].
    intros x Hx. apply filter_In in Hx. tauto.
Qed.

Lemma savePrompts_never_removes_witness :
  promptsOf
    (snd (StorageService.savePrompts
            (Js.filter (fun p => negb (PromptItem.id p =? "p2")%string)
               (promptsOf Example.store))
            Example.store))
  = [Example.p1; Example.p2].
Proof.
  apply (proj2 (savePrompts_never_removes [] Example.store)).
  cbv. repeat constructor; simpl; intuition discriminate.
Defined.

(** ** Statistics *)

Lemma mapGet_mapSet_same k v entries :
  StorageService.mapGet k (StorageService.mapSet k v entries) = Some v.
Proof.
  induction entries as [|[k' v'] l IH]; simpl.
  - now rewrite String.eqb_refl.
  - destruct (k' =? k)%string eqn:E; simpl; rewrite E; [reflexivity|exact IH].
Qed.

Lemma mapGet_mapSet_other k k' v entries :
  k' <> k ->
  StorageService.mapGet k' (StorageService.mapSet k v entries)
  = StorageService.mapGet k' entries.
Proof.
  intros Hne. induction entries as [|[k0 v0] l IH]; simpl.
  - apply String.eqb_neq in Hne. rewrite String.eqb_sym. now rewrite Hne.
  - destruct (k0 =? k)%string eqn:E; simpl.
    + apply String.eqb_eq in E. subst k0.
      assert (E' : (k =? k')%string = false) by (apply String.eqb_neq; congruence).
      now rewrite E'.
    + now rewrite IH.
Qed.

Lemma mapSet_keys k v entries :
  map fst (StorageService.mapSet k v entries)
  = match StorageService.mapGet k entries with
    | Some _ => map fst entries
    | None => (map fst entries ++ [k])%list
    end.
Proof.
  induction entries as [|[k0 v0] l IH]; simpl; [reflexivity|].
  destruct (k0 =? k)%string eqn:E; simpl; [reflexivity|].
  rewrite IH. now destruct (StorageService.mapGet k l).
Qed.

Lemma mapGet_none_keys k entries :
  StorageService.mapGet k entries = None -> ~ In k (map fst entries).
Proof.
  induction entries as [|[k0 v0] l IH]; simpl; [tauto|].
  destruct (k0 =? k)%string eqn:E; [discriminate|].
  apply String.eqb_neq in E. intros H [H'|H']; [contradiction|now apply IH].
Qed.

Lemma mapGet_In k v entries :
  List.NoDup (map fst entries) ->
  (In (k, v) entries <-> StorageService.mapGet k entries = Some v).
Proof.
  induction entries as [|[k0 v0] l IH]; simpl; intros Hnd.
  - split; [tauto|discriminate].
  - inversion Hnd as [|? ? Hk Hl]; subst.
    destruct (k0 =? k)%string eqn:E.
    + apply String.eqb_eq in E. subst k0. split.
      * intros [[= ->]|Hin]; [reflexivity|].
        exfalso. apply Hk. apply in_map_iff. now exists (k, v).
      * intros [= ->]. now left.
    + apply String.eqb_neq in E. rewrite <- (IH Hl). split.
      * intros [[= -> _]|Hin]; [contradiction|exact Hin].
      * intros Hin. now right.
Qed.

(** The number of prompts of a list filed under a category id. *)
Lemma tally_count_app k (l : list PromptItem) p :
  length (List.filter (fun q => Js.optIs (PromptItem.categoryId q) k) (l ++ [p]))
  = (length (List.filter (fun q => Js.optIs (PromptItem.categoryId q) k) l)
     + if Js.optIs (PromptItem.categoryId p) k then 1 else 0)%nat.
Proof.
  rewrite List.filter_app, length_app. simpl.
  now destruct (Js.optIs (PromptItem.categoryId p) k).
Qed.

(** What the counting loop of [getStats] maintains over the prompts seen so
    far. *)
Lemma tally_invariant (prompts : list PromptItem) : forall seen acc,
  List.NoDup (map fst acc) ->
  (forall k,
      StorageService.mapGet k acc
      = let n := length (List.filter (fun q => Js.optIs (PromptItem.categoryId q) k) seen) in
        if Js.truthy k && (0 <? n)%nat then Some n else None) ->
  let acc' := fold_left StorageService.countCategory prompts acc in
  List.NoDup (map fst acc')
  /\ forall k,
       StorageService.mapGet k acc'
       = let n := length (List.filter (fun q => Js.optIs (PromptItem.categoryId q) k)
                            (seen ++ prompts)) in
         if Js.truthy k && (0 <? n)%nat then Some n else None.
Proof.
  induction prompts as [|p prompts IH]; intros seen acc Hnd Hget; simpl.
  - rewrite app_nil_r. auto.
  - replace (seen ++ p :: prompts)%list with ((seen ++ [p]) ++ prompts)%list
      by now rewrite <- app_assoc.
    apply IH.
    + unfold StorageService.countCategory.
      destruct (PromptItem.categoryId p) as [c|]; [|exact Hnd].
      destruct (Js.truthy c); [|exact Hnd].
      rewrite mapSet_keys. destruct (StorageService.mapGet c acc) eqn:G; [exact Hnd|].
      apply NoDup_snoc; [exact Hnd|now apply mapGet_none_keys].
    + intros k. cbv zeta. rewrite tally_count_app.
      unfold StorageService.countCategory.
      destruct (PromptItem.categoryId p) as [c|] eqn:Cp; simpl.
      * destruct (Js.truthy c) eqn:T.
        -- destruct (c =? k)%string eqn:E.
           ++ apply String.eqb_eq in E. subst k. rewrite mapGet_mapSet_same.
              rewrite (Hget c). cbv zeta. rewrite T. simpl.
              destruct (length _) as [|n]; simpl; try reflexivity.
              all: try (f_equal; lia).
           ++ apply String.eqb_neq in E.
              rewrite mapGet_mapSet_other by congruence.
              rewrite (Hget k). cbv zeta. now rewrite Nat.add_0_r.
        -- rewrite (Hget k). cbv zeta.
           destruct (c =? k)%string eqn:E.
           ++ apply String.eqb_eq in E. subst k. now rewrite T.
           ++ now rewrite Nat.add_0_r.
      * rewrite (Hget k). cbv zeta. now rewrite Nat.add_0_r.
Qed.

Lemma referenceCount_bool m k :
  length (List.filter (fun q => Js.optIs (PromptItem.categoryId q) k) (promptsOf m))
  = referenceCount m k.
Proof.
  unfold referenceCount. rewrite (filter_decide _ (RefersTo k)); [reflexivity|].
  intros p. apply optIs_true.
Qed.

Lemma referenceCount_positive m k :
  (0 < referenceCount m k)%nat <-> exists p, In p (promptsOf m) /\ RefersTo k p.
Proof.
  rewrite <- referenceCount_bool. split.
  - intros H. destruct (List.filter _ (promptsOf m)) as [|p l] eqn:E; [simpl in H; lia|].
    assert (Hin : In p (List.filter (fun q => Js.optIs (PromptItem.categoryId q) k)
                          (promptsOf m))) by (rewrite E; now left).
    apply filter_In in Hin as [Hin Hp]. exists p. split; [exact Hin|now apply optIs_true].
  - intros (p & Hin & Hp).
    assert (Hf : In p (List.filter (fun q => Js.optIs (PromptItem.categoryId q) k)
                         (promptsOf m))) by (apply filter_In; split; [exact Hin|now apply optIs_true]).
    destruct (List.filter _ (promptsOf m)); [contradiction|simpl; lia].
Qed.

(** The tally [getStats] sorts: one entry per referenced id, with its
    count. *)
Lemma tally_spec m :
  let tally := fold_left StorageService.countCategory (promptsOf m) [] in
  List.NoDup (map fst tally)
  /\ forall k n, In (k, n) tally <-> Referenced m k /\ n = referenceCount m k.
Proof.
  cbv zeta.
  destruct (tally_invariant (promptsOf m) [] []) as [Hnd Hget];
    [constructor|intros k; simpl; now rewrite andb_false_r|].
  split; [exact Hnd|]. intros k n. rewrite (mapGet_In k n _ Hnd), (Hget k).
  simpl. rewrite referenceCount_bool. unfold Referenced.
  rewrite <- referenceCount_positive.
  destruct (Js.truthy k) eqn:T; simpl.
  - assert (k <> "") by (intros ->; discriminate).
    destruct (0 <? referenceCount m k)%nat eqn:P.
    + apply Nat.ltb_lt in P. split; [intros [= <-]; auto|]. intros [_ ->]. reflexivity.
    + apply Nat.ltb_ge in P. split; [discriminate|]. intros [[_ H'] _]. lia.
  - apply truthy_false in T. subst k. split; [discriminate|]. intros [[H _] _]. contradiction.
Qed.

Lemma StronglySorted_app_cross {A} (R : A -> A -> Prop) l k :
  StronglySorted R (l ++ k) -> forall x y, In x l -> In y k -> R x y.
Proof.
  induction l as [|a l IH]; simpl; intros H x y Hx Hy; [contradiction|].
  inversion H as [|? ? Hs Hf]; subst. destruct Hx as [<-|Hx].
  - rewrite List.Forall_forall in Hf. apply Hf. apply in_or_app. now right.
  - now apply IH.
Qed.

Lemma StronglySorted_app_l {A} (R : A -> A -> Prop) l k :
  StronglySorted R (l ++ k) -> StronglySorted R l.
Proof.
  induction l as [|a l IH]; simpl; intros H; [constructor|].
  inversion H as [|? ? Hs Hf]; subst. constructor; [now apply IH|].
  rewrite List.Forall_forall in *. intros x Hx. apply Hf. apply in_or_app. now left.
Qed.

Lemma StronglySorted_map {A B} (R : A -> A -> Prop) (S : B -> B -> Prop) (f : A -> B) l :
  (forall a b, In a l -> In b l -> R a b -> S (f a) (f b)) ->
  StronglySorted R l -> StronglySorted S (map f l).
Proof.
  intros HRS H. induction H as [|a l Hs IH Hf]; simpl; constructor.
  - apply IH. intros x y Hx Hy. apply HRS; now right.
  - rewrite List.Forall_forall in *. intros y Hy.
    apply in_map_iff in Hy as (b & <- & Hb). apply HRS; [now left|now right|now apply Hf].
Qed.

(** X6. [getStats] never throws and leaves the store alone.  It reports the
    numbers of prompts and categories the readers return, and as top
    categories at most five ids without repetition, each one non-empty and
    named by some stored prompt (it need not be the id of a stored
    category), in order of decreasing number of prompts; an id named by a
    prompt is left out only when five ids are listed, each with at least as
    many prompts. *)
Theorem getStats_top_categories (m : Memento) :
  exists stats,
    StorageService.getStats m = (Return stats, m)
    /\ totalPrompts stats = length (promptsOf m)
    /\ totalCategories stats = length (categoriesOf m)
    /\ (length (topCategories stats) <= 5)%nat
    /\ List.NoDup (topCategories stats)
    /\ (forall k, In k (topCategories stats) -> Referenced m k)
    /\ StronglySorted (fun a b => (referenceCount m b <= referenceCount m a)%nat)
         (topCategories stats)
    /\ (forall k, Referenced m k -> ~ In k (topCategories stats) ->
          length (topCategories stats) = 5%nat
          /\ forall k', In k' (topCategories stats) ->
                        (referenceCount m k <= referenceCount m k')%nat).
Proof.
  unfold StorageService.getStats, tryCatch.
  rewrite bind_getPrompts, bind_getCategories. cbv zeta. unfold ret.
  eexists. split; [reflexivity|]. simpl.
  destruct (tally_spec m) as [Hnd Hin]. cbv zeta in Hnd, Hin.
  set (tally := fold_left StorageService.countCategory (promptsOf m) []) in *.
  set (sorted := Js.sort StorageService.byCountDescending tally).
  assert (Hperm : Permutation tally sorted) by apply sort_perm.
  assert (Hsorted : StronglySorted
                      (fun a b => StorageService.byCountDescending a b <= 0) sorted).
  { apply sort_sorted; unfold StorageService.byCountDescending; intros; lia. }
  assert (Hin' : forall k n, In (k, n) sorted <-> Referenced m k /\ n = referenceCount m k).
  { intros k n. rewrite <- Hin. split; apply Permutation_in;
      [now apply Permutation_sym|exact Hperm]. }
  assert (Hsplit : sorted = (take 5 sorted ++ drop 5 sorted)%list)
    by (symmetry; apply firstn_skipn).
  assert (Hnd' : List.NoDup (map fst (take 5 sorted) ++ map fst (drop 5 sorted))).
  { rewrite <- map_app, <- Hsplit.
    apply (Permutation_NoDup (l := map fst tally)); [now apply Permutation_map|exact Hnd]. }
  assert (Htake : forall e, In e (take 5 sorted) -> In e sorted).
  { intros e He. rewrite Hsplit. apply in_or_app. now left. }
  repeat match goal with |- _ /\ _ => split end; try reflexivity.
  - rewrite length_map. apply firstn_le_length.
  - now apply NoDup_app_remove_r in Hnd'.
  - intros k Hk. apply in_map_iff in Hk as ([k' n] & <- & He).
    apply Htake in He. now apply Hin' in He.
  - rewrite Hsplit in Hsorted. apply StronglySorted_app_l in Hsorted.
    revert Hsorted. apply StronglySorted_map.
    intros [ka na] [kb nb] Ha Hb. apply Htake, Hin' in Ha, Hb.
    destruct Ha as [_ ->], Hb as [_ ->].
    unfold StorageService.byCountDescending. simpl. lia.
  - intros k Hk Hout.
    assert (He : In (k, referenceCount m k) sorted) by (apply Hin'; auto).
    rewrite Hsplit in He. apply in_app_or in He as [He|He].
    { exfalso. apply Hout. apply in_map_iff. now exists (k, referenceCount m k). }
    split.
    + rewrite length_map. apply firstn_length_le.
      destruct (le_lt_dec 5 (length sorted)) as [Hl|Hl]; [exact Hl|].
      rewrite skipn_all2 in He by lia. contradiction.
    + intros k' Hk'. apply in_map_iff in Hk' as ([k0 n0] & <- & He').
      rewrite Hsplit in Hsorted.
      pose proof (StronglySorted_app_cross _ _ _ Hsorted _ _ He' He) as Hc.
      apply Htake, Hin' in He' as [_ ->].
      unfold StorageService.byCountDescending in Hc. simpl in *. lia.
Qed.

Lemma getStats_top_categories_witness :
  exists stats,
    StorageService.getStats Tally.store = (Return stats, Tally.store)
    /\ (length (topCategories stats) <= 5)%nat
    /\ topCategories stats = ["programming"; "education"; "gone"]
    /\ totalCategories stats = 1%nat.
Proof.
  destruct (getStats_top_categories Tally.store) as (stats & E & _ & Hc & Hlen & _).
  exists stats. split; [exact E|]. split; [exact Hlen|].
  vm_compute in E. injection E as <-. split; reflexivity.
Defined.

(** ** Loops over the store *)

Lemma forEachAt_steps {A} (P : Memento -> Prop) (body : nat -> A -> Repo unit)
  (step : nat -> A -> Memento -> Memento) xs : forall i m,
  (forall i x m, P m -> body i x m = (Return tt, step i x m) /\ P (step i x m)) ->
  P m ->
  forEachAt i xs body m = (Return tt, foldAt i xs step m) /\ P (foldAt i xs step m).
Proof.
  induction xs as [|x xs IH]; intros i m Hbody Hm; simpl.
  - split; [reflexivity|exact Hm].
  - destruct (Hbody i x m Hm) as [E Hm']. unfold bind. rewrite E. now apply IH.
Qed.

Lemma foldAt_prompts (ps : list PromptItem) : forall i m,
  updateFault m PROMPTS = None ->
  let m' := foldAt i ps (fun _ p m => snd (StorageService.savePrompt p m)) m in
  promptsOf m' = fold_left (fun acc x => upsert PromptItem.id acc x x) ps (promptsOf m)
  /\ categoriesSlot m' = categoriesSlot m
  /\ updateFault m' = updateFault m.
Proof.
  induction ps as [|p ps IH]; intros i m HF; simpl; [auto|].
  destruct (promptsOf_savePrompt p m HF) as (Hp & Hu & Hc).
  destruct (IH (S i) (snd (StorageService.savePrompt p m))) as (H1 & H2 & H3);
    [now rewrite Hu|].
  now rewrite H1, H2, H3, Hp, Hc, Hu.
Qed.

(** The categories a run of saves leaves, as a function of the list. *)
Lemma foldAt_categories (clock : nat -> Z) (cs : list PromptCategory) : forall i m,
  updateFault m CATEGORIES = None ->
  let m' := foldAt i cs (fun i c m => snd (StorageService.saveCategory (clock i) c m)) m in
  categoriesOf m' = mergeCategoriesAt clock i cs (categoriesOf m)
  /\ promptsSlot m' = promptsSlot m
  /\ updateFault m' = updateFault m.
Proof.
  induction cs as [|c cs IH]; intros i m HF; simpl; [auto|].
  assert (E : snd (StorageService.saveCategory (clock i) c m)
              = withCategories m
                  (upsert PromptCategory.id (categoriesOf m) c
                     (StorageService.withDefaults c (clock i) (length (categoriesOf m)))))
    by (rewrite saveCategory_run; now rewrite (updateCategories_ok _ _ HF)).
  rewrite E. destruct (IH (S i) (withCategories m
                  (upsert PromptCategory.id (categoriesOf m) c
                     (StorageService.withDefaults c (clock i) (length (categoriesOf m))))))
    as (H1 & H2 & H3); [exact HF|].
  now rewrite H1, H2, H3.
Qed.

Lemma swallow_savePrompt p m :
  tryCatch (StorageService.savePrompt p) (fun _ => ret tt) m
  = (Return tt, snd (StorageService.savePrompt p m)).
Proof.
  unfold tryCatch. rewrite savePrompt_run. unfold updatePrompts, ret.
  now destruct (updateFault m PROMPTS).
Qed.

Lemma swallow_saveCategory now c m :
  tryCatch (StorageService.saveCategory now c) (fun _ => ret tt) m
  = (Return tt, snd (StorageService.saveCategory now c m)).
Proof.
  unfold tryCatch. rewrite saveCategory_run. unfold updateCategories, ret.
  now destruct (updateFault m CATEGORIES).
Qed.

Lemma copy_prompt (p : PromptItem) :
  {| PromptItem.id := PromptItem.id p;
     PromptItem.title := PromptItem.title p;
     PromptItem.content := PromptItem.content p;
     PromptItem.categoryId := PromptItem.categoryId p;
     PromptItem.tags := match PromptItem.tags p with
                        | Some tags => Some tags
                        | None => None
                        end |} = p.
Proof. destruct p as [i t c k [ts|]]; reflexivity. Qed.

Lemma fold_upsert_members {A} (key : A -> string) xs : forall l,
  (forall x, In x xs -> In (key x) (map key (fold_left (fun acc x => upsert key acc x x) xs l)))
  /\ (forall k, In k (map key l) ->
                In k (map key (fold_left (fun acc x => upsert key acc x x) xs l)))
  /\ (forall y, In y (fold_left (fun acc x => upsert key acc x x) xs l) ->
                In y l \/ In y xs).
Proof.
  induction xs as [|x xs IH]; simpl; intros l.
  - split; [intros x []|]. split; auto.
  - destruct (IH (upsert key l x x)) as (H1 & H2 & H3).
    assert (Hk : forall k, In k (map key l) -> In k (map key (upsert key l x x))).
    { intros k Hin. destruct (upsert_keys key l x x eq_refl) as [[_ ->]|[_ ->]];
        [exact Hin|apply in_or_app; now left]. }
    assert (Hx : In (key x) (map key (upsert key l x x))).
    { destruct (upsert_keys key l x x eq_refl) as [[Hin ->]|[_ ->]];
        [exact Hin|apply in_or_app; right; now left]. }
    split; [|split].
    + intros y [<-|Hy]; [now apply H2|now apply H1].
    + intros k Hin. now apply H2, Hk.
    + intros y Hy. apply H3 in Hy as [Hy|Hy]; [|tauto].
      destruct (upsert_shape key l x x) as [(l1 & z & l2 & -> & _ & _ & E)|[_ E]];
        rewrite E in Hy; apply in_app_or in Hy as [Hy|[<-|Hy]]; auto.
      * left. apply in_or_app. now left.
      * left. apply in_or_app. right. now right.
      * contradiction.
Qed.

(** ** Initialisation *)

Lemma seed_prompts (defaults : list PromptItem) m :
  updateFault m PROMPTS = None ->
  forEachAt 0 defaults
    (fun _ prompt =>
       StorageService.savePrompt
         {| PromptItem.id := PromptItem.id prompt;
            PromptItem.title := PromptItem.title prompt;
            PromptItem.content := PromptItem.content prompt;
            PromptItem.categoryId := PromptItem.categoryId prompt;
            PromptItem.tags := match PromptItem.tags prompt with
                               | Some tags => Some tags
                               | None => None
                               end |}) m
  = (Return tt, foldAt 0 defaults (fun _ p m => snd (StorageService.savePrompt p m)) m).
Proof.
  intros HF.
  apply (forEachAt_steps (fun m => updateFault m PROMPTS = None)); [|exact HF].
  intros i x m0 H0. rewrite copy_prompt, savePrompt_run, (updatePrompts_ok _ _ H0).
  split; [reflexivity|exact H0].
Qed.

Lemma seed_categories clock (cs : list PromptCategory) m :
  updateFault m CATEGORIES = None ->
  forEachAt 0 cs (fun i category => StorageService.saveCategory (clock i) category) m
  = (Return tt,
     foldAt 0 cs (fun i c m => snd (StorageService.saveCategory (clock i) c m)) m).
Proof.
  intros HF.
  apply (forEachAt_steps (fun m => updateFault m CATEGORIES = None)); [|exact HF].
  intros i x m0 H0. rewrite saveCategory_run, (updateCategories_ok _ _ H0).
  split; [reflexivity|exact H0].
Qed.

Lemma length_zero {A} (l : list A) : (length l =? 0)%nat = true <-> l = [].
Proof. destruct l; simpl; split; congruence. Qed.

(** X7. [initialize] does nothing once the service is initialised, and never
    writes to a repository that already returns prompts and categories.
    When the readers return neither (the keys are unset, empty, or cannot
    be read) and the store accepts writes, it stores the default prompts,
    one record per id, and the seven default categories in their order,
    each stamped with the instant of its save.  When the prompts are to be
    seeded and the store refuses the write, the store's exception reaches
    the caller and nothing is stored. *)
Theorem initialize_seeds_an_empty_repository
  (defaults : list PromptItem) (clock : nat -> Z) (m : Memento) :
  StorageService.initialize defaults clock true m = (Return true, m)
  /\ (promptsOf m <> [] -> categoriesOf m <> [] ->
      StorageService.initialize defaults clock false m = (Return true, m))
  /\ (promptsOf m = [] -> defaults <> [] ->
      forall msg, updateFault m PROMPTS = Some msg ->
        StorageService.initialize defaults clock false m = (Throw (HostFailure msg), m))
  /\ (Writable m -> promptsOf m = [] -> categoriesOf m = [] ->
      exists m',
        StorageService.initialize defaults clock false m = (Return true, m')
        /\ DistinctIds m'
        /\ (forall p, In p defaults -> In (PromptItem.id p) (promptIds m'))
        /\ (forall q, In q (promptsOf m') -> In q defaults)
        /\ categoriesOf m' = seededCategories clock).
Proof.
  split; [reflexivity|].
  unfold StorageService.initialize. rewrite tryCatch_rethrow.
  rewrite bind_getPrompts, bind_getCategories.
  split; [|split].
  - intros Hp Hc.
    destruct (length (promptsOf m) =? 0)%nat eqn:Ep;
      [apply length_zero in Ep; contradiction|].
    destruct (length (categoriesOf m) =? 0)%nat eqn:Ec;
      [apply length_zero in Ec; contradiction|].
    reflexivity.
  - intros Hp Hd msg HF. rewrite Hp. simpl.
    destruct defaults as [|p ps]; [contradiction|]. simpl.
    unfold bind at 1. unfold bind at 1. rewrite copy_prompt.
    now rewrite savePrompt_run, (updatePrompts_fault _ _ _ HF).
  - intros HW Hp Hc. rewrite Hp, Hc. cbn [length Nat.eqb].
    unfold bind at 1. rewrite (seed_prompts defaults m (HW PROMPTS)).
    set (m1 := foldAt 0 defaults (fun _ p m => snd (StorageService.savePrompt p m)) m).
    destruct (foldAt_prompts defaults 0 m (HW PROMPTS)) as (P1 & P2 & P3).
    fold m1 in P1, P2, P3.
    assert (HF1 : updateFault m1 CATEGORIES = None) by (rewrite P3; apply HW).
    unfold bind at 1. rewrite (seed_categories clock _ m1 HF1).
    set (m2 := foldAt 0 DEFAULT_CATEGORIES.values
                 (fun i c m => snd (StorageService.saveCategory (clock i) c m)) m1).
    destruct (foldAt_categories clock DEFAULT_CATEGORIES.values 0 m1 HF1)
      as (C1 & C2 & _).
    fold m2 in C1, C2.
    assert (Hc1 : categoriesOf m1 = []) by (unfold categoriesOf; now rewrite P2).
    rewrite Hc1 in C1.
    assert (Hp2 : promptsOf m2 = fold_left (fun acc x => upsert PromptItem.id acc x x)
                                   defaults []).
    { unfold promptsOf at 1. rewrite C2. fold (promptsOf m1). now rewrite P1, Hp. }
    exists m2. split; [reflexivity|].
    destruct (fold_upsert_members PromptItem.id defaults []) as (M1 & _ & M3).
    repeat match goal with |- _ /\ _ => split end.
    + split.
      * unfold promptIds. rewrite Hp2.
        apply (fold_upsert_NoDup PromptItem.id (fun _ x => x)); [auto|constructor].
      * unfold categoryIds. rewrite C1. vm_compute.
        repeat constructor; simpl; intuition discriminate.
    + intros p Hin. unfold promptIds. rewrite Hp2. now apply M1.
    + intros q Hq. rewrite Hp2 in Hq. apply M3 in Hq as [[]|Hq]. exact Hq.
    + rewrite C1. vm_compute. reflexivity.
Qed.

Lemma initialize_seeds_an_empty_repository_witness :
  StorageService.initialize [Example.p1; Example.p2] Fresh.clock false Example.store
  = (Return true, Example.store)
  /\ exists m',
       StorageService.initialize [Example.p1; Example.p2] Fresh.clock false Fresh.corrupt
       = (Return true, m')
       /\ DistinctIds m'
       /\ (forall p, In p [Example.p1; Example.p2] -> In (PromptItem.id p) (promptIds m'))
       /\ (forall q, In q (promptsOf m') -> In q [Example.p1; Example.p2])
       /\ categoriesOf m' = seededCategories Fresh.clock.
Proof.
  pose proof (initialize_seeds_an_empty_repository [Example.p1; Example.p2] Fresh.clock)
    as T.
  split.
  - apply (T Example.store); discriminate.
  - apply (T Fresh.corrupt); [intros key|..]; reflexivity.
Defined.

(** * Further properties of the tree *)

(** ** Children and parents *)

Lemma createGuideItem_run categoryId categoryData m :
  PromptTreeDataProvider.createGuideItem categoryId categoryData m
  = (Return (option_map (PromptTreeDataProvider.guideItemFor categoryId)
               (List.find (PromptTreeDataProvider.isGuideOf categoryId) (promptsOf m))),
     m).
Proof.
  unfold PromptTreeDataProvider.createGuideItem, tryCatch.
  rewrite bind_getPrompts. unfold Js.find.
  destruct (List.find _ (promptsOf m)); reflexivity.
Qed.

Lemma getChildItems_run element m :
  PromptTreeDataProvider.getChildItems element m = (Return (childrenOf m element), m).
Proof.
  unfold PromptTreeDataProvider.getChildItems, tryCatch, childrenOf.
  rewrite bind_getPrompts.
  destruct (ContextValue_eqb _ CATEGORY_ITEM); [|reflexivity].
  destruct (TreePromptItem.id element =? TREE_SPECIAL_CATEGORIES.UNCATEGORIZED)%string.
  - unfold bind at 1. rewrite bind_getCategories. reflexivity.
  - unfold bind at 1. simpl. unfold bind at 1. unfold bind.
    rewrite createGuideItem_run.
    destruct (List.find _ (promptsOf m)); reflexivity.
Qed.

Lemma leavesUnder_In parent prompts child :
  In child (leavesUnder parent prompts) <->
  exists p, In p prompts /\ PromptItem.id p <> (parent ++ "-guide")%string
            /\ child = PromptTreeDataProvider.createPromptItem p (Some parent).
Proof.
  unfold leavesUnder. rewrite in_map_iff. split.
  - intros (p & <- & Hp). apply filter_In in Hp as [Hp Hn].
    apply negb_true_iff, String.eqb_neq in Hn. eauto.
  - intros (p & Hp & Hn & ->). exists p. split; [reflexivity|].
    apply filter_In. split; [exact Hp|]. now apply negb_true_iff, String.eqb_neq.
Qed.

Lemma childrenOf_ChildOf m element :
  Forall (ChildOf m element) (childrenOf m element).
Proof.
  unfold childrenOf.
  destruct (ContextValue_eqb _ CATEGORY_ITEM); [|constructor].
  destruct (TreePromptItem.id element =? TREE_SPECIAL_CATEGORIES.UNCATEGORIZED)%string.
  - apply List.Forall_forall. intros child Hc.
    apply leavesUnder_In in Hc as (p & Hp & _ & ->).
    apply filter_In in Hp as [Hp _]. split; [reflexivity|].
    exists p. split; [exact Hp|]. left. auto.
  - apply List.Forall_forall. intros child Hc. apply in_app_or in Hc as [Hc|Hc].
    + destruct (List.find _ (promptsOf m)) as [g|] eqn:F; [|contradiction].
      destruct Hc as [<-|[]]. apply find_some in F as [Hg Hguide].
      split; [reflexivity|]. exists g. split; [exact Hg|]. right.
      unfold PromptTreeDataProvider.isGuideOf in Hguide.
      apply andb_true_iff in Hguide as [Hcat _]. apply optIs_true in Hcat. auto.
    + apply leavesUnder_In in Hc as (p & Hp & _ & ->).
      apply filter_In in Hp as [Hp _]. split; [reflexivity|].
      exists p. split; [exact Hp|]. left. auto.
Qed.

(** X8. [getChildItems] never throws and reads only.  A node that is not a
    category node has no children.  Every child of a category node names
    that node as its parent and shows a stored prompt: a prompt leaf carries
    the prompt and its id; a guide leaf carries a prompt of the category.
    Under an ordinary category every stored prompt of the category is
    listed as a prompt leaf, the one whose id is the category id followed
    by "-guide" excepted. *)
Theorem getChildItems_children (element : TreePromptItem) (m : Memento) :
  exists children,
    PromptTreeDataProvider.getChildItems element m = (Return children, m)
    /\ (TreePromptItem.contextValue element <> CATEGORY_ITEM -> children = [])
    /\ Forall (ChildOf m element) children
    /\ (TreePromptItem.contextValue element = CATEGORY_ITEM ->
        TreePromptItem.id element <> TREE_SPECIAL_CATEGORIES.UNCATEGORIZED ->
        forall p, In p (promptsOf m) ->
                  PromptItem.categoryId p = Some (TreePromptItem.id element) ->
                  PromptItem.id p <> (TreePromptItem.id element ++ "-guide")%string ->
                  In (PromptTreeDataProvider.createPromptItem p
                        (Some (TreePromptItem.id element))) children).
Proof.
  exists (childrenOf m element). split; [apply getChildItems_run|].
  split; [|split; [apply childrenOf_ChildOf|]].
  - unfold childrenOf. intros Hc.
    destruct (TreePromptItem.contextValue element); simpl; congruence.
  - unfold childrenOf. intros -> Hne p Hp Hcat Hg. simpl.
    apply String.eqb_neq in Hne. rewrite Hne.
    apply in_or_app. right. apply leavesUnder_In.
    exists p. split; [|auto].
    apply filter_In. split; [exact Hp|now apply optIs_true].
Qed.

Lemma find_by_key {A} (key : A -> string) (l : list A) x :
  List.NoDup (map key l) -> In x l ->
  List.find (fun y => (key y =? key x)%string) l = Some x.
Proof.
  intros Hnd Hin.
  destruct (List.find (fun y => (key y =? key x)%string) l) as [y|] eqn:F.
  - apply find_some in F as [Hy Hk]. apply String.eqb_eq in Hk. f_equal.
    now apply (NoDup_map_injective key l).
  - pose proof (find_none _ _ F x Hin) as Hk. simpl in Hk.
    now rewrite String.eqb_refl in Hk.
Qed.

Lemma rootNodes_ids m :
  map TreePromptItem.id (rootNodes m)
  = (categoryIds m
     ++ match filter (Unresolved (categoriesOf m)) (promptsOf m) with
        | [] => []
        | _ :: _ => [TREE_SPECIAL_CATEGORIES.UNCATEGORIZED]
        end)%list.
Proof.
  unfold rootNodes, categoryIds. rewrite map_app, map_map. simpl.
  now destruct (filter (Unresolved (categoriesOf m)) (promptsOf m)).
Qed.

Lemma rootNodes_distinct m :
  List.NoDup (categoryIds m) ->
  ~ In TREE_SPECIAL_CATEGORIES.UNCATEGORIZED (categoryIds m) ->
  List.NoDup (map TreePromptItem.id (rootNodes m)).
Proof.
  intros Hnd Hno. rewrite rootNodes_ids.
  destruct (filter (Unresolved (categoriesOf m)) (promptsOf m)).
  - now rewrite app_nil_r.
  - now apply NoDup_snoc.
Qed.

(** X9. After [getRootItems] has built the hierarchy of a store whose
    category ids are pairwise distinct and none of which is the reserved
    id of the uncategorized node, [getParent] of a child of a root node
    with a non-empty id is that root node.  (Under a category whose id is
    the empty string, [getParent] finds no parent.) *)
Theorem getParent_of_child {host : HostStrings} (self : Provider) (m : Memento)
  (root child : TreePromptItem) :
  PromptTreeDataProvider.filterActive self = false ->
  List.NoDup (categoryIds m) ->
  ~ In TREE_SPECIAL_CATEGORIES.UNCATEGORIZED (categoryIds m) ->
  exists roots self' children,
    PromptTreeDataProvider.getRootItems self m = (Return (roots, self'), m)
    /\ PromptTreeDataProvider.getChildItems root m = (Return children, m)
    /\ (In root roots -> In child children ->
        PromptTreeDataProvider.getParent self' child
        = if Js.truthy (TreePromptItem.id root) then Some root else None).
Proof.
  intros Hf Hnd Hno.
  exists (rootNodes m), (PromptTreeDataProvider.setTreeData self (rootNodes m)),
    (childrenOf m root).
  split; [now apply getRootItems_unfiltered|]. split; [apply getChildItems_run|].
  intros Hroot Hchild.
  pose proof (childrenOf_ChildOf m root) as Hall.
  rewrite List.Forall_forall in Hall. destruct (Hall child Hchild) as [Hp _].
  unfold PromptTreeDataProvider.getParent. rewrite Hp.
  destruct (Js.truthy (TreePromptItem.id root)); [|reflexivity].
  unfold PromptTreeDataProvider.findItemById, Js.find. simpl.
  apply (find_by_key TreePromptItem.id); [now apply rootNodes_distinct|exact Hroot].
Qed.

Lemma getParent_of_child_witness :
  exists roots self' children,
    PromptTreeDataProvider.getRootItems (host := AsciiHost.host)
      PromptTreeDataProvider.new Example.store
    = (Return (roots, self'), Example.store)
    /\ PromptTreeDataProvider.getChildItems
         (PromptTreeDataProvider.createCategoryItem Example.programming 1) Example.store
       = (Return children, Example.store)
    /\ PromptTreeDataProvider.getParent self'
         (PromptTreeDataProvider.createPromptItem Example.p1 (Some "programming"))
       = Some (PromptTreeDataProvider.createCategoryItem Example.programming 1).
Proof.
  assert (Hnd : List.NoDup (categoryIds Example.store)).
  { vm_compute. constructor; [intros []|constructor]. }
  assert (Hno : ~ In TREE_SPECIAL_CATEGORIES.UNCATEGORIZED (categoryIds Example.store)).
  { vm_compute. intros [H|[]]. discriminate. }
  destruct (getParent_of_child (host := AsciiHost.host) PromptTreeDataProvider.new
              Example.store
              (PromptTreeDataProvider.createCategoryItem Example.programming 1)
              (PromptTreeDataProvider.createPromptItem Example.p1 (Some "programming"))
              eq_refl Hnd Hno)
    as (roots & self' & children & E1 & E2 & H).
  exists roots, self', children. split; [exact E1|]. split; [exact E2|].
  apply H.
  - vm_compute in E1. injection E1 as <- _. left. reflexivity.
  - vm_compute in E2. injection E2 as <-. left. reflexivity.
Defined.

(** ** Looking a prompt up in the tree *)

Lemma getRootItems_filtered {host : HostStrings} (self : Provider) (m : Memento) :
  PromptTreeDataProvider.filterActive self = true ->
  exists results,
    PromptTreeDataProvider.getRootItems self m = (Return (results, self), m).
Proof.
  intros Hf. unfold PromptTreeDataProvider.getRootItems, tryCatch. rewrite Hf.
  unfold PromptTreeDataProvider.filterActive in Hf.
  destruct (searchFilter self) as [filter|] eqn:F; [|discriminate].
  apply andb_true_iff in Hf as [Ht _].
  unfold bind, PromptTreeDataProvider.getSearchResults, tryCatch.
  rewrite F, Ht. simpl. rewrite bind_getPrompts, bind_getCategories. cbv zeta.
  unfold ret. eauto.
Qed.

Lemma childrenOf_leaf m root promptId child :
  In child (childrenOf m root) ->
  PromptTreeDataProvider.isLeafOf promptId child = true ->
  exists p, In p (promptsOf m) /\ PromptItem.id p = promptId
            /\ child = PromptTreeDataProvider.createPromptItem p
                         (Some (TreePromptItem.id root)).
Proof.
  unfold childrenOf. intros Hc Hleaf.
  assert (Hleaves : forall prompts,
             (forall p, In p prompts -> In p (promptsOf m)) ->
             In child (leavesUnder (TreePromptItem.id root) prompts) ->
             exists p, In p (promptsOf m) /\ PromptItem.id p = promptId
                       /\ child = PromptTreeDataProvider.createPromptItem p
                                    (Some (TreePromptItem.id root))).
  { intros prompts Hsub Hin. apply leavesUnder_In in Hin as (p & Hp & _ & ->).
    exists p. split; [auto|]. split; [|reflexivity].
    unfold PromptTreeDataProvider.isLeafOf in Hleaf. simpl in Hleaf.
    now apply String.eqb_eq in Hleaf. }
  destruct (ContextValue_eqb _ CATEGORY_ITEM); [|contradiction].
  destruct (TreePromptItem.id root =? TREE_SPECIAL_CATEGORIES.UNCATEGORIZED)%string.
  - apply (Hleaves _ (fun p Hp => proj1 (proj1 (filter_In _ _ _) Hp)) Hc).
  - apply in_app_or in Hc as [Hc|Hc].
    + destruct (List.find _ (promptsOf m)); [|contradiction].
      destruct Hc as [<-|[]]. discriminate.
    + apply (Hleaves _ (fun p Hp => proj1 (proj1 (filter_In _ _ _) Hp)) Hc).
Qed.

Lemma findInCategories_run promptId m items :
  exists result,
    PromptTreeDataProvider.findInCategories promptId items m = (Return result, m)
    /\ (forall item, result = Some item ->
          exists root, In root items /\ In item (childrenOf m root)
                       /\ PromptTreeDataProvider.isLeafOf promptId item = true)
    /\ (result = None ->
        forall root child,
          In root items -> TreePromptItem.contextValue root = CATEGORY_ITEM ->
          In child (childrenOf m root) ->
          PromptTreeDataProvider.isLeafOf promptId child = false).
Proof.
  induction items as [|categoryItem rest (result & E & Hs & Hn)]; simpl.
  - exists None. split; [reflexivity|]. split; [discriminate|]. intros _ ? ? [].
  - destruct (ContextValue_eqb (TreePromptItem.contextValue categoryItem) CATEGORY_ITEM)
      eqn:C.
    + unfold bind. rewrite getChildItems_run. unfold Js.find.
      destruct (List.find _ (childrenOf m categoryItem)) as [found|] eqn:F.
      * exists (Some found). split; [reflexivity|]. split; [|discriminate].
        intros item [= <-]. apply find_some in F as [Hin Hleaf]. eauto.
      * exists result. split; [exact E|]. split.
        -- intros item Hi. destruct (Hs item Hi) as (root & Hr & H). eauto.
        -- intros Hnone root child [<-|Hr] Hc Hin.
           ++ apply (find_none _ _ F child Hin).
           ++ now apply (Hn Hnone root child).
    + exists result. split; [exact E|]. split.
      * intros item Hi. destruct (Hs item Hi) as (root & Hr & H). eauto.
      * intros Hnone root child [<-|Hr] Hc Hin.
        -- rewrite Hc in C. discriminate.
        -- now apply (Hn Hnone root child).
Qed.

(** Every stored prompt has a root node that is to show it. *)
Lemma shown_under_a_root m p :
  ~ In TREE_SPECIAL_CATEGORIES.UNCATEGORIZED (categoryIds m) ->
  In p (promptsOf m) ->
  exists root,
    In root (rootNodes m) /\ TreePromptItem.contextValue root = CATEGORY_ITEM
    /\ (PromptItem.id p <> (TreePromptItem.id root ++ "-guide")%string ->
        In (PromptTreeDataProvider.createPromptItem p (Some (TreePromptItem.id root)))
          (childrenOf m root)).
Proof.
  intros Hno Hp. destruct (decide (Unresolved (categoriesOf m) p)) as [Hu|Hu].
  - assert (Hin : In p (filter (Unresolved (categoriesOf m)) (promptsOf m))).
    { rewrite <- (filter_decide (PromptTreeDataProvider.isUncategorized (categoriesOf m)))
        by apply isUncategorized_spec.
      apply filter_In. split; [exact Hp|now apply isUncategorized_spec]. }
    destruct (filter (Unresolved (categoriesOf m)) (promptsOf m)) as [|q rest] eqn:F;
      [contradiction|].
    exists (PromptTreeDataProvider.createUncategorizedCategory (length (q :: rest))).
    split; [|split; [reflexivity|]].
    + unfold rootNodes. rewrite F. apply in_or_app. right. now left.
    + intros Hg. unfold childrenOf. simpl. apply leavesUnder_In.
      exists p. split; [|auto]. apply filter_In. split; [exact Hp|].
      now apply isUncategorized_spec.
  - destruct (PromptItem.categoryId p) as [k|] eqn:K;
      [|exfalso; apply Hu; now left].
    assert (Hc : exists c, In c (categoriesOf m) /\ PromptCategory.id c = k).
    { destruct (existsb (fun c => (PromptCategory.id c =? k)%string) (categoriesOf m))
        eqn:X.
      - apply existsb_exists in X as (c & Hc & Hk). apply String.eqb_eq in Hk. eauto.
      - exfalso. apply Hu. right. right. apply List.Forall_forall. intros c Hc E.
        rewrite K in E. injection E as ->.
        assert (existsb (fun c0 => (PromptCategory.id c0 =? PromptCategory.id c)%string)
                  (categoriesOf m) = true); [|congruence].
        apply existsb_exists. exists c. split; [exact Hc|apply String.eqb_refl]. }
    destruct Hc as (c & Hc & <-).
    exists (PromptTreeDataProvider.createCategoryItem c
              (length (filter (RefersTo (PromptCategory.id c)) (promptsOf m)))).
    split; [|split; [reflexivity|]].
    + unfold rootNodes. apply in_or_app. left.
      apply in_map_iff. exists c. split; [reflexivity|exact Hc].
    + intros Hg. unfold childrenOf. simpl.
      assert (Hs : (PromptCategory.id c =? TREE_SPECIAL_CATEGORIES.UNCATEGORIZED)%string
                   = false).
      { apply String.eqb_neq. intros E. apply Hno. rewrite <- E.
        unfold categoryIds. now apply in_map. }
      rewrite Hs. apply in_or_app. right. apply leavesUnder_In.
      exists p. split; [|auto]. apply filter_In. split; [exact Hp|now apply optIs_true].
Qed.

(** X10. With no search filter active, [findPromptTreeItem] rebuilds the
    cached hierarchy, never throws and leaves the store as it is.  What it
    returns is a prompt leaf that shows a stored prompt with the id asked
    for, placed under one of the root nodes.  When the reserved id of the
    uncategorized node is not a category id and the id asked for is not the
    id of a root node followed by "-guide", every stored prompt id is
    found. *)
Theorem findPromptTreeItem_finds {host : HostStrings} (self : Provider)
  (promptId : string) (m : Memento) :
  PromptTreeDataProvider.filterActive self = false ->
  exists result,
    PromptTreeDataProvider.findPromptTreeItem self promptId m
    = (Return (result, PromptTreeDataProvider.setTreeData self (rootNodes m)), m)
    /\ (forall item, result = Some item ->
          exists root p,
            In root (rootNodes m) /\ In p (promptsOf m) /\ PromptItem.id p = promptId
            /\ item = PromptTreeDataProvider.createPromptItem p
                        (Some (TreePromptItem.id root)))
    /\ (~ In TREE_SPECIAL_CATEGORIES.UNCATEGORIZED (categoryIds m) ->
        (forall root, In root (rootNodes m) ->
                      promptId <> (TreePromptItem.id root ++ "-guide")%string) ->
        In promptId (promptIds m) ->
        result <> None).
Proof.
  intros Hf.
  destruct (findInCategories_run promptId m (rootNodes m)) as (result & E & Hs & Hn).
  exists result. split; [|split].
  - unfold PromptTreeDataProvider.findPromptTreeItem, bind.
    rewrite (getRootItems_unfiltered self m Hf). simpl. now rewrite E.
  - intros item Hi. destruct (Hs item Hi) as (root & Hr & Hc & Hleaf).
    destruct (childrenOf_leaf m root promptId item Hc Hleaf) as (p & Hp & Hid & ->).
    eauto 6.
  - intros Hno Hguide Hin Hnone. unfold promptIds in Hin.
    apply in_map_iff in Hin as (p & <- & Hp).
    destruct (shown_under_a_root m p Hno Hp) as (root & Hr & Hc & Hshown).
    specialize (Hn Hnone root _ Hr Hc (Hshown (Hguide root Hr))).
    unfold PromptTreeDataProvider.isLeafOf in Hn. simpl in Hn.
    now rewrite String.eqb_refl in Hn.
Qed.

Lemma findPromptTreeItem_finds_witness :
  exists result,
    PromptTreeDataProvider.findPromptTreeItem (host := AsciiHost.host)
      PromptTreeDataProvider.new "p2" Example.store
    = (Return (result,
               PromptTreeDataProvider.setTreeData PromptTreeDataProvider.new
                 (rootNodes Example.store)),
       Example.store)
    /\ result <> None.
Proof.
  destruct (findPromptTreeItem_finds (host := AsciiHost.host) PromptTreeDataProvider.new
              "p2" Example.store eq_refl)
    as (result & E & _ & H).
  exists result. split; [exact E|]. apply H.
  - vm_compute. intros [H0|[]]. discriminate.
  - intros root Hr. vm_compute in Hr. destruct Hr as [<-|[<-|[]]]; discriminate.
  - vm_compute. right. left. reflexivity.
Defined.

(** X11. While a search filter is active, [findPromptTreeItem] does not
    rebuild the cached hierarchy: it looks the prompt up under the nodes
    cached before.  On a provider that has not shown the hierarchy yet it
    finds no prompt, whatever is stored. *)
Theorem findPromptTreeItem_while_searching {host : HostStrings} (self : Provider)
  (promptId : string) (m : Memento) :
  PromptTreeDataProvider.filterActive self = true ->
  exists result,
    PromptTreeDataProvider.findPromptTreeItem self promptId m = (Return (result, self), m)
    /\ PromptTreeDataProvider.findInCategories promptId (treeData self) m
       = (Return result, m)
    /\ (treeData self = [] -> result = None).
Proof.
  intros Hf. destruct (getRootItems_filtered self m Hf) as (results & E).
  destruct (findInCategories_run promptId m (treeData self)) as (result & R & _).
  exists result. split; [|split; [exact R|]].
  - unfold PromptTreeDataProvider.findPromptTreeItem, bind. rewrite E. simpl.
    now rewrite R.
  - intros T. rewrite T in R. simpl in R. unfold ret in R. congruence.
Qed.

Lemma findPromptTreeItem_while_searching_witness :
  In "p1" (promptIds Example.store)
  /\ PromptTreeDataProvider.findPromptTreeItem (host := AsciiHost.host)
       Searching.provider "p1" Example.store
     = (Return (None, Searching.provider), Example.store).
Proof.
  split; [vm_compute; now left|].
  destruct (findPromptTreeItem_while_searching (host := AsciiHost.host)
              Searching.provider "p1" Example.store eq_refl)
    as (result & E & _ & H).
  rewrite E, (H eq_refl). reflexivity.
Defined.

(** * Further properties of the timers *)

(** ** Debounced search *)

Lemma search_from_quiet filter w :
  pending w = [] -> OneSearch (now w + 300) filter (EventLoop.setSearchFilter filter w).
Proof.
  intros Hq. exists (nextHandle w).
  unfold EventLoop.setSearchFilter, EventLoop.clearTimeout.
  destruct (searchTimeout (self w)); simpl; rewrite Hq; simpl; auto.
Qed.

Lemma search_again d previous filter w :
  OneSearch d previous w ->
  OneSearch (now w + 300) filter (EventLoop.setSearchFilter filter w).
Proof.
  intros (h & Hp & Hs). exists (nextHandle w).
  unfold EventLoop.setSearchFilter, EventLoop.clearTimeout. rewrite Hs. simpl.
  rewrite Hp. simpl. rewrite Nat.eqb_refl. simpl. auto.
Qed.

Lemma search_wait_before d filter gap w :
  OneSearch d filter w -> (now w + gap < d)%nat ->
  EventLoop.wait gap w = EventLoop.setNow w (now w + gap).
Proof.
  intros (h & Hp & Hs) Hlt. unfold EventLoop.wait, EventLoop.advanceTo.
  rewrite Hp. simpl. unfold EventLoop.nextDue. rewrite Hp. simpl.
  assert (E : (d <=? now w + gap)%nat = false) by (apply Nat.leb_gt; lia).
  rewrite E. f_equal. lia.
Qed.

Lemma search_wait_after d filter tail w :
  OneSearch d filter w -> (now w <= d)%nat -> (d + 100 <= now w + tail)%nat ->
  pending (EventLoop.wait tail w) = []
  /\ notifications (EventLoop.wait tail w) = (notifications w ++ [(d + 100)%nat])%list
  /\ searchFilter (self (EventLoop.wait tail w)) = filter.
Proof.
  intros (h & Hp & Hs) Hnow Hdue. unfold EventLoop.wait, EventLoop.advanceTo.
  rewrite Hp. simpl. unfold EventLoop.nextDue. rewrite Hp. simpl.
  assert (E : (d <=? now w + tail)%nat = true) by (apply Nat.leb_le; lia).
  rewrite E. unfold EventLoop.fire, EventLoop.clearTimeout. simpl. rewrite Hp. simpl.
  rewrite Nat.eqb_refl. simpl.
  unfold EventLoop.refresh, EventLoop.clearTimeout. simpl.
  replace (Nat.max (now w) d) with d by lia.
  assert (E' : (d + 100 <=? now w + tail)%nat = true) by (apply Nat.leb_le; lia).
  destruct (refreshTimeout (self w)); simpl; rewrite E'; simpl;
    rewrite Nat.eqb_refl; simpl;
    (split; [reflexivity|]; split; [|reflexivity]; f_equal; f_equal; lia).
Qed.

Lemma last_head {A} (l : list A) : forall x d, List.last (x :: l) d = List.last l x.
Proof.
  induction l as [|y l IH]; intros x d; [reflexivity|].
  change (List.last (x :: y :: l) d) with (List.last (y :: l) d).
  now rewrite (IH y d), (IH y x).
Qed.

Lemma search_burst typed : forall w current tail,
  OneSearch (now w + 300) current w ->
  Forall (fun call => (fst call < 300)%nat) typed ->
  (400 <= tail)%nat ->
  pending (EventLoop.wait tail (EventLoop.play (filterCalls typed) w)) = []
  /\ notifications (EventLoop.wait tail (EventLoop.play (filterCalls typed) w))
     = (notifications w ++ [(now w + list_sum (map fst typed) + 400)%nat])%list
  /\ searchFilter (self (EventLoop.wait tail (EventLoop.play (filterCalls typed) w)))
     = List.last (map snd typed) current.
Proof.
  induction typed as [|[gap filter] typed IH]; intros w current tail Hone Hgaps Htail;
    unfold filterCalls; cbn [map EventLoop.play EventLoop.perform fst snd];
    try fold (filterCalls typed).
  - destruct (search_wait_after _ _ tail w Hone) as (Hp & Hn & Hf); [lia|lia|].
    split; [exact Hp|]. split; [|exact Hf].
    rewrite Hn. f_equal. f_equal. change (list_sum []) with 0%nat. lia.
  - apply List.Forall_cons_iff in Hgaps as [Hgap Hgaps]. simpl in Hgap.
    rewrite (search_wait_before _ _ gap w Hone) by lia.
    assert (H1 : OneSearch (now w + 300) current (EventLoop.setNow w (now w + gap))).
    { destruct Hone as (h & Hp & Hs). exists h. simpl. auto. }
    set (w1 := EventLoop.setNow w (now w + gap)) in *.
    set (w2 := EventLoop.setSearchFilter filter w1).
    assert (Hn : now w2 = (now w + gap)%nat)
      by exact (proj1 (setSearchFilter_fields filter w1)).
    assert (Hnot : notifications w2 = notifications w).
    { unfold w2, EventLoop.setSearchFilter.
      destruct (searchTimeout (self w1)); reflexivity. }
    assert (H2 : OneSearch (now w2 + 300) filter w2).
    { rewrite Hn. exact (search_again _ _ filter _ H1). }
    destruct (IH _ filter tail H2 Hgaps Htail) as (Hp & Hnote & Hf).
    split; [exact Hp|]. split.
    + rewrite Hnote, Hn, Hnot. f_equal. f_equal.
      change (list_sum (gap :: map fst typed)) with (gap + list_sum (map fst typed))%nat.
      lia.
    + rewrite Hf. symmetry. apply last_head.
Qed.

(** X12. Take [N >= 1] calls of [setSearchFilter], the first on a provider
    with no pending timer and each next one less than the window (300 ms)
    after the one before, and then let at least 400 ms pass.  The filter in
    force is the one of the last call, exactly one change notification has
    fired, 400 ms after the last call, and no timer is left pending. *)
Theorem setSearchFilter_debounce (w : World) (first : option string)
  (typed : list (nat * option string)) (tail : nat) :
  pending w = [] ->
  Forall (fun call => (fst call < 300)%nat) typed ->
  (400 <= tail)%nat ->
  exists w',
    w' = EventLoop.wait tail
           (EventLoop.play (filterCalls typed) (EventLoop.setSearchFilter first w))
    /\ PromptTreeDataProvider.getSearchFilter (self w') = List.last (map snd typed) first
    /\ notifications w'
       = (notifications w ++ [(now w + list_sum (map fst typed) + 400)%nat])%list
    /\ pending w' = [].
Proof.
  intros Hq Hgaps Htail. eexists. split; [reflexivity|].
  pose proof (search_from_quiet first w Hq) as Hone.
  pose proof (setSearchFilter_fields first w) as (Hn & _).
  assert (Hnot : notifications (EventLoop.setSearchFilter first w) = notifications w).
  { unfold EventLoop.setSearchFilter. destruct (searchTimeout (self w)); reflexivity. }
  rewrite <- Hn in Hone.
  destruct (search_burst typed _ first tail Hone Hgaps Htail) as (Hp & Hnote & Hf).
  split; [exact Hf|]. split; [|exact Hp]. now rewrite Hnote, Hn, Hnot.
Qed.

Lemma setSearchFilter_debounce_witness :
  exists w',
    w' = EventLoop.wait 400
           (EventLoop.play
              (filterCalls [(120, Some "so"); (299, Some "sor"); (80, Some "sort")]%nat)
              (EventLoop.setSearchFilter (Some "s") (EventLoop.boot 0)))
    /\ PromptTreeDataProvider.getSearchFilter (self w') = Some "sort"
    /\ notifications w' = [899%nat]
    /\ pending w' = [].
Proof.
  apply (setSearchFilter_debounce (EventLoop.boot 0) (Some "s")
           [(120, Some "so"); (299, Some "sor"); (80, Some "sort")]%nat 400 eq_refl).
  - repeat constructor; simpl; lia.
  - lia.
Defined.

(** ** When a filter takes effect *)

Lemma settling_start filter w :
  WellFormed w -> Settling filter (now w + 300) (EventLoop.setSearchFilter filter w).
Proof.
  intros Hw. destruct (setSearchFilter_pending filter w Hw) as (kept & E & Hk & _).
  unfold Settling. rewrite E. split.
  - intros t f Hin Hf. apply in_app_or in Hin as [Hin|[<-|[]]].
    + destruct (Hk t Hin) as [_ Hno]. exfalso. apply Hno. now exists f.
    + simpl in Hf. injection Hf as <-. simpl. auto.
  - right. eexists. split; [apply in_or_app; right; now left|reflexivity].
Qed.

Lemma settling_fire filter deadline t w :
  WellFormed w -> Settling filter deadline w -> In t (pending w) ->
  Settling filter deadline (EventLoop.fire t w)
  /\ (action t = FireChange ->
      searchFilter (self (EventLoop.fire t w)) = searchFilter (self w)).
Proof.
  intros (Hnd & _ & _) [HA HB] Hin.
  unfold EventLoop.fire, EventLoop.runCallback. destruct (action t) as [|f] eqn:A.
  - split; [|reflexivity]. unfold Settling. simpl. split.
    + intros u g Hu. apply filter_In in Hu as [Hu _]. now apply HA.
    + destruct HB as [HB|(u & Hu & Au)]; [now left|]. right. exists u.
      split; [|exact Au]. apply filter_In. split; [exact Hu|].
      apply negb_true_iff, Nat.eqb_neq. intros Hh.
      assert (u = t) by (apply (NoDup_map_injective handle (pending w)); auto).
      subst u. congruence.
  - split; [|discriminate]. destruct (HA t f Hin A) as [-> _].
    match goal with |- Settling _ _ (EventLoop.refresh ?x) => set (y := x) end.
    pose proof (refresh_fields y) as (_ & _ & _ & Hs & _).
    unfold Settling. split.
    + intros u g Hu Au. apply refresh_pending_in in Hu as [Hu | ->]; [|discriminate].
      simpl in Hu. apply filter_In in Hu as [Hu _]. now apply (HA u g).
    + left. rewrite Hs. reflexivity.
Qed.

Lemma settling_run filter deadline fuel target w :
  WellFormed w -> Settling filter deadline w ->
  Settling filter deadline (EventLoop.run fuel target w)
  /\ ((target < deadline)%nat ->
      searchFilter (self (EventLoop.run fuel target w)) = searchFilter (self w)).
Proof.
  revert w. induction fuel as [|fuel IH]; intros w Hw Hc; simpl; [auto|].
  destruct (EventLoop.nextDue target (pending w)) as [t|] eqn:E; [|auto].
  apply nextDue_some in E as [Hin Hdue].
  destruct (settling_fire filter deadline t w Hw Hc Hin) as [Hc' Hsame].
  destruct (IH (EventLoop.fire t w) (wf_fire t w Hw) Hc') as [H1 H2].
  split; [exact H1|]. intros Hlt. rewrite (H2 Hlt). apply Hsame.
  destruct (action t) as [|f] eqn:A; [reflexivity|].
  destruct Hc as [HA _]. destruct (HA t f Hin A) as [_ Hd]. lia.
Qed.

(** X13. Whatever calls of [refresh] and [setSearchFilter] a provider has
    seen since it was constructed, a further [setSearchFilter(filter)]
    takes effect 300 ms later and not before, when no call follows it:
    until then [getSearchFilter] returns what it returned at the call,
    from then on it returns [filter]. *)
Theorem setSearchFilter_takes_effect (t0 : nat) (session : list (nat * EventLoop.Call))
  (gap : nat) (filter : option string) (tail : nat) :
  PromptTreeDataProvider.getSearchFilter
    (self (EventLoop.wait tail
             (EventLoop.setSearchFilter filter
                (EventLoop.wait gap (EventLoop.play session (EventLoop.boot t0))))))
  = if (300 <=? tail)%nat then filter
    else PromptTreeDataProvider.getSearchFilter
           (self (EventLoop.wait gap (EventLoop.play session (EventLoop.boot t0)))).
Proof.
  set (w := EventLoop.wait gap (EventLoop.play session (EventLoop.boot t0))).
  assert (Hw : WellFormed w) by (apply wf_wait, wf_play, wf_boot).
  set (w1 := EventLoop.setSearchFilter filter w).
  pose proof (setSearchFilter_fields filter w) as (Hn & _ & Hf & _). fold w1 in Hn, Hf.
  pose proof (settling_start filter w Hw) as Hc. fold w1 in Hc. rewrite <- Hn in Hc.
  unfold PromptTreeDataProvider.getSearchFilter.
  change (searchFilter (self (EventLoop.wait tail w1)))
    with (searchFilter
            (self (EventLoop.run (EventLoop.weight (pending w1)) (now w1 + tail) w1))).
  set (target := (now w1 + tail)%nat).
  destruct (settling_run filter (now w1 + 300) (EventLoop.weight (pending w1)) target w1
              (wf_setSearchFilter filter w Hw) Hc) as [[HA HB] Hbefore].
  destruct (300 <=? tail)%nat eqn:T.
  - apply Nat.leb_le in T.
    destruct HB as [HB|(t & Hin & At)]; [exact HB|].
    pose proof (run_quiescent target (EventLoop.weight (pending w1)) w1 (Nat.le_refl _))
      as Hq.
    pose proof (nextDue_none _ _ Hq t Hin) as Hlate.
    destruct (HA t filter Hin At) as [_ Hdue]. unfold target in Hlate. lia.
  - apply Nat.leb_gt in T. rewrite Hbefore by (unfold target; lia). exact Hf.
Qed.

(** * Writes that fail half-way *)

(** X14. [deleteCategory] is not atomic.  Both writes are issued before
    either is awaited: when the category exists and the store refuses the
    write of the categories but accepts the write of the prompts, the call
    throws the host's error, the category is still stored, and the prompts
    that referred to it have lost their [categoryId] all the same.  When
    the store refuses the write of the prompts only, the call throws, the
    category is gone and the prompts still refer to it. *)
Theorem deleteCategory_not_atomic (id msg : string) (m : Memento) :
  In id (categoryIds m) ->
  (updateFault m CATEGORIES = Some msg -> updateFault m PROMPTS = None ->
   exists m',
     StorageService.deleteCategory id m = (Throw (HostFailure msg), m')
     /\ categoriesOf m' = categoriesOf m
     /\ promptsOf m' = detach id (promptsOf m)
     /\ forall p, In p (promptsOf m') -> PromptItem.categoryId p <> Some id)
  /\
  (updateFault m CATEGORIES = None -> updateFault m PROMPTS = Some msg ->
   exists m',
     StorageService.deleteCategory id m = (Throw (HostFailure msg), m')
     /\ promptsOf m' = promptsOf m
     /\ forall c, In c (categoriesOf m') <->
                  In c (categoriesOf m) /\ PromptCategory.id c <> id).
Proof.
  intros Hin. rewrite deleteCategory_run.
  destruct (_ =? _)%nat eqn:E.
  { apply Nat.eqb_eq in E. rewrite withoutCategory_all in E.
    unfold categoryIds in Hin. apply in_map_iff in Hin as (c & Hid & Hc).
    now specialize (E c Hc). }
  unfold both, updateCategories, updatePrompts. split.
  - intros -> HP. rewrite HP. eexists. split; [reflexivity|].
    split; [reflexivity|]. split; [reflexivity|].
    unfold promptsOf at 1. simpl. apply detach_clears.
  - intros -> HP. simpl. rewrite HP. eexists. split; [reflexivity|].
    split; [reflexivity|]. intros c. unfold categoriesOf at 1. simpl.
    apply withoutCategory_In.
Qed.

Lemma deleteCategory_not_atomic_witness :
  exists m',
    StorageService.deleteCategory "programming" HalfBroken.store
    = (Throw (HostFailure "EIO"), m')
    /\ categoriesOf m' = [Example.programming]
    /\ promptsOf m' = [StorageService.clearCategory Example.p1; Example.p2].
Proof.
  destruct (proj1 (deleteCategory_not_atomic "programming" "EIO" HalfBroken.store
                     (or_introl eq_refl)) eq_refl eq_refl)
    as (m' & E & Hc & Hp & _).
  exists m'. split; [exact E|]. split; [exact Hc|exact Hp].
Defined.

(** X15. [clearAll] issues its three writes together.  On a store that
    accepts them it returns, and afterwards [getPrompts] and
    [getCategories] return the empty list.  When the store refuses the
    write of the prompts, the call throws the host's error and the stored
    prompts stay, yet the categories are emptied if their write is
    accepted. *)
Theorem clearAll_not_atomic (m : Memento) :
  ((forall key, updateFault m key = None) ->
   exists m',
     StorageService.clearAll m = (Return tt, m')
     /\ StorageService.getPrompts m' = (Return [], m')
     /\ StorageService.getCategories m' = (Return [], m'))
  /\
  (forall msg,
     updateFault m PROMPTS = Some msg ->
     exists m',
       StorageService.clearAll m = (Throw (HostFailure msg), m')
       /\ promptsSlot m' = promptsSlot m
       /\ (updateFault m CATEGORIES = None -> categoriesOf m' = [])).
Proof.
  unfold StorageService.clearAll. rewrite tryCatch_rethrow.
  unfold both, updatePrompts, updateCategories, updateSettings. split.
  - intros Hw. rewrite (Hw PROMPTS). simpl. rewrite (Hw CATEGORIES). simpl.
    rewrite (Hw SETTINGS). eexists. split; [reflexivity|].
    rewrite getPrompts_run, getCategories_run. split; reflexivity.
  - intros msg HP. rewrite HP.
    destruct (updateFault m CATEGORIES) eqn:HC; simpl;
      destruct (updateFault m SETTINGS) eqn:HS; simpl;
      (eexists; split; [reflexivity|]; split; [reflexivity|]);
      intros; solve [discriminate | reflexivity].
Qed.

Lemma clearAll_not_atomic_witness :
  (exists m',
     StorageService.clearAll Example.store = (Return tt, m')
     /\ StorageService.getPrompts m' = (Return [], m')
     /\ StorageService.getCategories m' = (Return [], m'))
  /\ exists m',
       StorageService.clearAll HalfBroken.promptsLocked = (Throw (HostFailure "EIO"), m')
       /\ promptsOf m' = [Example.p1; Example.p2]
       /\ categoriesOf m' = [].
Proof.
  split.
  - apply (proj1 (clearAll_not_atomic Example.store)). reflexivity.
  - destruct (proj2 (clearAll_not_atomic HalfBroken.promptsLocked) "EIO" eq_refl)
      as (m' & E & Hp & Hc).
    exists m'. split; [exact E|]. split; [|exact (Hc eq_refl)].
    unfold promptsOf. now rewrite Hp.
Defined.

(** * Further properties of the manager *)

(** ** Search with a keyword *)

Lemma addUnlessPresent_prefix (candidates : list PromptItem) : forall acc,
  exists added,
    fold_left
      (fun matchedPrompts prompt =>
         if negb (Js.some (fun mp => (PromptItem.id mp =? PromptItem.id prompt)%string)
                    matchedPrompts)
         then Js.push matchedPrompts prompt
         else matchedPrompts)
      candidates acc
    = (acc ++ added)%list.
Proof.
  induction candidates as [|c cs IH]; intros acc; simpl.
  - exists []. now rewrite app_nil_r.
  - destruct (negb _).
    + destruct (IH (Js.push acc c)) as (added & ->). exists (c :: added).
      unfold Js.push. now rewrite <- app_assoc.
    + apply IH.
Qed.

Lemma addCategoryPrompts_prefix prompts ids : forall acc,
  exists added,
    fold_left (PromptTreeDataProvider.addCategoryPrompts prompts) ids acc
    = (acc ++ added)%list.
Proof.
  induction ids as [|id ids IH]; intros acc; simpl.
  - exists []. now rewrite app_nil_r.
  - unfold PromptTreeDataProvider.addCategoryPrompts at 2.
    destruct (addUnlessPresent_prefix
                (Js.filter (fun p => Js.optIs (PromptItem.categoryId p) id) prompts) acc)
      as (first & ->).
    destruct (IH (acc ++ first)%list) as (added & ->).
    exists (first ++ added)%list. now rewrite <- app_assoc.
Qed.

Section ManagerSearch.
Context {host : HostStrings}.

Lemma manager_isMatch_spec options term p :
  PromptManager.isMatch options term p = true <-> DirectHit options term p.
Proof.
  unfold PromptManager.isMatch, DirectHit.
  destruct (Js.includes (toLowerCase (PromptItem.title p)) term); [tauto|].
  destruct (PromptManager.notFalse options includeContent); simpl.
  - destruct (Js.includes (toLowerCase (PromptItem.content p)) term); [tauto|].
    destruct (PromptManager.notFalse options includeTags); simpl.
    + destruct (PromptItem.tags p) as [tags|].
      * destruct (Js.some _ tags) eqn:E.
        -- split; [|reflexivity]. intros _. right. right. split; [reflexivity|].
           apply existsb_exists in E as (tag & Hin & Htag). eauto.
        -- split; [discriminate|].
           intros [H|[[_ H]|(_ & tags' & tag & [= <-] & Hin & Htag)]]; try discriminate.
           assert (existsb (fun tag => Js.includes (toLowerCase tag) term) tags = true);
             [|unfold Js.some in E; congruence].
           apply existsb_exists. eauto.
      * split; [discriminate|].
        intros [H|[[_ H]|(_ & tags' & tag & H & _)]]; discriminate.
    + split; [discriminate|]. intros [H|[[_ H]|[H _]]]; discriminate.
  - destruct (PromptManager.notFalse options includeTags); simpl.
    + destruct (PromptItem.tags p) as [tags|].
      * destruct (Js.some _ tags) eqn:E.
        -- split; [|reflexivity]. intros _. right. right. split; [reflexivity|].
           apply existsb_exists in E as (tag & Hin & Htag). eauto.
        -- split; [discriminate|].
           intros [H|[[H _]|(_ & tags' & tag & [= <-] & Hin & Htag)]]; try discriminate.
           assert (existsb (fun tag => Js.includes (toLowerCase tag) term) tags = true);
             [|unfold Js.some in E; congruence].
           apply existsb_exists. eauto.
      * split; [discriminate|].
        intros [H|[[H _]|(_ & tags' & tag & H & _)]]; discriminate.
    + split; [discriminate|]. intros [H|[[H _]|[H _]]]; discriminate.
Qed.

Lemma categoryMatches_spec term categories p :
  (exists id,
      In id (map PromptCategory.id
               (List.filter (PromptManager.categoryMatches term) categories))
      /\ PromptItem.categoryId p = Some id)
  <-> FiledUnderHit term categories p.
Proof.
  unfold FiledUnderHit. split.
  - intros (id & Hin & Hp). apply in_map_iff in Hin as (c & <- & Hc).
    apply filter_In in Hc as [Hc Hm]. exists c. split; [exact Hc|]. split; [exact Hp|].
    unfold PromptManager.categoryMatches in Hm. apply orb_true_iff in Hm as [Hm|Hm].
    + now left.
    + right. destruct (PromptCategory.description c) as [d|]; [eauto|discriminate].
  - intros (c & Hc & Hp & Hm). exists (PromptCategory.id c). split; [|exact Hp].
    apply in_map. apply filter_In. split; [exact Hc|].
    unfold PromptManager.categoryMatches. apply orb_true_iff.
    destruct Hm as [Hm|(d & Hd & Hm)]; [now left|]. right. now rewrite Hd.
Qed.

(** X16. For a keyword that is not blank and stored prompts with pairwise
    distinct ids, [searchPrompts] returns the stored prompts that match the
    trimmed, lower-cased keyword by themselves - in the title, or in the
    content or a tag unless the options switch that field off - in their
    stored order, followed by the other prompts filed under a category
    whose name or description contains the term; no prompt is returned
    twice.  [searchWithCategories] returns the same prompts, each with the
    name of its category or "未分类". *)
Theorem searchPrompts_hits (keyword : string) (options : option SearchOptions)
  (m : Memento) :
  Js.trim keyword <> "" ->
  List.NoDup (promptIds m) ->
  exists matched added,
    PromptManager.searchPrompts keyword options m = (Return matched, m)
    /\ matched
       = (List.filter (PromptManager.isMatch options (Js.trim (toLowerCase keyword)))
            (promptsOf m) ++ added)%list
    /\ (forall p, PromptManager.isMatch options (Js.trim (toLowerCase keyword)) p = true
                  <-> DirectHit options (Js.trim (toLowerCase keyword)) p)
    /\ (forall p, In p matched <->
                  In p (promptsOf m)
                  /\ (DirectHit options (Js.trim (toLowerCase keyword)) p
                      \/ FiledUnderHit (Js.trim (toLowerCase keyword))
                           (categoriesOf m) p))
    /\ List.NoDup (map PromptItem.id matched)
    /\ PromptManager.searchWithCategories keyword options m
       = (Return (map (fun p => (p, PromptManager.categoryNameOf (categoriesOf m) p))
                    matched), m).
Proof.
  intros Hblank Hids.
  assert (Htruthy : Js.truthy keyword = true).
  { destruct (Js.truthy keyword) eqn:T; [reflexivity|].
    apply truthy_false in T. subst keyword. now contradiction Hblank. }
  apply String.eqb_neq in Hblank.
  set (term := Js.trim (toLowerCase keyword)).
  set (direct := List.filter (PromptManager.isMatch options term) (promptsOf m)).
  set (ids := map PromptCategory.id
                (List.filter (PromptManager.categoryMatches term) (categoriesOf m))).
  set (merged := fold_left (PromptTreeDataProvider.addCategoryPrompts (promptsOf m))
                   ids direct).
  assert (Hrun : PromptManager.searchPrompts keyword options m = (Return merged, m)).
  { unfold PromptManager.searchPrompts, tryCatch.
    rewrite bind_getPrompts, bind_getCategories. rewrite Htruthy, Hblank. simpl.
    now rewrite fold_push_filter, fold_push_map_filter. }
  assert (Hdirect : Selection (promptsOf m) direct).
  { split.
    - intros p Hp. apply filter_In in Hp. tauto.
    - now apply NoDup_map_filter. }
  destruct (addCategoryPrompts_spec (promptsOf m) Hids ids direct Hdirect)
    as [[Hsub Hnd] Hin].
  fold merged in Hsub, Hnd, Hin.
  destruct (addCategoryPrompts_prefix (promptsOf m) ids direct) as (added & Hadded).
  fold merged in Hadded.
  exists merged, added. split; [exact Hrun|]. split; [exact Hadded|].
  split; [intros p; apply manager_isMatch_spec|]. split; [|split; [exact Hnd|]].
  - intros p. rewrite Hin. unfold direct. rewrite filter_In, manager_isMatch_spec.
    unfold ids. rewrite categoryMatches_spec. tauto.
  - unfold PromptManager.searchWithCategories, tryCatch, bind.
    rewrite Hrun. now rewrite getCategories_run.
Qed.

End ManagerSearch.

Lemma searchPrompts_hits_witness :
  exists matched added,
    PromptManager.searchPrompts (host := AsciiHost.host) " Sort" (Some Bare.titlesOnly)
      Bare.store
    = (Return matched, Bare.store)
    /\ matched = ([Example.p1] ++ added)%list
    /\ In Bare.filed matched
    /\ PromptManager.searchWithCategories (host := AsciiHost.host) " Sort"
         (Some Bare.titlesOnly) Bare.store
       = (Return (map (fun p => (p, PromptManager.categoryNameOf
                                      (categoriesOf Bare.store) p)) matched),
          Bare.store).
Proof.
  assert (Hk : Js.trim " Sort" <> "") by (vm_compute; discriminate).
  assert (Hnd : List.NoDup (promptIds Bare.store)).
  { vm_compute. repeat constructor; simpl; intuition discriminate. }
  destruct (searchPrompts_hits (host := AsciiHost.host) " Sort" (Some Bare.titlesOnly)
              Bare.store Hk Hnd)
    as (matched & added & E & Hm & _ & Hin & _ & Ec).
  exists matched, added. split; [exact E|]. split; [exact Hm|]. split; [|exact Ec].
  apply Hin. split; [vm_compute; tauto|]. right.
  exists Bare.notes. split; [vm_compute; tauto|]. split; [reflexivity|].
  right. exists "Sorting tricks". split; [reflexivity|]. vm_compute. reflexivity.
Defined.

(** ** Export and import *)

Lemma upsert_fresh {A} (key : A -> string) l x x' :
  ~ In (key x) (map key l) -> upsert key l x x' = (l ++ [x'])%list.
Proof.
  intros Hfresh.
  destruct (upsert_shape key l x x') as [(l1 & y & l2 & -> & Hy & _)|[_ E]]; [|exact E].
  exfalso. apply Hfresh. rewrite <- Hy. apply in_map. apply in_or_app. right. now left.
Qed.

Lemma NoDup_app_snoc {B} (l : list B) x xs :
  List.NoDup (l ++ x :: xs) -> ~ In x l /\ List.NoDup ((l ++ [x]) ++ xs).
Proof.
  intros H. split.
  - apply NoDup_remove_2 in H. intros Hin. apply H. apply in_or_app. now left.
  - now rewrite <- app_assoc.
Qed.

Lemma fold_upsert_fresh {A} (key : A -> string) xs : forall l,
  List.NoDup (map key (l ++ xs)) ->
  fold_left (fun acc x => upsert key acc x x) xs l = (l ++ xs)%list.
Proof.
  induction xs as [|x xs IH]; simpl; intros l Hnd; [now rewrite app_nil_r|].
  rewrite map_app in Hnd. simpl in Hnd. apply NoDup_app_snoc in Hnd as [Hx Hnd].
  rewrite (upsert_fresh key l x x Hx). rewrite IH.
  - now rewrite <- app_assoc.
  - rewrite !map_app. simpl. exact Hnd.
Qed.

Lemma mergeCategoriesAt_fresh clock cs : forall i acc,
  List.NoDup (map PromptCategory.id (acc ++ cs)) ->
  mergeCategoriesAt clock i cs acc
  = (acc ++ imap (fun j c => StorageService.withDefaults c (clock (i + j)%nat)
                               (length acc + j))
              cs)%list.
Proof.
  induction cs as [|c cs IH]; simpl; intros i acc Hnd; [now rewrite app_nil_r|].
  rewrite map_app in Hnd. simpl in Hnd. apply NoDup_app_snoc in Hnd as [Hc Hnd].
  rewrite (upsert_fresh PromptCategory.id acc c _ Hc). rewrite IH.
  - rewrite <- app_assoc. simpl. rewrite !Nat.add_0_r. f_equal. f_equal.
    apply imap_ext. intros j x _. simpl. rewrite length_app. simpl.
    f_equal; [f_equal|]; lia.
  - rewrite !map_app. simpl. exact Hnd.
Qed.

Lemma withDefaults_complete c now len :
  Complete c -> StorageService.withDefaults c now len = c.
Proof.
  unfold Complete, StorageService.withDefaults.
  destruct c as [i n d ic [s|] [t|]]; simpl; intros [Hs Hd]; congruence.
Qed.

Lemma imap_unchanged {A} (f : nat -> A -> A) (l : list A) :
  Forall (fun x => forall i, f i x = x) l -> imap f l = l.
Proof.
  revert f. induction l as [|x l IH]; intros f H; [reflexivity|].
  rewrite imap_cons. apply List.Forall_cons_iff in H as [Hx Hl].
  rewrite Hx, IH; [reflexivity|].
  apply List.Forall_forall. intros y Hy i. rewrite List.Forall_forall in Hl.
  apply (Hl y Hy).
Qed.

Lemma exportData_run now m :
  PromptManager.exportData now m
  = (Return {| version := "1.0.0";
               exportedAt := now;
               exportedPrompts := promptsOf m;
               exportedCategories := categoriesOf m;
               metadata := Some {| totalCount := length (promptsOf m);
                                   categoryCount := length (categoriesOf m) |} |}, m).
Proof.
  unfold PromptManager.exportData, tryCatch.
  now rewrite bind_getPrompts, bind_getCategories.
Qed.

Lemma importCategories_run clock (cs : list PromptCategory) m :
  forEachAt 0 cs
    (fun i category =>
       tryCatch (StorageService.saveCategory (clock i) category) (fun _ => ret tt)) m
  = (Return tt,
     foldAt 0 cs (fun i c m => snd (StorageService.saveCategory (clock i) c m)) m).
Proof.
  apply (forEachAt_steps (fun _ => True)); [|exact I].
  intros i x m1 _. split; [apply swallow_saveCategory|exact I].
Qed.

Lemma importPrompts_run (ps : list PromptItem) m :
  forEachAt 0 ps
    (fun _ prompt => tryCatch (StorageService.savePrompt prompt) (fun _ => ret tt)) m
  = (Return tt, foldAt 0 ps (fun _ p m => snd (StorageService.savePrompt p m)) m).
Proof.
  apply (forEachAt_steps (fun _ => True)); [|exact I].
  intros i x m1 _. split; [apply swallow_savePrompt|exact I].
Qed.

Lemma importData_lists clock (data : ReceivedData) cs ps m :
  receivedCategories data = Iterable cs ->
  receivedPrompts data = Iterable ps ->
  PromptManager.importData clock data m
  = (Return tt,
     foldAt 0 ps (fun _ p m => snd (StorageService.savePrompt p m))
       (foldAt 0 cs (fun i c m => snd (StorageService.saveCategory (clock i) c m)) m)).
Proof.
  intros Hc Hp. unfold PromptManager.importData. unfold tryCatch at 1.
  unfold PromptManager.performImport. rewrite tryCatch_rethrow.
  rewrite Hc, Hp. unfold PromptManager.forEachOf, bind.
  now rewrite importCategories_run, importPrompts_run.
Qed.

Lemma importData_run clock (data : ExportData) m :
  PromptManager.importData clock data m
  = (Return tt,
     foldAt 0 (exportedPrompts data) (fun _ p m => snd (StorageService.savePrompt p m))
       (foldAt 0 (exportedCategories data)
          (fun i c m => snd (StorageService.saveCategory (clock i) c m)) m)).
Proof. now apply importData_lists. Qed.

(** X17. Importing what [exportData] returned into an empty repository
    that accepts writes restores the data when the exported ids are
    pairwise distinct: the stored prompts are the exported prompts in their
    order, and the stored categories are the exported categories in their
    order, a missing sort order filled in with the position and a missing
    creation date with the instant of the save; categories that carry
    both come back unchanged. *)
Theorem import_restores_export (now : Z) (clock : nat -> Z) (m target : Memento) :
  DistinctIds m ->
  Writable target ->
  promptsOf target = [] ->
  categoriesOf target = [] ->
  exists data m',
    PromptManager.exportData now m = (Return data, m)
    /\ exportedPrompts data = promptsOf m
    /\ exportedCategories data = categoriesOf m
    /\ PromptManager.importData clock data target = (Return tt, m')
    /\ promptsOf m' = promptsOf m
    /\ categoriesOf m' = importedCategories clock (categoriesOf m)
    /\ (Forall Complete (categoriesOf m) -> categoriesOf m' = categoriesOf m).
Proof.
  intros [Hp Hc] HW Hp0 Hc0. eexists. eexists.
  split; [apply exportData_run|]. split; [reflexivity|]. split; [reflexivity|].
  split; [apply importData_run|]. cbn [exportedPrompts exportedCategories].
  set (m1 := foldAt 0 (categoriesOf m)
               (fun i c m => snd (StorageService.saveCategory (clock i) c m)) target).
  destruct (foldAt_categories clock (categoriesOf m) 0 target (HW CATEGORIES))
    as (C1 & C2 & C3).
  fold m1 in C1, C2, C3.
  assert (HF1 : updateFault m1 PROMPTS = None) by (rewrite C3; apply HW).
  destruct (foldAt_prompts (promptsOf m) 0 m1 HF1) as (P1 & P2 & _).
  assert (Hp1 : promptsOf m1 = []) by (unfold promptsOf; rewrite C2; exact Hp0).
  assert (Hcats : categoriesOf
                    (foldAt 0 (promptsOf m)
                       (fun _ p m => snd (StorageService.savePrompt p m)) m1)
                  = importedCategories clock (categoriesOf m)).
  { unfold categoriesOf at 1. rewrite P2. fold (categoriesOf m1). rewrite C1, Hc0.
    rewrite mergeCategoriesAt_fresh by exact Hc. reflexivity. }
  split; [|split; [exact Hcats|]].
  - rewrite P1, Hp1. now apply fold_upsert_fresh.
  - intros Hall. rewrite Hcats. apply imap_unchanged.
    apply List.Forall_forall. intros c Hin i. rewrite List.Forall_forall in Hall.
    now apply withDefaults_complete, Hall.
Qed.

Lemma import_restores_export_witness :
  exists data m',
    PromptManager.exportData 1700000000000 Bare.store = (Return data, Bare.store)
    /\ PromptManager.importData Fresh.clock data Fresh.store = (Return tt, m')
    /\ promptsOf m' = promptsOf Bare.store
    /\ categoriesOf m'
       = [ StorageService.withDefaults Example.programming 1700000000000 0;
           StorageService.withDefaults Bare.notes 1700000000001 1 ].
Proof.
  assert (Hd : DistinctIds Bare.store).
  { split; vm_compute; repeat constructor; simpl; intuition discriminate. }
  destruct (import_restores_export 1700000000000 Fresh.clock Bare.store Fresh.store Hd
              (fun key => eq_refl) eq_refl eq_refl)
    as (data & m' & E & _ & _ & Ei & Hp & Hc & _).
  exists data, m'. split; [exact E|]. split; [exact Ei|]. split; [exact Hp|].
  rewrite Hc. reflexivity.
Defined.

Lemma foldAt_refused {A} (step : nat -> A -> Memento -> Memento) xs : forall i m,
  (forall i x, step i x m = m) -> foldAt i xs step m = m.
Proof.
  induction xs as [|x xs IH]; intros i m H; simpl; [reflexivity|].
  rewrite H. now apply IH.
Qed.

Lemma mergeCategoriesAt_keys_prefix clock cs : forall i acc,
  exists extra,
    map PromptCategory.id (mergeCategoriesAt clock i cs acc)
    = (map PromptCategory.id acc ++ extra)%list.
Proof.
  induction cs as [|c cs IH]; simpl; intros i acc.
  - exists []. now rewrite app_nil_r.
  - destruct (IH (S i) (upsert PromptCategory.id acc c
                          (StorageService.withDefaults c (clock i) (length acc))))
      as (extra & ->).
    destruct (upsert_keys PromptCategory.id acc c
                (StorageService.withDefaults c (clock i) (length acc)) eq_refl)
      as [[_ ->]|[_ ->]].
    + now exists extra.
    + exists (PromptCategory.id c :: extra). now rewrite <- app_assoc.
Qed.

(** X18. [importData] skips a record whose save fails and removes
    nothing.  When the object received holds a list of categories and a
    list of prompts, the call returns whatever the store does: the ids
    stored before are still stored, in their places, and on a store that
    refuses the writes it returns as if the import had succeeded although
    nothing was stored.  When the categories cannot be iterated, the call
    throws an error that carries the engine's message and stores nothing;
    when only the prompts cannot be iterated, it throws likewise after the
    categories have been saved. *)
Theorem importData_failures (clock : nat -> Z) (data : ReceivedData) (m : Memento) :
  (forall cs ps,
     receivedCategories data = Iterable cs -> receivedPrompts data = Iterable ps ->
     exists m',
       PromptManager.importData clock data m = (Return tt, m')
       /\ (exists added, promptIds m' = (promptIds m ++ added)%list)
       /\ (exists added, categoryIds m' = (categoryIds m ++ added)%list)
       /\ (updateFault m PROMPTS <> None -> updateFault m CATEGORIES <> None -> m' = m))
  /\ (forall msg,
        receivedCategories data = NotIterable msg ->
        PromptManager.importData clock data m
        = (Throw (ErrorObj ("导入数据失败: " ++ msg)), m))
  /\ (forall cs msg,
        receivedCategories data = Iterable cs -> receivedPrompts data = NotIterable msg ->
        exists m',
          PromptManager.importData clock data m
          = (Throw (ErrorObj ("导入数据失败: " ++ msg)), m')
          /\ m' = foldAt 0 cs
                    (fun i c m => snd (StorageService.saveCategory (clock i) c m)) m
          /\ promptsOf m' = promptsOf m
          /\ (updateFault m CATEGORIES = None ->
              categoriesOf m' = mergeCategoriesAt clock 0 cs (categoriesOf m))).
Proof.
  split; [|split].
  - intros cs ps Hcs Hps. eexists.
    split; [exact (importData_lists clock data cs ps m Hcs Hps)|].
    set (m1 := foldAt 0 cs
                 (fun i c m => snd (StorageService.saveCategory (clock i) c m)) m).
    assert (H1 : (exists added, categoryIds m1 = (categoryIds m ++ added)%list)
                 /\ promptsSlot m1 = promptsSlot m /\ updateFault m1 = updateFault m
                 /\ (updateFault m CATEGORIES <> None -> m1 = m)).
    { destruct (updateFault m CATEGORIES) as [msg|] eqn:F.
      - assert (E : m1 = m).
        { apply foldAt_refused. intros i x. rewrite saveCategory_run.
          now rewrite (updateCategories_fault _ _ _ F). }
        rewrite E. split; [exists []; now rewrite app_nil_r|]. auto.
      - destruct (foldAt_categories clock cs 0 m F) as (C1 & C2 & C3).
        fold m1 in C1, C2, C3.
        split; [|split; [exact C2|split; [exact C3|congruence]]].
        unfold categoryIds. rewrite C1. apply mergeCategoriesAt_keys_prefix. }
    destruct H1 as (Hcat & Hps' & Hf & Hsame).
    set (m2 := foldAt 0 ps (fun _ p m => snd (StorageService.savePrompt p m)) m1).
    destruct (updateFault m1 PROMPTS) as [msg|] eqn:F.
    + assert (E : m2 = m1).
      { apply foldAt_refused. intros i x. rewrite savePrompt_run.
        now rewrite (updatePrompts_fault _ _ _ F). }
      rewrite E. split; [|split; [exact Hcat|]].
      * exists []. unfold promptIds, promptsOf. now rewrite Hps', app_nil_r.
      * intros _ Hc. now apply Hsame.
    + destruct (foldAt_prompts ps 0 m1 F) as (P1 & P2 & _).
      fold m2 in P1, P2. split; [|split].
      * unfold promptIds. rewrite P1.
        replace (promptsOf m1) with (promptsOf m) by (unfold promptsOf; now rewrite Hps').
        apply (fold_upsert_keys_prefix PromptItem.id (fun _ x => x)). auto.
      * destruct Hcat as (added & Hcat). exists added. rewrite <- Hcat.
        unfold categoryIds, categoriesOf. now rewrite P2.
      * intros Hp. rewrite <- Hf in Hp. contradiction.
  - intros msg Hcs. unfold PromptManager.importData. unfold tryCatch at 1.
    unfold PromptManager.performImport. rewrite tryCatch_rethrow.
    rewrite Hcs. reflexivity.
  - intros cs msg Hcs Hps. eexists. split.
    + unfold PromptManager.importData. unfold tryCatch at 1.
      unfold PromptManager.performImport. rewrite tryCatch_rethrow.
      rewrite Hcs, Hps. unfold PromptManager.forEachOf, bind.
      rewrite importCategories_run. reflexivity.
    + split; [reflexivity|].
      destruct (updateFault m CATEGORIES) as [refusal|] eqn:F.
      * rewrite foldAt_refused.
        -- split; [reflexivity|discriminate].
        -- intros i x. rewrite saveCategory_run.
           now rewrite (updateCategories_fault _ _ _ F).
      * destruct (foldAt_categories clock cs 0 m F) as (C1 & C2 & _).
        split; [unfold promptsOf; now rewrite C2|]. intros _. exact C1.
Qed.

Lemma importData_failures_witness :
  PromptManager.importData Fresh.clock
    {| version := "1.0.0"; exportedAt := 0;
       exportedPrompts := [Bare.filed]; exportedCategories := [Bare.notes];
       metadata := None |}
    Example.readOnly
  = (Return tt, Example.readOnly)
  /\ exists m',
       PromptManager.importData Fresh.clock Truncated.data Fresh.store
       = (Throw (ErrorObj ("导入数据失败: " ++ "importData.prompts is not iterable")), m')
       /\ promptsOf m' = []
       /\ categoriesOf m' = [StorageService.withDefaults Bare.notes 1700000000000 0].
Proof.
  split.
  - destruct (proj1 (importData_failures Fresh.clock
                       {| version := "1.0.0"; exportedAt := 0;
                          exportedPrompts := [Bare.filed];
                          exportedCategories := [Bare.notes];
                          metadata := None |}
                       Example.readOnly) [Bare.notes] [Bare.filed] eq_refl eq_refl)
      as (m' & E & _ & _ & H).
    rewrite E. f_equal. apply H; discriminate.
  - destruct (proj2 (proj2 (importData_failures Fresh.clock Truncated.data Fresh.store))
                [Bare.notes] "importData.prompts is not iterable" eq_refl eq_refl)
      as (m' & E & _ & Hp & Hc).
    exists m'. split; [exact E|]. split; [exact Hp|]. rewrite (Hc eq_refl). reflexivity.
Defined.

(** * The tree after a change of the store *)

Lemma filter_length_map {A B} (P : B -> Prop) (Q : A -> Prop)
  `{forall y, Decision (P y)} `{forall x, Decision (Q x)} (f : A -> B) (l : list A) :
  (forall x, In x l -> (P (f x) <-> Q x)) ->
  length (filter P (map f l)) = length (filter Q l).
Proof.
  induction l as [|x l IH]; intros Hpq; [reflexivity|].
  simpl map. rewrite !filter_cons.
  assert (Hx : P (f x) <-> Q x) by (apply Hpq; now left).
  assert (Hl : length (filter P (map f l)) = length (filter Q l))
    by (apply IH; intros y Hy; apply Hpq; now right).
  destruct (decide (P (f x))), (decide (Q x)); simpl; try tauto; now rewrite Hl.
Qed.

Lemma detach_refers k id (p : PromptItem) :
  k <> id ->
  (RefersTo k (if Js.optIs (PromptItem.categoryId p) id
               then StorageService.clearCategory p else p)
   <-> RefersTo k p).
Proof.
  intros Hk. unfold RefersTo. destruct (Js.optIs (PromptItem.categoryId p) id) eqn:E.
  - apply optIs_true in E. rewrite E. simpl. split; [discriminate|congruence].
  - reflexivity.
Qed.

Lemma detach_unresolved id categories (p : PromptItem) :
  Unresolved (withoutCategory id categories)
    (if Js.optIs (PromptItem.categoryId p) id then StorageService.clearCategory p else p)
  <-> RefersTo id p \/ Unresolved categories p.
Proof.
  unfold RefersTo. destruct (Js.optIs (PromptItem.categoryId p) id) eqn:E.
  - apply optIs_true in E. split; [now left|]. intros _. now left.
  - apply optIs_false in E. unfold Unresolved. rewrite !List.Forall_forall. split.
    + intros [H|[H|H]]; [tauto|tauto|]. right. right. right. intros c Hc Hp.
      apply (H c); [|exact Hp]. apply withoutCategory_In. split; [exact Hc|].
      intros <-. contradiction.
    + intros [H|[H|[H|H]]]; [contradiction|tauto|tauto|]. right. right.
      intros c Hc. apply withoutCategory_In in Hc as [Hc _]. now apply H.
Qed.

Lemma uncategorizedNodes_of_list (l : list PromptItem) :
  match l with
  | [] => []
  | p :: rest =>
      [PromptTreeDataProvider.createUncategorizedCategory (length (p :: rest))]
  end = uncategorizedNodes (length l).
Proof. now destruct l. Qed.

(** X19. What the tree shows after a category was deleted.  When the
    category exists and the store accepts the writes, [deleteCategory]
    returns, and [getRootItems] with no filter active then returns the
    nodes of the remaining categories, in their order and each with the
    count it had before, followed by an uncategorized node that counts the
    prompts that were uncategorized before or were filed under the deleted
    category - or by no such node when there is no such prompt. *)
Theorem deleteCategory_then_tree {host : HostStrings} (self : Provider) (id : string)
  (m : Memento) :
  PromptTreeDataProvider.filterActive self = false ->
  In id (categoryIds m) ->
  updateFault m CATEGORIES = None ->
  updateFault m PROMPTS = None ->
  exists m' roots self',
    StorageService.deleteCategory id m = (Return tt, m')
    /\ PromptTreeDataProvider.getRootItems self m' = (Return (roots, self'), m')
    /\ roots
       = (map (fun c => PromptTreeDataProvider.createCategoryItem c
                          (referenceCount m (PromptCategory.id c)))
            (withoutCategory id (categoriesOf m))
          ++ uncategorizedNodes
               (length (filter (fun p => RefersTo id p \/ Unresolved (categoriesOf m) p)
                          (promptsOf m))))%list.
Proof.
  intros Hf Hin HC HP.
  assert (Hrun : StorageService.deleteCategory id m
                 = (Return tt,
                    withPrompts (withCategories m (withoutCategory id (categoriesOf m)))
                      (detach id (promptsOf m)))).
  { rewrite deleteCategory_run. destruct (_ =? _)%nat eqn:E.
    - apply Nat.eqb_eq in E. rewrite withoutCategory_all in E.
      unfold categoryIds in Hin. apply in_map_iff in Hin as (c & Hid & Hc).
      now specialize (E c Hc).
    - unfold both, updateCategories, updatePrompts. rewrite HC. simpl. now rewrite HP. }
  eexists. eexists. eexists. split; [exact Hrun|].
  split; [now apply getRootItems_unfiltered|].
  unfold rootNodes.
  change (promptsOf (withPrompts ?x ?v)) with v.
  change (categoriesOf (withPrompts (withCategories ?x ?c) ?v)) with c.
  rewrite uncategorizedNodes_of_list. f_equal.
  - apply map_ext_in. intros c Hc. f_equal. unfold referenceCount, detach.
    apply filter_length_map. intros p _. apply detach_refers.
    apply withoutCategory_In in Hc. tauto.
  - f_equal. unfold detach. apply filter_length_map. intros p _.
    apply detach_unresolved.
Qed.

Lemma deleteCategory_then_tree_witness :
  exists m' roots self',
    StorageService.deleteCategory "notes" Bare.store = (Return tt, m')
    /\ PromptTreeDataProvider.getRootItems (host := AsciiHost.host)
         PromptTreeDataProvider.new m'
       = (Return (roots, self'), m')
    /\ map TreePromptItem.label roots = ["编程 (1)"; "未分类 (2)"].
Proof.
  destruct (deleteCategory_then_tree (host := AsciiHost.host) PromptTreeDataProvider.new
              "notes" Bare.store eq_refl (or_intror (or_introl eq_refl)) eq_refl eq_refl)
    as (m' & roots & self' & E & R & H).
  exists m', roots, self'. split; [exact E|]. split; [exact R|].
  rewrite H. vm_compute. reflexivity.
Defined.

Lemma find_first {A} (f : A -> bool) l x :
  List.find f l = Some x ->
  exists l1 l2,
    l = (l1 ++ x :: l2)%list /\ f x = true
    /\ Js.findIndex f l = Z.of_nat (length l1).
Proof.
  intros Hfind.
  assert (Hge : 0 <= Js.findIndex f l).
  { destruct (Z.lt_ge_cases (Js.findIndex f l) 0) as [Hlt|Hge]; [|exact Hge].
    pose proof (proj1 (findIndex_absent f l) Hlt) as Hnone.
    apply find_some in Hfind as [Hin Hx]. rewrite (Hnone x Hin) in Hx. discriminate. }
  destruct (findIndex_found f l Hge) as (l1 & y & l2 & Hl & Fy & Hl1 & Hi).
  rewrite Hl in Hfind. rewrite (find_app_none f l1 (y :: l2) Hl1) in Hfind.
  simpl in Hfind. rewrite Fy in Hfind. injection Hfind as <-.
  exists l1, l2. auto.
Qed.

(** X20. What the tree shows after a prompt was deleted.  [deletePrompt]
    of a stored id on a store that accepts the write returns, and
    [getRootItems] with no filter active then returns one node per
    category, the count of the category the prompt was filed under lowered
    by one, and an uncategorized node whose count is raised by one - unless
    the prompt was uncategorized already, in which case that count stays. *)
Theorem deletePrompt_then_tree {host : HostStrings} (self : Provider) (id : string)
  (target : PromptItem) (m : Memento) :
  PromptTreeDataProvider.filterActive self = false ->
  updateFault m PROMPTS = None ->
  StorageService.getPrompt id m = (Return (Some target), m) ->
  exists m' roots self',
    StorageService.deletePrompt id m = (Return tt, m')
    /\ PromptTreeDataProvider.getRootItems self m' = (Return (roots, self'), m')
    /\ roots
       = (map (fun c =>
                 PromptTreeDataProvider.createCategoryItem c
                   (referenceCount m (PromptCategory.id c)
                    - (if decide (RefersTo (PromptCategory.id c) target) then 1 else 0)))
            (categoriesOf m)
          ++ uncategorizedNodes
               (length (filter (Unresolved (categoriesOf m)) (promptsOf m))
                + (if decide (Unresolved (categoriesOf m) target) then 0 else 1)))%list.
Proof.
  intros Hf HP Hget. rewrite getPrompt_run in Hget. injection Hget as Hfind.
  unfold Js.find in Hfind.
  destruct (find_first _ _ _ Hfind) as (l1 & l2 & Hl & Hx & Hi).
  assert (Hrun : StorageService.deletePrompt id m
                 = (Return tt,
                    withPrompts m (l1 ++ StorageService.clearCategory target :: l2)%list)).
  { rewrite deletePrompt_run. cbv zeta. rewrite Hi.
    destruct (Z.of_nat (length l1) =? -1) eqn:E; [apply Z.eqb_eq in E; lia|].
    rewrite Hl, alterAt_middle. now apply updatePrompts_ok. }
  eexists. eexists. eexists. split; [exact Hrun|].
  split; [now apply getRootItems_unfiltered|].
  unfold rootNodes.
  change (promptsOf (withPrompts ?x ?v)) with v.
  change (categoriesOf (withPrompts ?x ?v)) with (categoriesOf x).
  rewrite uncategorizedNodes_of_list. f_equal.
  - apply map_ext. intros c. f_equal. unfold referenceCount. rewrite Hl.
    rewrite !filter_app, !filter_cons, !length_app.
    destruct (decide (RefersTo (PromptCategory.id c) (StorageService.clearCategory target)))
      as [Hr|_]; [discriminate Hr|].
    destruct (decide (RefersTo (PromptCategory.id c) target)); simpl; lia.
  - f_equal. rewrite Hl. rewrite !filter_app, !filter_cons, !length_app.
    destruct (decide (Unresolved (categoriesOf m) (StorageService.clearCategory target)))
      as [_|Hn]; [|exfalso; apply Hn; now left].
    destruct (decide (Unresolved (categoriesOf m) target)); simpl; lia.
Qed.

Lemma deletePrompt_then_tree_witness :
  exists m' roots self',
    StorageService.deletePrompt "n1" Bare.store = (Return tt, m')
    /\ PromptTreeDataProvider.getRootItems (host := AsciiHost.host)
         PromptTreeDataProvider.new m'
       = (Return (roots, self'), m')
    /\ map TreePromptItem.label roots = ["编程 (1)"; "Notes (0)"; "未分类 (2)"].
Proof.
  destruct (deletePrompt_then_tree (host := AsciiHost.host) PromptTreeDataProvider.new
              "n1" Bare.filed Bare.store eq_refl eq_refl eq_refl)
    as (m' & roots & self' & E & R & H).
  exists m', roots, self'. split; [exact E|]. split; [exact R|].
  rewrite H. vm_compute. reflexivity.
Defined.

(** X21. A category node agrees with [getPromptsByCategory].  With no
    filter active, the node [getRootItems] returns for a stored category
    carries in its label the number of prompts [getPromptsByCategory]
    returns for the category's id; and, the id not being the reserved id of
    the uncategorized node, the children of the node are at most one guide
    leaf followed by one prompt leaf for each of those prompts, in their
    order, the prompt whose id is the category id followed by "-guide"
    left out. *)
Theorem category_node_agrees_with_getPromptsByCategory {host : HostStrings}
  (self : Provider) (c : PromptCategory) (m : Memento) :
  PromptTreeDataProvider.filterActive self = false ->
  In c (categoriesOf m) ->
  PromptCategory.id c <> TREE_SPECIAL_CATEGORIES.UNCATEGORIZED ->
  exists filed roots self' children guide,
    PromptManager.getPromptsByCategory (PromptCategory.id c) m = (Return filed, m)
    /\ PromptTreeDataProvider.getRootItems self m = (Return (roots, self'), m)
    /\ In (PromptTreeDataProvider.createCategoryItem c (length filed)) roots
    /\ TreePromptItem.label (PromptTreeDataProvider.createCategoryItem c (length filed))
       = PromptCategory.name c ++ " (" ++ Js.showNat (length filed) ++ ")"
    /\ PromptTreeDataProvider.getChildItems
         (PromptTreeDataProvider.createCategoryItem c (length filed)) m
       = (Return children, m)
    /\ children = (guide ++ leavesUnder (PromptCategory.id c) filed)%list
    /\ (length guide <= 1)%nat
    /\ Forall (fun item => TreePromptItem.contextValue item = GUIDE_ITEM) guide.
Proof.
  intros Hf Hin Hid.
  set (filed := List.filter
                  (fun p => Js.optIs (PromptItem.categoryId p) (PromptCategory.id c))
                  (promptsOf m)).
  assert (Hcount : length filed
                   = length (filter (RefersTo (PromptCategory.id c)) (promptsOf m))).
  { unfold filed. f_equal. apply filter_decide. intros p. apply optIs_true. }
  exists filed. eexists. eexists. eexists.
  exists (match List.find (PromptTreeDataProvider.isGuideOf (PromptCategory.id c))
                  (promptsOf m) with
          | Some g => [PromptTreeDataProvider.guideItemFor (PromptCategory.id c) g]
          | None => []
          end).
  split.
  { unfold PromptManager.getPromptsByCategory, tryCatch.
    now rewrite bind_getPrompts. }
  split; [now apply getRootItems_unfiltered|].
  split.
  { unfold rootNodes. apply in_or_app. left. apply in_map_iff. exists c.
    split; [now rewrite Hcount|exact Hin]. }
  split; [reflexivity|].
  split; [apply getChildItems_run|].
  split.
  { unfold childrenOf. simpl. apply String.eqb_neq in Hid. now rewrite Hid. }
  destruct (List.find _ (promptsOf m)); simpl; split; auto.
Qed.

Lemma category_node_agrees_with_getPromptsByCategory_witness :
  exists filed roots self' children guide,
    PromptManager.getPromptsByCategory "notes" Bare.store = (Return filed, Bare.store)
    /\ PromptTreeDataProvider.getRootItems (host := AsciiHost.host)
         PromptTreeDataProvider.new Bare.store
       = (Return (roots, self'), Bare.store)
    /\ In (PromptTreeDataProvider.createCategoryItem Bare.notes (length filed)) roots
    /\ TreePromptItem.label
         (PromptTreeDataProvider.createCategoryItem Bare.notes (length filed))
       = "Notes (" ++ Js.showNat (length filed) ++ ")"
    /\ PromptTreeDataProvider.getChildItems
         (PromptTreeDataProvider.createCategoryItem Bare.notes (length filed)) Bare.store
       = (Return children, Bare.store)
    /\ children = (guide ++ leavesUnder "notes" filed)%list
    /\ (length guide <= 1)%nat
    /\ Forall (fun item => TreePromptItem.contextValue item = GUIDE_ITEM) guide.
Proof.
  apply (category_node_agrees_with_getPromptsByCategory (host := AsciiHost.host)
           PromptTreeDataProvider.new Bare.notes Bare.store eq_refl).
  - right. now left.
  - discriminate.
Defined.

(** X22. [getChildren] never rejects and never writes: for the root and for
    any node, with or without a filter, on any store - unset, unreadable or
    refusing writes - it returns a list of nodes, leaves the store as it
    was, and changes nothing of the provider but the cached root nodes. *)
Theorem getChildren_never_rejects {host : HostStrings} (self : Provider)
  (element : option TreePromptItem) (m : Memento) :
  exists items self',
    PromptTreeDataProvider.getChildren self element m = (Return (items, self'), m)
    /\ searchFilter self' = searchFilter self
    /\ searchTimeout self' = searchTimeout self
    /\ refreshTimeout self' = refreshTimeout self
    /\ (element <> None -> self' = self).
Proof.
  destruct element as [element|]; simpl.
  - unfold bind. rewrite getChildItems_run. eexists. eexists.
    split; [reflexivity|]. auto.
  - destruct (PromptTreeDataProvider.filterActive self) eqn:Hf.
    + destruct (getRootItems_filtered self m Hf) as (results & ->).
      eexists. eexists. split; [reflexivity|]. repeat split; congruence.
    + rewrite (getRootItems_unfiltered self m Hf). eexists. eexists.
      split; [reflexivity|]. repeat split; congruence.
Qed.

(** * The localised default prompts *)

Lemma JsMap_has_keys {V} key (entries : list (string * V)) :
  JsMap.has key entries = true <-> In key (map fst entries).
Proof.
  induction entries as [|[k v] l IH]; simpl; [split; [discriminate|tauto]|].
  rewrite orb_true_iff, String.eqb_eq, IH. reflexivity.
Qed.

Lemma JsMap_set_fresh {V} key (value : V) entries :
  JsMap.has key entries = false ->
  JsMap.set key value entries = (entries ++ [(key, value)])%list.
Proof.
  induction entries as [|[k v] l IH]; simpl; [reflexivity|].
  intros H. apply orb_false_iff in H as [Hk Hl]. now rewrite Hk, IH.
Qed.

Lemma find_app_some {A} (f : A -> bool) l k x :
  List.find f l = Some x -> List.find f (l ++ k) = Some x.
Proof.
  induction l as [|a l IH]; simpl; [discriminate|].
  destruct (f a); [auto|exact IH].
Qed.

Lemma firstOfEachId_step seen entries (x : PromptItem) :
  FirstOfEachId seen entries ->
  FirstOfEachId (seen ++ [x])
    (if negb (JsMap.has (PromptItem.id x) entries)
     then JsMap.set (PromptItem.id x) x entries
     else entries).
Proof.
  intros (Ha & Hb & Hc & Hd & He). unfold FirstOfEachId.
  destruct (JsMap.has (PromptItem.id x) entries) eqn:Hhas; simpl.
  - apply JsMap_has_keys in Hhas. repeat match goal with |- _ /\ _ => split end.
    + exact Ha.
    + exact Hb.
    + now apply sublist_inserts_r.
    + intros p Hp. apply find_app_some. now apply Hd.
    + intros q Hq. apply in_app_or in Hq as [Hq|[<-|[]]]; [now apply He|exact Hhas].
  - rewrite (JsMap_set_fresh _ _ _ Hhas).
    assert (Hfresh : ~ In (PromptItem.id x) (map fst entries)).
    { intros Hin. apply JsMap_has_keys in Hin. congruence. }
    repeat match goal with |- _ /\ _ => split end.
    + rewrite !map_app. simpl. now rewrite Ha.
    + rewrite map_app. simpl. now apply NoDup_snoc.
    + rewrite map_app. simpl. apply sublist_app; [exact Hc|reflexivity].
    + intros p Hp. rewrite map_app in Hp. apply in_app_or in Hp as [Hp|[<-|[]]].
      * apply find_app_some. now apply Hd.
      * rewrite find_app_none.
        -- simpl. now rewrite String.eqb_refl.
        -- intros q Hq. apply String.eqb_neq. intros Hid. apply Hfresh.
           simpl in Hid. rewrite <- Hid. now apply He.
    + intros q Hq. rewrite map_app. apply in_or_app.
      apply in_app_or in Hq as [Hq|[<-|[]]]; [left; now apply He|right; now left].
Qed.

Lemma firstOfEachId_loop rest : forall seen entries,
  FirstOfEachId seen entries ->
  FirstOfEachId (seen ++ rest)
    (fold_left
       (fun uniquePrompts prompt =>
          if negb (JsMap.has (PromptItem.id prompt) uniquePrompts)
          then JsMap.set (PromptItem.id prompt) prompt uniquePrompts
          else uniquePrompts)
       rest entries).
Proof.
  induction rest as [|x rest IH]; intros seen entries H; simpl.
  - now rewrite app_nil_r.
  - replace (seen ++ x :: rest)%list with ((seen ++ [x]) ++ rest)%list
      by now rewrite <- app_assoc.
    apply IH. now apply firstOfEachId_step.
Qed.

(** X23. [getLocalizedDefaultPrompts] returns one prompt per id of the
    default prompts: the localised copy of the first default prompt with
    that id, later prompts with the same id being dropped, in the order of
    the default prompts.  A copy keeps id and category; its title is the
    translation, or the original title where the translation is empty, and
    it always carries a tag list. *)
Theorem getLocalizedDefaultPrompts_first_of_each_id (defaultPrompts : list PromptItem)
  (t : string -> string) :
  exists kept,
    getLocalizedDefaultPrompts defaultPrompts t = map (localized t) kept
    /\ sublist kept defaultPrompts
    /\ List.NoDup (map PromptItem.id (getLocalizedDefaultPrompts defaultPrompts t))
    /\ (forall p, In p kept ->
                  List.find (fun q => (PromptItem.id q =? PromptItem.id p)%string)
                    defaultPrompts = Some p)
    /\ (forall q, In q defaultPrompts ->
                  In (PromptItem.id q)
                    (map PromptItem.id (getLocalizedDefaultPrompts defaultPrompts t)))
    /\ (forall p, PromptItem.id (localized t p) = PromptItem.id p
                  /\ PromptItem.categoryId (localized t p) = PromptItem.categoryId p
                  /\ PromptItem.tags (localized t p) <> None
                  /\ (t ("prompt." ++ PromptItem.id p ++ ".title") = "" ->
                      PromptItem.title (localized t p) = PromptItem.title p)
                  /\ (t ("prompt." ++ PromptItem.id p ++ ".title") <> "" ->
                      PromptItem.title (localized t p)
                      = t ("prompt." ++ PromptItem.id p ++ ".title"))).
Proof.
  unfold getLocalizedDefaultPrompts. cbv zeta.
  set (uniquePrompts := fold_left _ defaultPrompts []).
  assert (H : FirstOfEachId defaultPrompts uniquePrompts).
  { apply (firstOfEachId_loop defaultPrompts [] []).
    unfold FirstOfEachId. simpl. repeat split; try constructor; intros ? []. }
  destruct H as (Ha & Hb & Hc & Hd & He).
  assert (Hids : map PromptItem.id (map (localized t) (JsMap.values uniquePrompts))
                 = map fst uniquePrompts).
  { rewrite map_map. simpl. rewrite Ha. reflexivity. }
  exists (JsMap.values uniquePrompts). split; [reflexivity|]. split; [exact Hc|].
  split; [now rewrite Hids|]. split; [exact Hd|]. split.
  - intros q Hq. rewrite Hids. now apply He.
  - intros p. split; [reflexivity|]. split; [reflexivity|]. split; [discriminate|].
    unfold localized, orElse. simpl. split.
    + intros ->. reflexivity.
    + intros Hne. destruct (Js.truthy _) eqn:T; [reflexivity|].
      apply truthy_false in T. contradiction.
Qed.

Lemma getLocalizedDefaultPrompts_first_of_each_id_witness :
  exists kept,
    getLocalizedDefaultPrompts Localised.defaults Localised.t
    = map (localized Localised.t) kept
    /\ sublist kept Localised.defaults
    /\ List.NoDup (map PromptItem.id
                     (getLocalizedDefaultPrompts Localised.defaults Localised.t))
    /\ map PromptItem.title (getLocalizedDefaultPrompts Localised.defaults Localised.t)
       = ["Sortieren"; "Loose"].
Proof.
  destruct (getLocalizedDefaultPrompts_first_of_each_id Localised.defaults Localised.t)
    as (kept & E & Hs & Hnd & _).
  exists kept. split; [exact E|]. split; [exact Hs|]. split; [exact Hnd|reflexivity].
Defined.

(** * Distinct ids *)

Lemma mergeCategoriesAt_NoDup clock cs : forall i acc,
  List.NoDup (map PromptCategory.id acc) ->
  List.NoDup (map PromptCategory.id (mergeCategoriesAt clock i cs acc)).
Proof.
  induction cs as [|c cs IH]; simpl; intros i acc Hacc; [exact Hacc|].
  apply IH. now apply upsert_NoDup.
Qed.

Lemma mergeCategoriesAt_members clock cs : forall i acc c,
  In c cs -> In (PromptCategory.id c) (map PromptCategory.id (mergeCategoriesAt clock i cs acc)).
Proof.
  induction cs as [|x cs IH]; simpl; intros i acc c Hin; [contradiction|].
  destruct Hin as [->|Hin]; [|now apply IH].
  destruct (mergeCategoriesAt_keys_prefix clock cs (S i)
              (upsert PromptCategory.id acc c
                 (StorageService.withDefaults c (clock i) (length acc))))
    as (extra & ->).
  apply in_or_app. left.
  destruct (upsert_keys PromptCategory.id acc c
              (StorageService.withDefaults c (clock i) (length acc)) eq_refl)
    as [[H ->]|[_ ->]]; [exact H|apply in_or_app; right; now left].
Qed.

Lemma upsert_in_place {A} (key : A -> string) l x x' :
  In (key x) (map key l) ->
  exists before old after,
    l = (before ++ old :: after)%list /\ key old = key x
    /\ (forall z, In z before -> key z <> key x)
    /\ upsert key l x x' = (before ++ x :: after)%list.
Proof.
  intros Hin.
  destruct (upsert_shape key l x x') as [(l1 & y & l2 & Hl & Hy & Hl1 & E)|[Hnone _]].
  - exists l1, y, l2. split; [exact Hl|]. split; [exact Hy|]. split; [|exact E].
    intros z Hz. apply String.eqb_neq. now apply Hl1.
  - exfalso. apply in_map_iff in Hin as (y & Hy & Hin).
    specialize (Hnone y Hin). apply String.eqb_neq in Hnone. contradiction.
Qed.

Lemma fold_savePrompt_refused ps m msg :
  updateFault m PROMPTS = Some msg ->
  fold_left (fun m p => snd (StorageService.savePrompt p m)) ps m = m.
Proof.
  intros HF. induction ps as [|p ps IH]; simpl; [reflexivity|].
  rewrite savePrompt_run, (updatePrompts_fault _ _ _ HF). exact IH.
Qed.

(** C9. Every mutating operation of the repository keeps the prompt ids
    pairwise distinct and the category ids pairwise distinct, whatever the
    outcome of its writes.  An upsert whose id matches a stored record
    replaces that record in place - the records around it stay where they
    are and no second record with the id is appended - and one whose id is
    new appends one record; the batch operations [savePrompts] and
    [saveCategories] leave what upserting their elements one after the
    other leaves, so they too replace in place, and never move or drop an
    id that was stored. *)
Theorem mutators_preserve_distinct_ids (m : Memento) :
  DistinctIds m ->
  (forall p, DistinctIds (snd (StorageService.savePrompt p m)))
  /\ (forall ps, DistinctIds (snd (StorageService.savePrompts ps m)))
  /\ (forall now c, DistinctIds (snd (StorageService.saveCategory now c m)))
  /\ (forall clock cs, DistinctIds (snd (StorageService.saveCategories clock cs m)))
  /\ (forall c, DistinctIds (snd (StorageService.updateCategory c m)))
  /\ (forall id, DistinctIds (snd (StorageService.deletePrompt id m)))
  /\ (forall id, DistinctIds (snd (StorageService.deleteCategory id m)))
  /\ DistinctIds (snd (StorageService.clearAll m))
  /\ (forall p, In (PromptItem.id p) (promptIds m) ->
                promptIds (snd (StorageService.savePrompt p m)) = promptIds m)
  /\ (forall now c, In (PromptCategory.id c) (categoryIds m) ->
                    categoryIds (snd (StorageService.saveCategory now c m))
                    = categoryIds m)
  /\ (forall p, updateFault m PROMPTS = None ->
                In p (promptsOf (snd (StorageService.savePrompt p m))))
  /\ (forall now c, In (PromptCategory.id c) (categoryIds m) ->
                    updateFault m CATEGORIES = None ->
                    In c (categoriesOf (snd (StorageService.saveCategory now c m))))
  /\ (forall p, updateFault m PROMPTS = None ->
                In (PromptItem.id p) (promptIds m) ->
                exists before old after,
                  promptsOf m = (before ++ old :: after)%list
                  /\ PromptItem.id old = PromptItem.id p
                  /\ promptsOf (snd (StorageService.savePrompt p m))
                     = (before ++ p :: after)%list)
  /\ (forall p, updateFault m PROMPTS = None ->
                ~ In (PromptItem.id p) (promptIds m) ->
                promptsOf (snd (StorageService.savePrompt p m))
                = (promptsOf m ++ [p])%list)
  /\ (forall now c, updateFault m CATEGORIES = None ->
                    In (PromptCategory.id c) (categoryIds m) ->
                    exists before old after,
                      categoriesOf m = (before ++ old :: after)%list
                      /\ PromptCategory.id old = PromptCategory.id c
                      /\ categoriesOf (snd (StorageService.saveCategory now c m))
                         = (before ++ c :: after)%list)
  /\ (forall now c, updateFault m CATEGORIES = None ->
                    ~ In (PromptCategory.id c) (categoryIds m) ->
                    categoriesOf (snd (StorageService.saveCategory now c m))
                    = (categoriesOf m
                       ++ [StorageService.withDefaults c now (length (categoriesOf m))])%list)
  /\ (forall ps,
        promptsOf (snd (StorageService.savePrompts ps m))
        = promptsOf (fold_left (fun m p => snd (StorageService.savePrompt p m)) ps m))
  /\ (forall clock cs,
        categoriesOf (snd (StorageService.saveCategories clock cs m))
        = categoriesOf
            (foldAt 0 cs (fun i c m => snd (StorageService.saveCategory (clock i) c m)) m))
  /\ (forall ps, exists added,
        promptIds (snd (StorageService.savePrompts ps m)) = (promptIds m ++ added)%list)
  /\ (forall clock cs, exists added,
        categoryIds (snd (StorageService.saveCategories clock cs m))
        = (categoryIds m ++ added)%list)
  /\ (forall ps p, updateFault m PROMPTS = None -> In p ps ->
        In (PromptItem.id p) (promptIds (snd (StorageService.savePrompts ps m))))
  /\ (forall clock cs c, updateFault m CATEGORIES = None -> In c cs ->
        In (PromptCategory.id c)
          (categoryIds (snd (StorageService.saveCategories clock cs m)))).
Proof.
  intros Hm. pose proof Hm as [Hp Hc]. unfold promptIds, categoryIds in Hp, Hc.
  repeat match goal with |- _ /\ _ => split end.
  - intros p. rewrite savePrompt_run. apply distinct_updatePrompts; [exact Hm|].
    now apply upsert_NoDup.
  - intros ps. rewrite savePrompts_run. destruct (updateFault m PROMPTS); simpl;
      [exact Hm|]. apply distinct_withPrompts; [exact Hm|].
    apply (fold_upsert_NoDup PromptItem.id (fun _ x => x)); auto.
  - intros now c. rewrite saveCategory_run. apply distinct_updateCategories; [exact Hm|].
    now apply upsert_NoDup.
  - intros clock cs. rewrite saveCategories_run. destruct (updateFault m CATEGORIES); simpl;
      [exact Hm|]. apply distinct_withCategories; [exact Hm|].
    now apply mergeCategoriesAt_NoDup.
  - intros c. rewrite updateCategory_run. cbv zeta.
    destruct (_ <? 0) eqn:E; [exact Hm|]. apply Z.ltb_ge in E.
    apply distinct_updateCategories; [exact Hm|]. now rewrite setAt_same_key.
  - intros id. rewrite deletePrompt_run. cbv zeta.
    destruct (_ =? -1); [exact Hm|].
    apply distinct_updatePrompts; [exact Hm|]. now rewrite alterAt_ids.
  - intros id. rewrite deleteCategory_run.
    destruct (_ =? _)%nat; [exact Hm|].
    assert (Hc' : List.NoDup (map PromptCategory.id (withoutCategory id (categoriesOf m))))
      by now apply NoDup_map_filter.
    assert (Hp' : List.NoDup (map PromptItem.id (detach id (promptsOf m))))
      by now rewrite detach_ids.
    unfold both, updateCategories, updatePrompts.
    destruct (updateFault m CATEGORIES); simpl;
      destruct (updateFault m PROMPTS); simpl;
      split; first [exact Hp | exact Hc | exact Hp' | exact Hc'].
  - unfold StorageService.clearAll. rewrite tryCatch_rethrow.
    unfold both, updateCategories, updatePrompts, updateSettings.
    destruct (updateFault m PROMPTS); simpl;
      destruct (updateFault m CATEGORIES); simpl;
      destruct (updateFault m SETTINGS); simpl;
      split; first [exact Hp | exact Hc | constructor].
  - intros p Hin. rewrite savePrompt_run. unfold updatePrompts.
    destruct (updateFault m PROMPTS); simpl; [reflexivity|].
    unfold promptIds, promptsOf at 1. simpl.
    destruct (upsert_keys PromptItem.id (promptsOf m) p p eq_refl) as [[_ H]|[H _]];
      [exact H|contradiction].
  - intros now c Hin. rewrite saveCategory_run. unfold updateCategories.
    destruct (updateFault m CATEGORIES); simpl; [reflexivity|].
    unfold categoryIds, categoriesOf at 1. simpl.
    destruct (upsert_keys PromptCategory.id (categoriesOf m) c
                (StorageService.withDefaults c now (length (categoriesOf m))) eq_refl)
      as [[_ H]|[H _]]; [exact H|contradiction].
  - intros p HF. rewrite savePrompt_run, (updatePrompts_ok _ _ HF). simpl.
    apply upsert_In. now right.
  - intros now c Hin HF. rewrite saveCategory_run, (updateCategories_ok _ _ HF). simpl.
    apply upsert_In. left. now apply In_ids_findIndex.
  - intros p HF Hin. rewrite savePrompt_run, (updatePrompts_ok _ _ HF).
    destruct (upsert_in_place PromptItem.id (promptsOf m) p p Hin)
      as (before & old & after & Hl & Hid & _ & E).
    exists before, old, after. split; [exact Hl|]. split; [exact Hid|exact E].
  - intros p HF Hout. rewrite savePrompt_run, (updatePrompts_ok _ _ HF).
    exact (upsert_fresh PromptItem.id (promptsOf m) p p Hout).
  - intros now c HF Hin. rewrite saveCategory_run, (updateCategories_ok _ _ HF).
    destruct (upsert_in_place PromptCategory.id (categoriesOf m) c
                (StorageService.withDefaults c now (length (categoriesOf m))) Hin)
      as (before & old & after & Hl & Hid & _ & E).
    exists before, old, after. split; [exact Hl|]. split; [exact Hid|exact E].
  - intros now c HF Hout. rewrite saveCategory_run, (updateCategories_ok _ _ HF).
    exact (upsert_fresh PromptCategory.id (categoriesOf m) c _ Hout).
  - intros ps. rewrite savePrompts_run.
    destruct (updateFault m PROMPTS) as [msg|] eqn:HF.
    + now rewrite (fold_savePrompt_refused ps m msg HF).
    + destruct (fold_savePrompt ps m HF) as [-> _]. reflexivity.
  - intros clock cs. rewrite saveCategories_run.
    destruct (updateFault m CATEGORIES) as [msg|] eqn:HF.
    + rewrite foldAt_refused; [reflexivity|].
      intros i x. rewrite saveCategory_run. now rewrite (updateCategories_fault _ _ _ HF).
    + destruct (foldAt_categories clock cs 0 m HF) as (-> & _). reflexivity.
  - intros ps. rewrite savePrompts_run. destruct (updateFault m PROMPTS); simpl.
    + exists []. now rewrite app_nil_r.
    + apply (fold_upsert_keys_prefix PromptItem.id (fun _ x => x)). auto.
  - intros clock cs. rewrite saveCategories_run.
    destruct (updateFault m CATEGORIES); simpl.
    + exists []. now rewrite app_nil_r.
    + apply mergeCategoriesAt_keys_prefix.
  - intros ps p HF Hin. rewrite savePrompts_run, HF.
    destruct (fold_upsert_members PromptItem.id ps (promptsOf m)) as (H1 & _).
    exact (H1 p Hin).
  - intros clock cs c HF Hin. rewrite saveCategories_run, HF.
    unfold categoryIds. simpl.
    change (categoriesOf (withCategories m ?v)) with v.
    now apply mergeCategoriesAt_members.
Qed.

Lemma mutators_preserve_distinct_ids_witness :
  DistinctIds Example.store
  /\ (forall p, DistinctIds (snd (StorageService.savePrompt p Example.store)))
  /\ (forall id, DistinctIds (snd (StorageService.deleteCategory id Example.store)))
  /\ promptsOf (snd (StorageService.savePrompts [Localised.p1'] Example.store))
     = [Localised.p1'; Example.p2].
Proof.
  assert (H : DistinctIds Example.store).
  { split; cbv; repeat constructor; simpl; intuition discriminate. }
  split; [exact H|].
  pose proof (mutators_preserve_distinct_ids Example.store H) as T.
  split; [apply T|]. split; [apply T|].
  destruct T as (_ & _ & _ & _ & _ & _ & _ & _ & _ & _ & _ & _ & _ & _ & _ & _ & T17 & _).
  rewrite (T17 [Localised.p1']). reflexivity.
Defined.
